(** * Payment-triggered account provisioning: a shallow embedding

    The development follows [src/website/public-website.controller.ts]
    (class [ApplicationService]: [calculateNextBillingDate],
    [processPaymentAndCreateUser], [handleFailedCheckout] and the
    subscription webhook handlers) and [src/billing/billing.service.ts]
    ([cancelSubscription], [reactivateSubscription],
    [getSubscriptionStatus]).

    - JavaScript [Date] values are time values in milliseconds, an integer
      [Z]; the calendar functions are those of ECMA-262 (Day, DayFromYear,
      YearFromTime, MonthFromTime, DateFromTime, MakeDay, MakeDate).
    - The relational store is a record of tables, each a list of rows in
      insertion order; the unique indexes and foreign keys are those of the
      Prisma migrations.
    - Code running inside [prisma.$transaction] is written in a small state
      and error monad over a working copy of the store; the transaction
      commits the working copy on success and drops it on failure. *)

From Stdlib Require Import ZArith List String Bool Lia.
Import ListNotations.
Open Scope string_scope.
Open Scope list_scope.
Open Scope Z_scope.

(** ** ECMAScript time values and calendar arithmetic *)

Module JsDate.

(** A time value: milliseconds since the epoch.  Values are kept in local
    time (ECMA-262 [LocalTime(t)]): the program only uses the local-time
    accessors and constructor, and a fixed offset to UTC cancels in every
    comparison it makes. *)
Definition Time := Z.

Definition msPerDay : Z := 86400000.

Definition Day (t : Time) : Z := t / msPerDay.
Definition TimeWithinDay (t : Time) : Z := t mod msPerDay.

Definition isLeapYear (y : Z) : bool :=
  (y mod 4 =? 0) && (negb (y mod 100 =? 0) || (y mod 400 =? 0)).

Definition DaysInYear (y : Z) : Z := if isLeapYear y then 366 else 365.

Definition DayFromYear (y : Z) : Z :=
  365 * (y - 1970) + (y - 1969) / 4 - (y - 1901) / 100 + (y - 1601) / 400.

(** [YearFromTime]: the largest [y] with [DayFromYear y <= d], found by a
    downward search from an upper estimate. *)
Fixpoint year_search (fuel : nat) (y d : Z) : Z :=
  match fuel with
  | O => y
  | S k => if DayFromYear y <=? d then y else year_search k (y - 1) d
  end.

Definition YearFromDay (d : Z) : Z :=
  let hi := 1970 + Z.max (d / 365) (d / 366) + 1 in
  let lo := 1970 + Z.min (d / 365) (d / 366) - 1 in
  year_search (Z.to_nat (hi - lo)) hi d.

Definition DayWithinYear (d : Z) : Z := d - DayFromYear (YearFromDay d).

(** Number of days of the year before month [m] (0 = January). *)
Definition DaysBeforeMonth (leap : bool) (m : Z) : Z :=
  let l := if leap then 1 else 0 in
  if m <=? 0 then 0
  else if m =? 1 then 31
  else if m =? 2 then 59 + l
  else if m =? 3 then 90 + l
  else if m =? 4 then 120 + l
  else if m =? 5 then 151 + l
  else if m =? 6 then 181 + l
  else if m =? 7 then 212 + l
  else if m =? 8 then 243 + l
  else if m =? 9 then 273 + l
  else if m =? 10 then 304 + l
  else if m =? 11 then 334 + l
  else 365 + l.

Definition DaysInMonth (y m : Z) : Z :=
  DaysBeforeMonth (isLeapYear y) (m + 1) - DaysBeforeMonth (isLeapYear y) m.

(** Month (0..11) holding day-within-year [dwy]. *)
Definition month_of (leap : bool) (dwy : Z) : Z :=
  if dwy <? DaysBeforeMonth leap 1 then 0
  else if dwy <? DaysBeforeMonth leap 2 then 1
  else if dwy <? DaysBeforeMonth leap 3 then 2
  else if dwy <? DaysBeforeMonth leap 4 then 3
  else if dwy <? DaysBeforeMonth leap 5 then 4
  else if dwy <? DaysBeforeMonth leap 6 then 5
  else if dwy <? DaysBeforeMonth leap 7 then 6
  else if dwy <? DaysBeforeMonth leap 8 then 7
  else if dwy <? DaysBeforeMonth leap 9 then 8
  else if dwy <? DaysBeforeMonth leap 10 then 9
  else if dwy <? DaysBeforeMonth leap 11 then 10
  else 11.

Definition MonthFromDay (d : Z) : Z :=
  month_of (isLeapYear (YearFromDay d)) (DayWithinYear d).

Definition DateFromDay (d : Z) : Z :=
  let leap := isLeapYear (YearFromDay d) in
  DayWithinYear d - DaysBeforeMonth leap (month_of leap (DayWithinYear d)) + 1.

(** ECMA-262 [MakeDay]: month and date may lie outside their ranges, the
    result is normalised. *)
Definition MakeDay (year month date : Z) : Z :=
  let ym := year + month / 12 in
  let mn := month mod 12 in
  DayFromYear ym + DaysBeforeMonth (isLeapYear ym) mn + date - 1.

Definition MakeDate (day time : Z) : Time := day * msPerDay + time.

(** The [Date] methods the program calls. *)
Definition getFullYear (t : Time) : Z := YearFromDay (Day t).
Definition getMonth (t : Time) : Z := MonthFromDay (Day t).
Definition getDate (t : Time) : Z := DateFromDay (Day t).

(** [new Date(year, month, date)]: local midnight of the normalised day
    (for a year outside 0..99, which the constructor maps to 1900..1999). *)
Definition newDate (year month date : Z) : Time :=
  MakeDate (MakeDay year month date) 0.

(** [d.setDate(date)]: same year and month, given date, time of day kept. *)
Definition setDate (t : Time) (date : Z) : Time :=
  MakeDate (MakeDay (getFullYear t) (getMonth t) date) (TimeWithinDay t).

(** A calendar date with a time of day, for writing examples. *)
Definition at_time (year month date ms : Z) : Time :=
  MakeDate (MakeDay year month date) ms.

End JsDate.

Import JsDate.

(** ** [calculateNextBillingDate] *)

Definition calculateNextBillingDate (now : Time) (billingDay : Z) (isAnnual : bool) : Time :=
  if isAnnual then
    newDate (getFullYear now + 1) (getMonth now) billingDay
  else
    let nextDate := newDate (getFullYear now) (getMonth now + 1) billingDay in
    if negb (getDate nextDate =? billingDay)
    then setDate nextDate 0
    else nextDate.

Definition ymd (t : Time) : Z * Z * Z := (getFullYear t, getMonth t, getDate t).

(** The calendar month after month [m] of year [y]. *)
Definition following_month (y m : Z) : Z * Z :=
  if m =? 11 then (y + 1, 0) else (y, m + 1).

(** ** The store: rows, tables and the constraints of the migrations *)

(** Monetary columns are kept in pence (the source stores pounds as REAL,
    the Stripe amount divided by 100).  The columns [createdAt] and
    [updatedAt], which the ORM maintains and the program never reads in
    the functions below, are left out. *)
Definition Money := Z.

Record Tenant := {
  tenant_id : string;
  tenant_name : string;
  tenant_description : option string }.

Record User := {
  user_id : string;
  user_email : string;
  user_password : option string;
  user_provider : string;
  user_tenantId : string }.

Record Profile := {
  profile_id : string;
  profile_userId : string;
  profile_firstName : option string;
  profile_lastName : option string;
  profile_bio : option string }.

Record Application := {
  app_id : string;
  app_email : string;
  app_firstName : string;
  app_lastName : string;
  app_about : option string;
  app_purposes : string;
  app_customDesign : bool;
  app_paymentPlan : string;
  app_stripeSessionId : option string;
  app_status : string;
  app_userId : option string;
  app_processed : bool;
  app_processedAt : option Time;
  app_tempPassword : option string }.

Record Billing := {
  bill_id : string;
  bill_userId : string;
  bill_applicationId : string;
  bill_stripeCustomerId : string;
  bill_stripeSubscriptionId : option string;
  bill_billingType : string;
  bill_billingDay : option Z;
  bill_nextBillingDate : option Time;
  bill_amount : Money;
  bill_initialAmount : option Money;
  bill_recurringAmount : option Money;
  bill_setupFee : Money;
  bill_customDesignFee : option Money;
  bill_currency : string;
  bill_status : string;
  bill_cancelledAt : option Time }.

Record DB := {
  tenants : list Tenant;
  users : list User;
  profiles : list Profile;
  applications : list Application;
  billings : list Billing }.

Definition is_some {A} (o : option A) : bool :=
  match o with Some _ => true | None => false end.

(** Equality of a nullable column with a value: NULL equals nothing. *)
Definition col_is (c : option string) (v : string) : bool :=
  match c with Some s => String.eqb s v | None => false end.

(** What a failed operation throws. *)
Inductive Error :=
| ApplicationNotFound                         (* 'Application not found' *)
| UniqueConstraint (table column : string)
| ForeignKeyConstraint (table column : string)
| MissingRequired (table column : string)
| RecordNotFound (table : string)
| TransactionFault                            (* timeout or lost connection *)
| ProcessingFailed (cause : Error)            (* 'Failed to process payment: ...' *)
| NoBillingInformation                        (* NotFoundException *)
| AlreadyCancelled                            (* 'Subscription is already cancelled' *)
| NotCancelled                                (* 'Subscription is not cancelled' *)
| StripeFailure.                              (* a call to the processor threw *)

(** [UPDATE ... WHERE hit]: every row selected by [hit] is rewritten.  The
    program selects by primary key or by a unique column, so at most one
    row is meant. *)
Definition update_where {R} (hit : R -> bool) (data : R -> R) (l : list R) : list R :=
  map (fun r => if hit r then data r else r) l.

Module Table.

(** *** tenants *)
Definition tenant_findFirst (db : DB) : option Tenant := hd_error (tenants db).

Definition tenant_create (t : Tenant) (db : DB) : Error + (Tenant * DB) :=
  if existsb (fun r => String.eqb (tenant_id r) (tenant_id t)) (tenants db)
  then inl (UniqueConstraint "tenants" "id")
  else inr (t, {| tenants := tenants db ++ [t]; users := users db;
                  profiles := profiles db; applications := applications db;
                  billings := billings db |}).

(** *** users *)
Definition user_findUnique_email (email : string) (db : DB) : option User :=
  find (fun u => String.eqb (user_email u) email) (users db).

Definition user_exists (id : string) (db : DB) : bool :=
  existsb (fun u => String.eqb (user_id u) id) (users db).

Definition user_create (u : User) (db : DB) : Error + (User * DB) :=
  if user_exists (user_id u) db
  then inl (UniqueConstraint "users" "id")
  else if existsb (fun r => String.eqb (user_email r) (user_email u)) (users db)
  then inl (UniqueConstraint "users" "email")
  else if negb (existsb (fun t => String.eqb (tenant_id t) (user_tenantId u)) (tenants db))
  then inl (ForeignKeyConstraint "users" "tenantId")
  else inr (u, {| tenants := tenants db; users := users db ++ [u];
                  profiles := profiles db; applications := applications db;
                  billings := billings db |}).

(** *** profiles *)
Definition profile_create (p : Profile) (db : DB) : Error + (Profile * DB) :=
  if existsb (fun r => String.eqb (profile_id r) (profile_id p)) (profiles db)
  then inl (UniqueConstraint "profiles" "id")
  else if existsb (fun r => String.eqb (profile_userId r) (profile_userId p)) (profiles db)
  then inl (UniqueConstraint "profiles" "userId")
  else if negb (user_exists (profile_userId p) db)
  then inl (ForeignKeyConstraint "profiles" "userId")
  else inr (p, {| tenants := tenants db; users := users db;
                  profiles := profiles db ++ [p]; applications := applications db;
                  billings := billings db |}).

(** *** applications *)
Definition application_findFirst_session (sessionId : string) (db : DB)
  : option Application :=
  find (fun a => col_is (app_stripeSessionId a) sessionId) (applications db).

Definition application_exists (id : string) (db : DB) : bool :=
  existsb (fun a => String.eqb (app_id a) id) (applications db).

(** [application.update({ where: { id }, data })]: when the data changes
    [userId], the new value must be unique among the other rows and point
    to a user. *)
Definition application_update (id : string) (data : Application -> Application)
    (db : DB) : Error + (Application * DB) :=
  match find (fun a => String.eqb (app_id a) id) (applications db) with
  | None => inl (RecordNotFound "applications")
  | Some old =>
      let new := data old in
      let written :=
        {| tenants := tenants db; users := users db; profiles := profiles db;
           applications :=
             update_where (fun a => String.eqb (app_id a) id) data (applications db);
           billings := billings db |} in
      match app_userId new with
      | Some uid =>
          if col_is (app_userId old) uid then inr (new, written)
          else if existsb (fun a => negb (String.eqb (app_id a) id)
                                    && col_is (app_userId a) uid)
                          (applications db)
          then inl (UniqueConstraint "applications" "userId")
          else if negb (user_exists uid db)
          then inl (ForeignKeyConstraint "applications" "userId")
          else inr (new, written)
      | None => inr (new, written)
      end
  end.

(** *** billing *)
Definition billing_findUnique_subscription (subscriptionId : string) (db : DB)
  : option Billing :=
  find (fun b => col_is (bill_stripeSubscriptionId b) subscriptionId) (billings db).

Definition billing_findUnique_user (userId : string) (db : DB) : option Billing :=
  find (fun b => String.eqb (bill_userId b) userId) (billings db).

Definition billing_create (b : Billing) (db : DB) : Error + (Billing * DB) :=
  if existsb (fun r => String.eqb (bill_id r) (bill_id b)) (billings db)
  then inl (UniqueConstraint "billing" "id")
  else if existsb (fun r => String.eqb (bill_userId r) (bill_userId b)) (billings db)
  then inl (UniqueConstraint "billing" "userId")
  else if existsb (fun r => String.eqb (bill_applicationId r) (bill_applicationId b))
                  (billings db)
  then inl (UniqueConstraint "billing" "applicationId")
  else if existsb (fun r => String.eqb (bill_stripeCustomerId r) (bill_stripeCustomerId b))
                  (billings db)
  then inl (UniqueConstraint "billing" "stripeCustomerId")
  else if match bill_stripeSubscriptionId b with
          | Some s => existsb (fun r => col_is (bill_stripeSubscriptionId r) s) (billings db)
          | None => false
          end
  then inl (UniqueConstraint "billing" "stripeSubscriptionId")
  else if negb (user_exists (bill_userId b) db)
  then inl (ForeignKeyConstraint "billing" "userId")
  else if negb (application_exists (bill_applicationId b) db)
  then inl (ForeignKeyConstraint "billing" "applicationId")
  else inr (b, {| tenants := tenants db; users := users db;
                  profiles := profiles db; applications := applications db;
                  billings := billings db ++ [b] |}).

(** [billing.update({ where, data })] for data that touches no unique
    column: the rows selected by [hit] are rewritten. *)
Definition billing_update (hit : Billing -> bool) (data : Billing -> Billing)
    (db : DB) : Error + (Billing * DB) :=
  match find hit (billings db) with
  | None => inl (RecordNotFound "billing")
  | Some old =>
      inr (data old, {| tenants := tenants db; users := users db;
                        profiles := profiles db; applications := applications db;
                        billings := update_where hit data (billings db) |})
  end.

End Table.

(** ** Transactions *)

(** The body of [prisma.$transaction(async (tx) => ...)] runs on a working
    copy of the store.  [tx_fault = Some n] injects an infrastructure
    failure (timeout, lost connection) at the statement after [n]
    successful ones; [None] injects none. *)
Record TxState := { tx_db : DB; tx_fault : option nat }.

Definition Tx (A : Type) : Type := TxState -> (Error + A) * TxState.

Definition ret {A} (a : A) : Tx A := fun st => (inr a, st).

Definition bind {A B} (m : Tx A) (k : A -> Tx B) : Tx B := fun st =>
  match m st with
  | (inr a, st') => k a st'
  | (inl e, st') => (inl e, st')
  end.

Definition throw {A} (e : Error) : Tx A := fun st => (inl e, st).

Declare Scope tx_scope.
Delimit Scope tx_scope with tx.
Notation "x <- m ;; k" := (bind m (fun x => k))
  (at level 61, m at next level, right associativity) : tx_scope.
Notation "m ;;; k" := (bind m (fun _ => k))
  (at level 61, right associativity) : tx_scope.

(** One statement sent through the transaction client. *)
Definition statement {A} (op : DB -> Error + (A * DB)) : Tx A := fun st =>
  match tx_fault st with
  | Some O => (inl TransactionFault, st)
  | f =>
      let f' := match f with Some (S n) => Some n | _ => None end in
      match op (tx_db st) with
      | inl e => (inl e, {| tx_db := tx_db st; tx_fault := f' |})
      | inr (a, db') => (inr a, {| tx_db := db'; tx_fault := f' |})
      end
  end.

Definition query {A} (q : DB -> A) : Tx A :=
  statement (fun db => inr (q db, db)).

(** [prisma.$transaction]: commit the working copy when the body returns,
    keep the store as it was when the body throws. *)
Definition transaction {A} (body : Tx A) (fault : option nat) (db : DB)
  : (Error + A) * DB :=
  match body {| tx_db := db; tx_fault := fault |} with
  | (inr a, st) => (inr a, tx_db st)
  | (inl e, _) => (inl e, db)
  end.

(** ** The payment processor's objects *)

(** A reference that Stripe delivers either as an identifier or as an
    expanded object. *)
Inductive StripeRef :=
| RefId (id : string)
| RefObject (id : option string)
| RefNull.

Record CheckoutSession := {
  session_id : string;
  session_customer : StripeRef;
  session_subscription : StripeRef;
  session_amount_total : option Z;
  session_payment_intent : option string }.

Record Subscription := {
  sub_id : string;
  sub_status : string;
  sub_cancel_at_period_end : bool }.

Record Invoice := {
  inv_id : string;
  inv_subscription : StripeRef }.

(** ** The account provisioner *)

(** What one invocation draws from outside the store: the random temporary
    password and its bcrypt hash, the identifiers the ORM generates for the
    rows it inserts, and the clock readings ([new Date()]) in program
    order. *)
Record Env := {
  env_tempPassword : string;
  env_hashedPassword : string;
  env_tenantId : string;
  env_userId : string;
  env_profileId : string;
  env_billingId : string;
  env_now_linked : Time;      (* processedAt, existing-user branch *)
  env_now_billing : Time;     (* const now = new Date()            *)
  env_now_calc : Time;        (* inside calculateNextBillingDate   *)
  env_now_processed : Time }. (* processedAt, new-user branch      *)

(** The object the function resolves to; an absent or null property is
    [None], an absent flag is [false]. *)
Record Outcome := {
  out_success : bool;
  out_alreadyProcessed : bool;
  out_userExists : bool;
  out_userId : option string;
  out_email : option string;
  out_tempPassword : option string;
  out_firstName : option string;
  out_lastName : option string }.

Definition outcome_alreadyProcessed (userId : option string) : Outcome :=
  {| out_success := true; out_alreadyProcessed := true; out_userExists := false;
     out_userId := userId; out_email := None; out_tempPassword := None;
     out_firstName := None; out_lastName := None |}.

Definition outcome_userExists (userId : string) : Outcome :=
  {| out_success := true; out_alreadyProcessed := false; out_userExists := true;
     out_userId := Some userId; out_email := None; out_tempPassword := None;
     out_firstName := None; out_lastName := None |}.

Definition outcome_created (userId email tempPassword firstName lastName : string)
  : Outcome :=
  {| out_success := true; out_alreadyProcessed := false; out_userExists := false;
     out_userId := Some userId; out_email := Some email;
     out_tempPassword := Some tempPassword;
     out_firstName := Some firstName; out_lastName := Some lastName |}.

(** [data: { userId, processed: true, processedAt, status: 'completed' }],
    with [tempPassword] when the branch stores one. *)
Definition link_application (userId : string) (processedAt : Time)
    (tempPassword : option string) (a : Application) : Application :=
  {| app_id := app_id a; app_email := app_email a;
     app_firstName := app_firstName a; app_lastName := app_lastName a;
     app_about := app_about a; app_purposes := app_purposes a;
     app_customDesign := app_customDesign a; app_paymentPlan := app_paymentPlan a;
     app_stripeSessionId := app_stripeSessionId a;
     app_status := "completed";
     app_userId := Some userId;
     app_processed := true;
     app_processedAt := Some processedAt;
     app_tempPassword :=
       match tempPassword with Some h => Some h | None => app_tempPassword a end |}.

Definition getDefaultTenant (env : Env) : Tx Tenant :=
  (tenant <- query Table.tenant_findFirst ;;
   match tenant with
   | Some t => ret t
   | None =>
       statement (Table.tenant_create
                    {| tenant_id := env_tenantId env;
                       tenant_name := "Default Tenant";
                       tenant_description := Some "Default tenant for new users" |})
   end)%tx.

(** [typeof customer === 'string' ? customer : customer?.id] *)
Definition customer_id (r : StripeRef) : option string :=
  match r with
  | RefId s => Some s
  | RefObject i => i
  | RefNull => None
  end.

(** [typeof subscription === 'string' ? subscription : subscription?.id || null] *)
Definition subscription_id_or_null (r : StripeRef) : option string :=
  match r with
  | RefId s => Some s
  | RefObject (Some i) => if String.eqb i "" then None else Some i
  | RefObject None => None
  | RefNull => None
  end.

Definition provisioning (env : Env) (sessionId : string)
    (stripeSession : CheckoutSession) : Tx Outcome :=
  (application <- query (Table.application_findFirst_session sessionId) ;;
   match application with
   | None => throw ApplicationNotFound
   | Some application =>
     if app_processed application then
       ret (outcome_alreadyProcessed (app_userId application))
     else
       existingUser <- query (Table.user_findUnique_email (app_email application)) ;;
       match existingUser with
       | Some existingUser =>
           statement (Table.application_update (app_id application)
                        (link_application (user_id existingUser)
                                          (env_now_linked env) None)) ;;;
           ret (outcome_userExists (user_id existingUser))
       | None =>
           tenant <- getDefaultTenant env ;;
           user <- statement (Table.user_create
                                {| user_id := env_userId env;
                                   user_email := app_email application;
                                   user_password := Some (env_hashedPassword env);
                                   user_provider := "email";
                                   user_tenantId := tenant_id tenant |}) ;;
           statement (Table.profile_create
                        {| profile_id := env_profileId env;
                           profile_userId := user_id user;
                           profile_firstName := Some (app_firstName application);
                           profile_lastName := Some (app_lastName application);
                           profile_bio := app_about application |}) ;;;
           let stripeCustomerId := customer_id (session_customer stripeSession) in
           let stripeSubscriptionId :=
             subscription_id_or_null (session_subscription stripeSession) in
           let isAnnual := String.eqb (app_paymentPlan application) "annual" in
           let billingDay := getDate (env_now_billing env) in
           let nextBillingDate :=
             calculateNextBillingDate (env_now_calc env) billingDay isAnnual in
           let amountInPence :=
             match session_amount_total stripeSession with
             | Some a => a
             | None => 0
             end in
           let setupFee := 6000 in
           let customDesignFee := if app_customDesign application then 9900 else 0 in
           let recurringAmount := if isAnnual then 23988 else 2499 in
           let initialAmount := setupFee + recurringAmount + customDesignFee in
           statement (fun db =>
             match stripeCustomerId with
             | None => inl (MissingRequired "billing" "stripeCustomerId")
             | Some customer =>
                 Table.billing_create
                   {| bill_id := env_billingId env;
                      bill_userId := user_id user;
                      bill_applicationId := app_id application;
                      bill_stripeCustomerId := customer;
                      bill_stripeSubscriptionId := stripeSubscriptionId;
                      bill_billingType := app_paymentPlan application;
                      bill_billingDay := Some billingDay;
                      bill_nextBillingDate := Some nextBillingDate;
                      bill_amount := amountInPence;
                      bill_initialAmount := Some initialAmount;
                      bill_recurringAmount := Some recurringAmount;
                      bill_setupFee := setupFee;
                      bill_customDesignFee :=
                        if 0 <? customDesignFee then Some customDesignFee else None;
                      bill_currency := "gbp";
                      bill_status := "active";
                      bill_cancelledAt := None |} db
             end) ;;;
           statement (Table.application_update (app_id application)
                        (link_application (user_id user) (env_now_processed env)
                                          (Some (env_hashedPassword env)))) ;;;
           ret (outcome_created (user_id user) (user_email user)
                                (env_tempPassword env)
                                (app_firstName application)
                                (app_lastName application))
       end
   end)%tx.

(** The whole function: the transaction inside [try], the [catch] that
    rethrows with the cause wrapped. *)
Definition processPaymentAndCreateUser (fault : option nat) (env : Env)
    (sessionId : string) (stripeSession : CheckoutSession) (db : DB)
  : (Error + Outcome) * DB :=
  match transaction (provisioning env sessionId stripeSession) fault db with
  | (inr result, db') => (inr result, db')
  | (inl error, db') => (inl (ProcessingFailed error), db')
  end.

(** ** The compensation handler *)

Record Refund := {
  refund_id : string;
  refund_amount : Z;
  refund_currency : string }.

(** The arguments of one [stripe.refunds.create] call. *)
Record RefundRequest := {
  rr_payment_intent : string;
  rr_sessionId : string }.

(** The store together with the outward effects the handlers have: the
    refund requests sent to the processor, the operator alerts and the
    notices mailed to customers, oldest first. *)
Record World := {
  w_db : DB;
  w_refunds : list RefundRequest;
  w_alerts : list string;
  w_notices : list string }.

Definition with_db (db : DB) (w : World) : World :=
  {| w_db := db; w_refunds := w_refunds w; w_alerts := w_alerts w;
     w_notices := w_notices w |}.

Definition request_refund (r : RefundRequest) (w : World) : World :=
  {| w_db := w_db w; w_refunds := w_refunds w ++ [r]; w_alerts := w_alerts w;
     w_notices := w_notices w |}.

(** [sendCriticalAlert]: it catches its own failures. *)
Definition sendCriticalAlert (additionalInfo : string) (w : World) : World :=
  {| w_db := w_db w; w_refunds := w_refunds w;
     w_alerts := w_alerts w ++ [additionalInfo]; w_notices := w_notices w |}.

Definition sendRefundNotification (email : string) (w : World) : World :=
  {| w_db := w_db w; w_refunds := w_refunds w; w_alerts := w_alerts w;
     w_notices := w_notices w ++ [email] |}.

Definition set_application_status (status : string) (a : Application) : Application :=
  {| app_id := app_id a; app_email := app_email a;
     app_firstName := app_firstName a; app_lastName := app_lastName a;
     app_about := app_about a; app_purposes := app_purposes a;
     app_customDesign := app_customDesign a; app_paymentPlan := app_paymentPlan a;
     app_stripeSessionId := app_stripeSessionId a;
     app_status := status;
     app_userId := app_userId a;
     app_processed := app_processed a;
     app_processedAt := app_processedAt a;
     app_tempPassword := app_tempPassword a |}.

(** A string used as a condition: null, undefined and the empty string are
    falsy. *)
Definition truthy (o : option string) : option string :=
  match o with
  | Some s => if String.eqb s "" then None else Some s
  | None => None
  end.

(** [handleFailedCheckout(session, error)].  [response] is what
    [stripe.refunds.create] answers when it is called: a refund, or [None]
    when the call throws.  The [error] argument only fills the texts of the
    refund metadata and of the messages, which are not kept here. *)
Definition handleFailedCheckout (response : option Refund)
    (session : CheckoutSession) (w : World) : World :=
  match truthy (session_payment_intent session) with
  | None => sendCriticalAlert "No payment intent" w
  | Some payment_intent =>
      let application :=
        Table.application_findFirst_session (session_id session) (w_db w) in
      if match application with
         | Some a => String.eqb (app_status a) "refunded"
         | None => false
         end
      then w
      else
        let w1 := request_refund {| rr_payment_intent := payment_intent;
                                    rr_sessionId := session_id session |} w in
        match response with
        | None => sendCriticalAlert "MANUAL REFUND REQUIRED" w1
        | Some refund =>
            match application with
            | Some a =>
                match Table.application_update (app_id a)
                        (set_application_status "refunded") (w_db w1) with
                | inr (_, db') =>
                    sendCriticalAlert "Refund issued"
                      (sendRefundNotification (app_email a) (with_db db' w1))
                | inl _ => sendCriticalAlert "MANUAL REFUND REQUIRED" w1
                end
            | None => sendCriticalAlert "Refund issued" w1
            end
        end
  end.

(** ** The subscription state synchronizer *)

Definition set_billing_status (status : string) (b : Billing) : Billing :=
  {| bill_id := bill_id b; bill_userId := bill_userId b;
     bill_applicationId := bill_applicationId b;
     bill_stripeCustomerId := bill_stripeCustomerId b;
     bill_stripeSubscriptionId := bill_stripeSubscriptionId b;
     bill_billingType := bill_billingType b;
     bill_billingDay := bill_billingDay b;
     bill_nextBillingDate := bill_nextBillingDate b;
     bill_amount := bill_amount b;
     bill_initialAmount := bill_initialAmount b;
     bill_recurringAmount := bill_recurringAmount b;
     bill_setupFee := bill_setupFee b;
     bill_customDesignFee := bill_customDesignFee b;
     bill_currency := bill_currency b;
     bill_status := status;
     bill_cancelledAt := bill_cancelledAt b |}.

Definition set_billing_cancelledAt (cancelledAt : option Time) (b : Billing) : Billing :=
  {| bill_id := bill_id b; bill_userId := bill_userId b;
     bill_applicationId := bill_applicationId b;
     bill_stripeCustomerId := bill_stripeCustomerId b;
     bill_stripeSubscriptionId := bill_stripeSubscriptionId b;
     bill_billingType := bill_billingType b;
     bill_billingDay := bill_billingDay b;
     bill_nextBillingDate := bill_nextBillingDate b;
     bill_amount := bill_amount b;
     bill_initialAmount := bill_initialAmount b;
     bill_recurringAmount := bill_recurringAmount b;
     bill_setupFee := bill_setupFee b;
     bill_customDesignFee := bill_customDesignFee b;
     bill_currency := bill_currency b;
     bill_status := bill_status b;
     bill_cancelledAt := cancelledAt |}.

Definition set_billing_nextBillingDate (next : option Time) (b : Billing) : Billing :=
  {| bill_id := bill_id b; bill_userId := bill_userId b;
     bill_applicationId := bill_applicationId b;
     bill_stripeCustomerId := bill_stripeCustomerId b;
     bill_stripeSubscriptionId := bill_stripeSubscriptionId b;
     bill_billingType := bill_billingType b;
     bill_billingDay := bill_billingDay b;
     bill_nextBillingDate := next;
     bill_amount := bill_amount b;
     bill_initialAmount := bill_initialAmount b;
     bill_recurringAmount := bill_recurringAmount b;
     bill_setupFee := bill_setupFee b;
     bill_customDesignFee := bill_customDesignFee b;
     bill_currency := bill_currency b;
     bill_status := bill_status b;
     bill_cancelledAt := bill_cancelledAt b |}.

(** [data: { status, cancelledAt }] *)
Definition data_status_cancelledAt (status : string) (cancelledAt : option Time)
    (b : Billing) : Billing :=
  set_billing_cancelledAt cancelledAt (set_billing_status status b).

(** [data: { status, nextBillingDate }] *)
Definition data_status_nextBillingDate (status : string) (next : option Time)
    (b : Billing) : Billing :=
  set_billing_nextBillingDate next (set_billing_status status b).

Definition has_id (billing : Billing) (b : Billing) : bool :=
  String.eqb (bill_id b) (bill_id billing).

(** Run an autocommitted write inside [try { ... } catch { log }]. *)
Definition attempt {A} (r : Error + (A * DB)) (db : DB) : DB :=
  match r with
  | inr (_, db') => db'
  | inl _ => db
  end.

(** The [status] and [cancelledAt] that [handleSubscriptionUpdated] writes,
    in the order of its conditional chain. *)
Definition subscription_update_data (now : Time) (subscription : Subscription)
    (billing : Billing) : string * option Time :=
  if sub_cancel_at_period_end subscription then
    ("cancelled",
     match bill_cancelledAt billing with
     | Some t => Some t
     | None => Some now
     end)
  else if String.eqb (sub_status subscription) "past_due" then
    ("past_due", bill_cancelledAt billing)
  else if String.eqb (sub_status subscription) "canceled"
          || String.eqb (sub_status subscription) "unpaid" then
    ("cancelled", Some now)
  else if String.eqb (sub_status subscription) "active" then
    ("active", None)
  else
    ("active", bill_cancelledAt billing).

Definition handleSubscriptionUpdated (now : Time) (subscription : Subscription)
    (db : DB) : DB :=
  match Table.billing_findUnique_subscription (sub_id subscription) db with
  | Some billing =>
      let (status, cancelledAt) := subscription_update_data now subscription billing in
      attempt (Table.billing_update (has_id billing)
                 (data_status_cancelledAt status cancelledAt) db) db
  | None => db
  end.

Definition handleSubscriptionDeleted (now : Time) (subscription : Subscription)
    (db : DB) : DB :=
  match Table.billing_findUnique_subscription (sub_id subscription) db with
  | Some billing =>
      attempt (Table.billing_update (has_id billing)
                 (data_status_cancelledAt "cancelled" (Some now)) db) db
  | None => db
  end.

(** [typeof subscription === 'string' ? subscription : subscription?.id],
    then used as a condition. *)
Definition invoice_subscription_id (invoice : Invoice) : option string :=
  truthy (customer_id (inv_subscription invoice)).

Definition handleInvoicePaymentSucceeded (now : Time) (invoice : Invoice)
    (db : DB) : DB :=
  match invoice_subscription_id invoice with
  | Some subscriptionId =>
      match Table.billing_findUnique_subscription subscriptionId db with
      | Some billing =>
          let nextBillingDate :=
            match bill_billingDay billing with
            | Some billingDay =>
                if billingDay =? 0 then None
                else Some (calculateNextBillingDate now billingDay false)
            | None => None
            end in
          attempt (Table.billing_update (has_id billing)
                     (data_status_nextBillingDate "active" nextBillingDate) db) db
      | None => db
      end
  | None => db
  end.

Definition handleInvoicePaymentFailed (invoice : Invoice) (db : DB) : DB :=
  match invoice_subscription_id invoice with
  | Some subscriptionId =>
      match Table.billing_findUnique_subscription subscriptionId db with
      | Some billing =>
          attempt (Table.billing_update (has_id billing)
                     (set_billing_status "past_due") db) db
      | None => db
      end
  | None => db
  end.

(** ** The billing service: cancel, reactivate, status query *)

Record CancelResult := {
  cr_success : bool;
  cr_accessUntil : option Time;
  cr_billing : Billing }.

(** [cancelSubscription(userId)].  [stripe_ok] tells whether the call to
    [stripe.subscriptions.update], when it is made, returns. *)
Definition cancelSubscription (now : Time) (stripe_ok : bool) (userId : string)
    (db : DB) : (Error + CancelResult) * DB :=
  match Table.billing_findUnique_user userId db with
  | None => (inl NoBillingInformation, db)
  | Some billing =>
      if String.eqb (bill_status billing) "cancelled" then (inl AlreadyCancelled, db)
      else if is_some (truthy (bill_stripeSubscriptionId billing)) && negb stripe_ok
      then (inl StripeFailure, db)
      else
        match Table.billing_update (fun b => String.eqb (bill_userId b) userId)
                (data_status_cancelledAt "cancelled" (Some now)) db with
        | inr (updatedBilling, db') =>
            (inr {| cr_success := true;
                    cr_accessUntil := bill_nextBillingDate billing;
                    cr_billing := updatedBilling |}, db')
        | inl e => (inl e, db)
        end
  end.

Definition reactivateSubscription (stripe_ok : bool) (userId : string) (db : DB)
  : (Error + Billing) * DB :=
  match Table.billing_findUnique_user userId db with
  | None => (inl NoBillingInformation, db)
  | Some billing =>
      if negb (String.eqb (bill_status billing) "cancelled") then (inl NotCancelled, db)
      else if is_some (truthy (bill_stripeSubscriptionId billing)) && negb stripe_ok
      then (inl StripeFailure, db)
      else
        match Table.billing_update (fun b => String.eqb (bill_userId b) userId)
                (data_status_cancelledAt "active" None) db with
        | inr (updatedBilling, db') => (inr updatedBilling, db')
        | inl e => (inl e, db)
        end
  end.

(** A JavaScript value that is a boolean or [null], as [a || (b && c && d)]
    yields when [c] may be null. *)
Inductive JsBool :=
| JsBoolean (b : bool)
| JsNull.

Definition js_truthy (v : JsBool) : bool :=
  match v with
  | JsBoolean b => b
  | JsNull => false
  end.

Record SubscriptionDetails := {
  ss_status : string;
  ss_type : string;
  ss_isActive : bool;
  ss_isCancelled : bool;
  ss_hasAccess : JsBool;
  ss_accessUntil : option Time;
  ss_canCancel : bool;
  ss_canReactivate : bool }.

Inductive SubscriptionStatus :=
| NoSubscription                       (* { hasSubscription: false, status: 'none' } *)
| HasSubscription (d : SubscriptionDetails).

(** [billing.status === 'active' ||
     (billing.status === 'cancelled' && billing.nextBillingDate &&
      new Date(billing.nextBillingDate) > new Date())] *)
Definition hasAccess (now : Time) (billing : Billing) : JsBool :=
  if String.eqb (bill_status billing) "active" then JsBoolean true
  else if negb (String.eqb (bill_status billing) "cancelled") then JsBoolean false
  else
    match bill_nextBillingDate billing with
    | None => JsNull
    | Some next => JsBoolean (now <? next)
    end.

Definition getSubscriptionStatus (now : Time) (userId : string) (db : DB)
  : SubscriptionStatus :=
  match Table.billing_findUnique_user userId db with
  | None => NoSubscription
  | Some billing =>
      let recurring := String.eqb (bill_billingType billing) "monthly"
                       || String.eqb (bill_billingType billing) "annual" in
      HasSubscription
        {| ss_status := bill_status billing;
           ss_type := bill_billingType billing;
           ss_isActive := String.eqb (bill_status billing) "active";
           ss_isCancelled := String.eqb (bill_status billing) "cancelled";
           ss_hasAccess := hasAccess now billing;
           ss_accessUntil :=
             if String.eqb (bill_status billing) "cancelled"
             then bill_nextBillingDate billing else None;
           ss_canCancel := recurring && String.eqb (bill_status billing) "active";
           ss_canReactivate := recurring && String.eqb (bill_status billing) "cancelled" |}
  end.

(** ** Redelivery, repeated compensation, and the operations on Billing *)

(** The same [checkout.session.completed] event delivered several times:
    each delivery calls [processPaymentAndCreateUser(session.id, session)]
    with its own fault and environment. *)
Fixpoint deliveries (session : CheckoutSession) (ds : list (option nat * Env))
    (db : DB) : list (Error + Outcome) * DB :=
  match ds with
  | [] => ([], db)
  | (fault, env) :: ds' =>
      let (r, db1) :=
        processPaymentAndCreateUser fault env (session_id session) session db in
      let (rs, db2) := deliveries session ds' db1 in
      (r :: rs, db2)
  end.

(** [handleFailedCheckout] invoked once per processor response. *)
Fixpoint compensations (responses : list (option Refund))
    (session : CheckoutSession) (w : World) : World :=
  match responses with
  | [] => w
  | response :: rest =>
      compensations rest session (handleFailedCheckout response session w)
  end.

(** [status == cancelled] implies [cancelledAt != null], on every row. *)
Definition billing_ok (b : Billing) : Prop :=
  bill_status b = "cancelled" -> bill_cancelledAt b <> None.

Definition billing_invariant (db : DB) : Prop := Forall billing_ok (billings db).

(** One step of any operation that creates or changes a Billing row. *)
Inductive billing_step : DB -> DB -> Prop :=
| step_provision fault env sessionId session db r db' :
    processPaymentAndCreateUser fault env sessionId session db = (r, db') ->
    billing_step db db'
| step_subscription_updated now subscription db :
    billing_step db (handleSubscriptionUpdated now subscription db)
| step_subscription_deleted now subscription db :
    billing_step db (handleSubscriptionDeleted now subscription db)
| step_invoice_paid now invoice db :
    billing_step db (handleInvoicePaymentSucceeded now invoice db)
| step_invoice_failed invoice db :
    billing_step db (handleInvoicePaymentFailed invoice db)
| step_cancel now stripe_ok userId db r db' :
    cancelSubscription now stripe_ok userId db = (r, db') ->
    billing_step db db'
| step_reactivate stripe_ok userId db r db' :
    reactivateSubscription stripe_ok userId db = (r, db') ->
    billing_step db db'.

Inductive billing_steps : DB -> DB -> Prop :=
| steps_nil db : billing_steps db db
| steps_cons db1 db2 db3 :
    billing_step db1 db2 -> billing_steps db2 db3 -> billing_steps db1 db3.

(** The Billing row that [handleSubscriptionUpdated] leaves for a
    subscription set to cancel at period end: [status] and [cancelledAt]
    are written, every other column is the old one. *)
Definition cancelled_at_period_end (now : Time) (b : Billing) : Billing :=
  {| bill_id := bill_id b; bill_userId := bill_userId b;
     bill_applicationId := bill_applicationId b;
     bill_stripeCustomerId := bill_stripeCustomerId b;
     bill_stripeSubscriptionId := bill_stripeSubscriptionId b;
     bill_billingType := bill_billingType b;
     bill_billingDay := bill_billingDay b;
     bill_nextBillingDate := bill_nextBillingDate b;
     bill_amount := bill_amount b;
     bill_initialAmount := bill_initialAmount b;
     bill_recurringAmount := bill_recurringAmount b;
     bill_setupFee := bill_setupFee b;
     bill_customDesignFee := bill_customDesignFee b;
     bill_currency := bill_currency b;
     bill_status := "cancelled";
     bill_cancelledAt :=
       match bill_cancelledAt b with
       | Some earlier => Some earlier
       | None => Some now
       end |}.

(** Primary keys. *)
Definition billing_keys (db : DB) : list string := map bill_id (billings db).

(** The store differs from another at most by one appended
    User/Profile/Billing triple (and the tenant and application rows). *)
Definition same_accounts (db db' : DB) : Prop :=
  users db' = users db /\ profiles db' = profiles db /\ billings db' = billings db.

Definition one_new_account (db db' : DB) : Prop :=
  exists u p b,
    users db' = users db ++ [u] /\
    profiles db' = profiles db ++ [p] /\
    billings db' = billings db ++ [b] /\
    profile_userId p = user_id u /\
    bill_userId b = user_id u.

(** ** Sample data *)

Module Sample.

Definition ada : Application :=
  {| app_id := "app_1"; app_email := "ada@example.com";
     app_firstName := "Ada"; app_lastName := "Byron"; app_about := None;
     app_purposes := "[]"; app_customDesign := false;
     app_paymentPlan := "annual"; app_stripeSessionId := Some "cs_1";
     app_status := "pending"; app_userId := None; app_processed := false;
     app_processedAt := None; app_tempPassword := None |}.

Definition db0 : DB :=
  {| tenants := []; users := []; profiles := []; applications := [ada];
     billings := [] |}.

Definition cs_1 : CheckoutSession :=
  {| session_id := "cs_1"; session_customer := RefId "cus_1";
     session_subscription := RefId "sub_1";
     session_amount_total := Some 29988;
     session_payment_intent := Some "pi_1" |}.

Definition env_at (t : Time) (n : string) : Env :=
  {| env_tempPassword := "s3cr3t!Pass" ++ n; env_hashedPassword := "$2b$10$hash" ++ n;
     env_tenantId := "ten_" ++ n; env_userId := "usr_" ++ n;
     env_profileId := "pro_" ++ n; env_billingId := "bil_" ++ n;
     env_now_linked := t; env_now_billing := t; env_now_calc := t;
     env_now_processed := t |}.

(** An invocation on 29 February 2024, 10:00, and one a minute later. *)
Definition env_leap : Env := env_at (at_time 2024 1 29 36000000) "1".
Definition env_later : Env := env_at (at_time 2024 1 29 36060000) "2".

(** The store after Ada's account was provisioned. *)
Definition db1 : DB :=
  snd (processPaymentAndCreateUser None env_leap "cs_1" cs_1 db0).

(** What that first call returned. *)
Definition ada_created : Outcome :=
  outcome_created "usr_1" "ada@example.com" "s3cr3t!Pass1" "Ada" "Byron".

(** Ada pays again: a second application with her e-mail address. *)
Definition ada_again : Application :=
  {| app_id := "app_2"; app_email := "ada@example.com";
     app_firstName := "Ada"; app_lastName := "Byron"; app_about := None;
     app_purposes := "[]"; app_customDesign := true;
     app_paymentPlan := "monthly"; app_stripeSessionId := Some "cs_2";
     app_status := "pending"; app_userId := None; app_processed := false;
     app_processedAt := None; app_tempPassword := None |}.

Definition db2 : DB :=
  {| tenants := tenants db1; users := users db1; profiles := profiles db1;
     applications := applications db1 ++ [ada_again];
     billings := billings db1 |}.

Definition cs_2 : CheckoutSession :=
  {| session_id := "cs_2"; session_customer := RefId "cus_2";
     session_subscription := RefId "sub_2";
     session_amount_total := Some 18399;
     session_payment_intent := Some "pi_2" |}.

(** Grace registered by hand; her first application is not linked yet. *)
Definition grace_user : User :=
  {| user_id := "usr_g"; user_email := "grace@example.com";
     user_password := Some "$2b$10$g"; user_provider := "email";
     user_tenantId := "ten_0" |}.

Definition grace : Application :=
  {| app_id := "app_g"; app_email := "grace@example.com";
     app_firstName := "Grace"; app_lastName := "Hopper"; app_about := None;
     app_purposes := "[]"; app_customDesign := false;
     app_paymentPlan := "monthly"; app_stripeSessionId := Some "cs_g";
     app_status := "pending"; app_userId := None; app_processed := false;
     app_processedAt := None; app_tempPassword := None |}.

Definition db_grace : DB :=
  {| tenants := [{| tenant_id := "ten_0"; tenant_name := "Default Tenant";
                    tenant_description := None |}];
     users := [grace_user]; profiles := []; applications := [grace];
     billings := [] |}.

Definition cs_g : CheckoutSession :=
  {| session_id := "cs_g"; session_customer := RefId "cus_g";
     session_subscription := RefId "sub_g";
     session_amount_total := Some 8499;
     session_payment_intent := Some "pi_g" |}.

(** A checkout session that carries no payment intent. *)
Definition cs_1_no_intent : CheckoutSession :=
  {| session_id := "cs_1"; session_customer := RefId "cus_1";
     session_subscription := RefId "sub_1";
     session_amount_total := Some 29988;
     session_payment_intent := None |}.

(** A session for which no application was stored. *)
Definition cs_unknown : CheckoutSession :=
  {| session_id := "cs_9"; session_customer := RefId "cus_9";
     session_subscription := RefId "sub_9";
     session_amount_total := Some 8499;
     session_payment_intent := Some "pi_9" |}.

Definition world0 : World :=
  {| w_db := db0; w_refunds := []; w_alerts := []; w_notices := [] |}.

Definition refund_1 : Refund :=
  {| refund_id := "re_1"; refund_amount := 29988; refund_currency := "gbp" |}.

(** An annual Billing row whose billing day is the 15th. *)
Definition annual_15 : Billing :=
  {| bill_id := "bil_a"; bill_userId := "usr_a"; bill_applicationId := "app_a";
     bill_stripeCustomerId := "cus_a"; bill_stripeSubscriptionId := Some "sub_a";
     bill_billingType := "annual"; bill_billingDay := Some 15;
     bill_nextBillingDate := Some (newDate 2025 0 15);
     bill_amount := 29988; bill_initialAmount := Some 29988;
     bill_recurringAmount := Some 23988; bill_setupFee := 6000;
     bill_customDesignFee := None; bill_currency := "gbp";
     bill_status := "active"; bill_cancelledAt := None |}.

Definition db_annual : DB :=
  {| tenants := []; users := []; profiles := []; applications := [];
     billings := [annual_15] |}.

Definition invoice_a : Invoice :=
  {| inv_id := "in_a"; inv_subscription := RefId "sub_a" |}.

(** The same row, cancelled on 1 December 2024. *)
Definition annual_15_cancelled : Billing :=
  data_status_cancelledAt "cancelled" (Some (newDate 2024 11 1)) annual_15.

Definition db_annual_cancelled : DB :=
  {| tenants := []; users := []; profiles := []; applications := [];
     billings := [annual_15_cancelled] |}.

Definition sub_a_cancelling : Subscription :=
  {| sub_id := "sub_a"; sub_status := "active"; sub_cancel_at_period_end := true |}.

Definition sub_a_unpaid : Subscription :=
  {| sub_id := "sub_a"; sub_status := "unpaid"; sub_cancel_at_period_end := false |}.

End Sample.

(** ** The remaining operations of the application service *)

(** *** [generateTemporaryPassword] *)

Definition charset : string :=
  "abcdefghijklmnopqrstuvwxyzABCDEFGHIJKLMNOPQRSTUVWXYZ0123456789!@#$%^&*".

(** [charset[byte % charset.length]] *)
Definition password_char (byte : Z) : Ascii.ascii :=
  match String.get (Z.to_nat (byte mod Z.of_nat (String.length charset))) charset with
  | Some c => c
  | None => Ascii.zero
  end.

(** The loop over the twelve bytes of [crypto.randomBytes(length)]. *)
Definition generateTemporaryPassword (randomBytes : list Z) : string :=
  string_of_list_ascii (map password_char (firstn 12 randomBytes)).


(** *** [getDefaultTenant] seen from outside a transaction *)

Definition default_tenant (env : Env) : Tenant :=
  {| tenant_id := env_tenantId env;
     tenant_name := "Default Tenant";
     tenant_description := Some "Default tenant for new users" |}.

(** *** [createCheckoutSession] *)

(** The request body; [dto_purposes] is the text that
    [JSON.stringify(createDto.purposes)] gives. *)
Record CreateCheckoutSessionDto := {
  dto_email : string;
  dto_firstName : string;
  dto_lastName : string;
  dto_about : option string;
  dto_purposes : string;
  dto_customDesign : bool;
  dto_paymentPlan : string }.

(** A line item: amount in pence, quantity, and the interval of a
    recurring price. *)
Record LineItem := {
  li_name : string;
  li_unit_amount : Z;
  li_interval : option string;
  li_quantity : Z }.

Definition lineItems (createDto : CreateCheckoutSessionDto) : list LineItem :=
  [{| li_name := "Website Setup Fee"; li_unit_amount := 6000;
      li_interval := None; li_quantity := 1 |}]
  ++ (if dto_customDesign createDto
      then [{| li_name := "Custom Design Service"; li_unit_amount := 9900;
               li_interval := None; li_quantity := 1 |}]
      else [])
  ++ [if String.eqb (dto_paymentPlan createDto) "monthly"
      then {| li_name := "Monthly Subscription"; li_unit_amount := 2499;
              li_interval := Some "month"; li_quantity := 1 |}
      else {| li_name := "Annual Subscription"; li_unit_amount := 23988;
              li_interval := Some "year"; li_quantity := 1 |}].

(** What the first payment of a checkout amounts to, in pence. *)
Definition checkout_total (items : list LineItem) : Z :=
  fold_right (fun i acc => li_unit_amount i * li_quantity i + acc) 0 items.

(** [{ sessionId: session.id, url: session.url }] *)
Record CheckoutHandle := {
  ch_sessionId : string;
  ch_url : option string }.

(** [application.create({ data })]: a new row with the column defaults. *)
Definition application_create (a : Application) (db : DB) : Error + (Application * DB) :=
  if Table.application_exists (app_id a) db
  then inl (UniqueConstraint "applications" "id")
  else inr (a, {| tenants := tenants db; users := users db; profiles := profiles db;
                  applications := applications db ++ [a];
                  billings := billings db |}).

Definition new_application (applicationId : string)
    (createDto : CreateCheckoutSessionDto) : Application :=
  {| app_id := applicationId; app_email := dto_email createDto;
     app_firstName := dto_firstName createDto;
     app_lastName := dto_lastName createDto;
     app_about := dto_about createDto;
     app_purposes := dto_purposes createDto;
     app_customDesign := dto_customDesign createDto;
     app_paymentPlan := dto_paymentPlan createDto;
     app_stripeSessionId := None;
     app_status := "pending";
     app_userId := None;
     app_processed := false;
     app_processedAt := None;
     app_tempPassword := None |}.

(** [data: { stripeSessionId: session.id }] *)
Definition set_application_session (sessionId : string) (a : Application) : Application :=
  {| app_id := app_id a; app_email := app_email a;
     app_firstName := app_firstName a; app_lastName := app_lastName a;
     app_about := app_about a; app_purposes := app_purposes a;
     app_customDesign := app_customDesign a; app_paymentPlan := app_paymentPlan a;
     app_stripeSessionId := Some sessionId;
     app_status := app_status a;
     app_userId := app_userId a;
     app_processed := app_processed a;
     app_processedAt := app_processedAt a;
     app_tempPassword := app_tempPassword a |}.

(** [createCheckoutSession(createDto)].  [applicationId] is the identifier
    the ORM generates; [stripe] is what [stripe.checkout.sessions.create]
    answers: a session, or [None] when the call throws.  The three
    statements are autocommitted, there is no [try]. *)
Definition createCheckoutSession (applicationId : string)
    (stripe : option CheckoutHandle) (createDto : CreateCheckoutSessionDto)
    (db : DB) : (Error + CheckoutHandle) * DB :=
  match application_create (new_application applicationId createDto) db with
  | inl e => (inl e, db)
  | inr (application, db1) =>
      match stripe with
      | None => (inl StripeFailure, db1)
      | Some session =>
          match Table.application_update (app_id application)
                  (set_application_session (ch_sessionId session)) db1 with
          | inl e => (inl e, db1)
          | inr (_, db2) => (inr session, db2)
          end
      end
  end.

(** *** [verifyPayment] *)

(** ['Failed to verify payment: ...'], with what was caught. *)
Inductive VerifyError :=
| VerifyFailed (cause : Error).

Record Credentials := {
  cred_email : option string;
  cred_tempPassword : option string }.

Inductive Verification :=
| PaymentNotCompleted        (* { verified: false, message: 'Payment not completed' } *)
| ApplicationMissing         (* { verified: true, message: '... application not found' } *)
| VerifiedAlreadyProcessed (application : Application)
| VerifiedUserCreated (application : Application) (userId : option string)
                      (credentials : option Credentials).

(** [verifyPayment(sessionId)].  [retrieved] is what
    [stripe.checkout.sessions.retrieve] answers: the payment status with
    the session, or [None] when the call throws. *)
Definition verifyPayment (fault : option nat) (env : Env)
    (retrieved : option (string * CheckoutSession)) (sessionId : string) (db : DB)
  : (VerifyError + Verification) * DB :=
  match retrieved with
  | None => (inl (VerifyFailed StripeFailure), db)
  | Some (payment_status, session) =>
      if negb (String.eqb payment_status "paid") then (inr PaymentNotCompleted, db)
      else
        match Table.application_findFirst_session sessionId db with
        | None => (inr ApplicationMissing, db)
        | Some application =>
            if app_processed application
            then (inr (VerifiedAlreadyProcessed application), db)
            else
              match processPaymentAndCreateUser fault env sessionId session db with
              | (inr userCreationResult, db') =>
                  (inr (VerifiedUserCreated application
                          (out_userId userCreationResult)
                          (if out_userExists userCreationResult then None
                           else Some {| cred_email := out_email userCreationResult;
                                        cred_tempPassword :=
                                          out_tempPassword userCreationResult |})),
                   db')
              | (inl error, db') => (inl (VerifyFailed error), db')
              end
        end
  end.

(** *** [handleCheckoutSessionCompleted] and [handleStripeWebhook] *)

(** The messages handed to the e-mail service; the sending functions
    return a success flag and never throw. *)
Inductive Mail :=
| PaymentReceipt (email : option string) (transactionId : string)
| WelcomeEmail (email : option string) (tempPassword : option string).

Record Site := {
  site_world : World;
  site_mails : list Mail }.

Definition on_db (f : DB -> DB) (s : Site) : Site :=
  {| site_world := with_db (f (w_db (site_world s))) (site_world s);
     site_mails := site_mails s |}.

(** [include: { billing: true }] *)
Definition billing_of_application (applicationId : string) (db : DB) : option Billing :=
  find (fun b => String.eqb (bill_applicationId b) applicationId) (billings db).

(** [handleCheckoutSessionCompleted(session)].  [fault] and [env] are those
    of the provisioning call, [response] is the processor's answer to the
    refund request in case the handler compensates.  The lookup of the
    Application with its Billing row for the receipt, which follows a
    successful provisioning outside the transaction, is taken to succeed. *)
Definition handleCheckoutSessionCompleted (fault : option nat) (env : Env)
    (response : option Refund) (session : CheckoutSession) (s : Site) : Site :=
  match processPaymentAndCreateUser fault env (session_id session) session
          (w_db (site_world s)) with
  | (inr result, db') =>
      let world := with_db db' (site_world s) in
      if out_success result && negb (out_alreadyProcessed result)
         && negb (out_userExists result) && is_some (truthy (out_tempPassword result))
      then
        let application := Table.application_findFirst_session (session_id session) db' in
        let receipt :=
          match application with
          | Some a =>
              match billing_of_application (app_id a) db' with
              | Some _ => [PaymentReceipt (out_email result) (session_id session)]
              | None => []
              end
          | None => []
          end in
        {| site_world := world;
           site_mails := site_mails s ++ receipt
                         ++ [WelcomeEmail (out_email result) (out_tempPassword result)] |}
      else {| site_world := world; site_mails := site_mails s |}
  | (inl error, db') =>
      {| site_world := handleFailedCheckout response session (with_db db' (site_world s));
         site_mails := site_mails s |}
  end.

Inductive StripeEvent :=
| CheckoutSessionCompleted (session : CheckoutSession)
| CustomerSubscriptionUpdated (subscription : Subscription)
| CustomerSubscriptionDeleted (subscription : Subscription)
| InvoicePaymentSucceeded (invoice : Invoice)
| InvoicePaymentFailed (invoice : Invoice)
| UnhandledEvent (type : string).

Definition event_type (event : StripeEvent) : string :=
  match event with
  | CheckoutSessionCompleted _ => "checkout.session.completed"
  | CustomerSubscriptionUpdated _ => "customer.subscription.updated"
  | CustomerSubscriptionDeleted _ => "customer.subscription.deleted"
  | InvoicePaymentSucceeded _ => "invoice.payment_succeeded"
  | InvoicePaymentFailed _ => "invoice.payment_failed"
  | UnhandledEvent type => type
  end.

(** What the handling of one event draws from outside. *)
Record Delivery := {
  dl_fault : option nat;
  dl_env : Env;
  dl_refund : option Refund;
  dl_now : Time }.

Inductive WebhookError :=
| SecretNotConfigured        (* 'Webhook secret not configured' *)
| SignatureRejected.         (* 'Webhook Error: ...' *)

(** [handleStripeWebhook(signature, rawBody)].  [secret] tells whether
    STRIPE_WEBHOOK_SECRET is set, [constructed] is what
    [stripe.webhooks.constructEvent] gives: the event, or [None] when the
    signature check throws.  The result is the [eventType] acknowledged. *)
Definition handleStripeWebhook (secret : bool) (constructed : option StripeEvent)
    (d : Delivery) (s : Site) : (WebhookError + string) * Site :=
  if negb secret then (inl SecretNotConfigured, s)
  else
    match constructed with
    | None => (inl SignatureRejected, s)
    | Some event =>
        let s' :=
          match event with
          | CheckoutSessionCompleted session =>
              handleCheckoutSessionCompleted (dl_fault d) (dl_env d) (dl_refund d) session s
          | CustomerSubscriptionUpdated subscription =>
              on_db (handleSubscriptionUpdated (dl_now d) subscription) s
          | CustomerSubscriptionDeleted subscription =>
              on_db (handleSubscriptionDeleted (dl_now d) subscription) s
          | InvoicePaymentSucceeded invoice =>
              on_db (handleInvoicePaymentSucceeded (dl_now d) invoice) s
          | InvoicePaymentFailed invoice =>
              on_db (handleInvoicePaymentFailed invoice) s
          | UnhandledEvent _ => s
          end in
        (inr (event_type event), s')
    end.

(** The same [checkout.session.completed] event handled several times. *)
Fixpoint webhook_deliveries (ds : list (option nat * Env * option Refund))
    (session : CheckoutSession) (s : Site) : Site :=
  match ds with
  | [] => s
  | (fault, env, response) :: rest =>
      webhook_deliveries rest session
        (handleCheckoutSessionCompleted fault env response session s)
  end.

Definition is_welcome (m : Mail) : bool :=
  match m with
  | WelcomeEmail _ _ => true
  | PaymentReceipt _ _ => false
  end.

(** ** The remaining operations of the billing service *)

Definition SETUP_FEE : Money := 6000.
Definition MONTHLY_PRICE : Money := 2499.
Definition ANNUAL_PRICE : Money := 23988.
Definition CUSTOM_DESIGN_FEE : Money := 9900.

Record Pricing := {
  pr_setupFee : Money;
  pr_customDesignFee : Money;
  pr_recurringAmount : Money;
  pr_initialAmount : Money }.

Definition calculatePricing (billingType : string) (includeCustomDesign : bool) : Pricing :=
  let setupFee := SETUP_FEE in
  let customDesignFee := if includeCustomDesign then CUSTOM_DESIGN_FEE else 0 in
  if String.eqb billingType "monthly" then
    {| pr_setupFee := setupFee; pr_customDesignFee := customDesignFee;
       pr_recurringAmount := MONTHLY_PRICE;
       pr_initialAmount := setupFee + MONTHLY_PRICE + customDesignFee |}
  else
    {| pr_setupFee := setupFee; pr_customDesignFee := customDesignFee;
       pr_recurringAmount := ANNUAL_PRICE;
       pr_initialAmount := setupFee + ANNUAL_PRICE + customDesignFee |}.

(** [amount || fallback] on a nullable number: null and zero are falsy. *)
Definition or_else (amount : option Money) (fallback : Money) : Money :=
  match amount with
  | Some a => if a =? 0 then fallback else a
  | None => fallback
  end.

Record BillingInfo := {
  bi_id : string;
  bi_billingType : string;
  bi_initialAmount : Money;
  bi_recurringAmount : Money;
  bi_setupFee : Money;
  bi_customDesignFee : Money;
  bi_currency : string;
  bi_status : string;
  bi_nextBillingDate : option Time;
  bi_billingDay : option Z;
  bi_cancelledAt : option Time;
  bi_customerEmail : string;
  bi_paymentPlan : string;
  bi_customerName : string }.

Inductive BillingInfoError :=
| NoBillingInformationFound   (* NotFoundException *)
| RelationMissing.            (* reading a property of a null relation *)

(** [getBillingInfo(userId)] with its two included relations; the
    [createdAt] columns it also returns are not kept here. *)
Definition getBillingInfo (userId : string) (db : DB) : BillingInfoError + BillingInfo :=
  match Table.billing_findUnique_user userId db with
  | None => inl NoBillingInformationFound
  | Some billing =>
      match find (fun u => String.eqb (user_id u) (bill_userId billing)) (users db),
            find (fun a => String.eqb (app_id a) (bill_applicationId billing))
                 (applications db) with
      | Some user, Some application =>
          let setupFee := or_else (Some (bill_setupFee billing)) SETUP_FEE in
          let customDesignFee := or_else (bill_customDesignFee billing) 0 in
          let amounts :=
            if String.eqb (bill_billingType billing) "monthly" then
              (setupFee + MONTHLY_PRICE + customDesignFee, MONTHLY_PRICE)
            else if String.eqb (bill_billingType billing) "annual" then
              (setupFee + ANNUAL_PRICE + customDesignFee, ANNUAL_PRICE)
            else
              (or_else (bill_initialAmount billing) (bill_amount billing),
               or_else (bill_recurringAmount billing) 0) in
          inr {| bi_id := bill_id billing;
                 bi_billingType := bill_billingType billing;
                 bi_initialAmount := fst amounts;
                 bi_recurringAmount := snd amounts;
                 bi_setupFee := setupFee;
                 bi_customDesignFee := customDesignFee;
                 bi_currency := bill_currency billing;
                 bi_status := bill_status billing;
                 bi_nextBillingDate := bill_nextBillingDate billing;
                 bi_billingDay := bill_billingDay billing;
                 bi_cancelledAt := bill_cancelledAt billing;
                 bi_customerEmail := user_email user;
                 bi_paymentPlan := app_paymentPlan application;
                 bi_customerName :=
                   app_firstName application ++ " " ++ app_lastName application |}
      | _, _ => inl RelationMissing
      end
  end.

(** The [nextBillingDate] that [handleInvoicePaymentSucceeded] writes. *)
Definition renewal_date (now : Time) (billing : Billing) : option Time :=
  match bill_billingDay billing with
  | Some billingDay =>
      if billingDay =? 0 then None
      else Some (calculateNextBillingDate now billingDay false)
  | None => None
  end.

(** ** Conditions on the store *)

(** The columns of a Billing row that the subscription state synchronizer
    and the cancel and reactivate actions never write. *)
Definition billing_fixed_part (b : Billing) : Billing :=
  set_billing_nextBillingDate None
    (set_billing_cancelledAt None (set_billing_status "" b)).

(** Every Billing row and every Profile row points to a stored User, and
    every Billing row to a stored Application. *)
Definition references_ok (db : DB) : Prop :=
  Forall (fun b => Table.user_exists (bill_userId b) db = true /\
                   Table.application_exists (bill_applicationId b) db = true)
         (billings db) /\
  Forall (fun p => Table.user_exists (profile_userId p) db = true) (profiles db).

(** No two users share an e-mail address. *)
Definition emails_unique (db : DB) : Prop := NoDup (map user_email (users db)).

(** What makes the new-account branch of the provisioner go through: the
    generated identifiers are unused, and the processor's customer and
    subscription are not attached to a Billing row yet. *)
Definition provisionable (env : Env) (session : CheckoutSession)
    (application : Application) (db : DB) : bool :=
  negb (app_processed application)
  && negb (is_some (Table.user_findUnique_email (app_email application) db))
  && negb (Table.user_exists (env_userId env) db)
  && negb (existsb (fun p => String.eqb (profile_id p) (env_profileId env)
                             || String.eqb (profile_userId p) (env_userId env))
                   (profiles db))
  && negb (existsb (fun a => col_is (app_userId a) (env_userId env)) (applications db))
  && match customer_id (session_customer session) with
     | None => false
     | Some customer =>
         negb (existsb (fun b =>
                 String.eqb (bill_id b) (env_billingId env)
                 || String.eqb (bill_userId b) (env_userId env)
                 || String.eqb (bill_applicationId b) (app_id application)
                 || String.eqb (bill_stripeCustomerId b) customer
                 || match subscription_id_or_null (session_subscription session) with
                    | Some s => col_is (bill_stripeSubscriptionId b) s
                    | None => false
                    end)
               (billings db))
     end.

(** The rows the new-account branch writes. *)
Definition provisioned_user (env : Env) (application : Application) (db : DB) : User :=
  {| user_id := env_userId env;
     user_email := app_email application;
     user_password := Some (env_hashedPassword env);
     user_provider := "email";
     user_tenantId :=
       match Table.tenant_findFirst db with
       | Some t => tenant_id t
       | None => env_tenantId env
       end |}.

Definition provisioned_profile (env : Env) (application : Application) : Profile :=
  {| profile_id := env_profileId env;
     profile_userId := env_userId env;
     profile_firstName := Some (app_firstName application);
     profile_lastName := Some (app_lastName application);
     profile_bio := app_about application |}.

(** Two stores that differ at most in the [status], [cancelledAt] and
    [nextBillingDate] of Billing rows. *)
Definition same_but_billing_state (db db' : DB) : Prop :=
  tenants db' = tenants db /\ users db' = users db /\
  profiles db' = profiles db /\ applications db' = applications db /\
  map billing_fixed_part (billings db') = map billing_fixed_part (billings db).

(** The Billing row the new-account branch inserts. *)
Definition provisioned_billing (env : Env) (session : CheckoutSession)
    (application : Application) (customer : string) : Billing :=
  let isAnnual := String.eqb (app_paymentPlan application) "annual" in
  let billingDay := getDate (env_now_billing env) in
  let customDesignFee := if app_customDesign application then 9900 else 0 in
  let recurringAmount := if isAnnual then 23988 else 2499 in
  {| bill_id := env_billingId env;
     bill_userId := env_userId env;
     bill_applicationId := app_id application;
     bill_stripeCustomerId := customer;
     bill_stripeSubscriptionId :=
       subscription_id_or_null (session_subscription session);
     bill_billingType := app_paymentPlan application;
     bill_billingDay := Some billingDay;
     bill_nextBillingDate :=
       Some (calculateNextBillingDate (env_now_calc env) billingDay isAnnual);
     bill_amount := match session_amount_total session with
                    | Some a => a
                    | None => 0
                    end;
     bill_initialAmount := Some (6000 + recurringAmount + customDesignFee);
     bill_recurringAmount := Some recurringAmount;
     bill_setupFee := 6000;
     bill_customDesignFee :=
       if 0 <? customDesignFee then Some customDesignFee else None;
     bill_currency := "gbp";
     bill_status := "active";
     bill_cancelledAt := None |}.

(** The store after the new-account branch has run. *)
Definition provisioned_store (env : Env) (session : CheckoutSession)
    (application : Application) (customer : string) (db : DB) : DB :=
  {| tenants := match tenants db with
                | [] => [default_tenant env]
                | _ :: _ => tenants db
                end;
     users := users db ++ [provisioned_user env application db];
     profiles := profiles db ++ [provisioned_profile env application];
     applications :=
       update_where (fun a => String.eqb (app_id a) (app_id application))
         (link_application (env_userId env) (env_now_processed env)
            (Some (env_hashedPassword env)))
         (applications db);
     billings := billings db ++ [provisioned_billing env session application customer] |}.

(** ** More sample data *)

Module Scenario.

Definition dto_grace : CreateCheckoutSessionDto :=
  {| dto_email := "grace@example.com"; dto_firstName := "Grace";
     dto_lastName := "Hopper"; dto_about := None; dto_purposes := "[]";
     dto_customDesign := true; dto_paymentPlan := "monthly" |}.

Definition handle_7 : CheckoutHandle :=
  {| ch_sessionId := "cs_7"; ch_url := Some "https://checkout.stripe.com/c/pay/cs_7" |}.

Definition empty_db : DB :=
  {| tenants := []; users := []; profiles := []; applications := []; billings := [] |}.

Definition cs_7 : CheckoutSession :=
  {| session_id := "cs_7"; session_customer := RefId "cus_7";
     session_subscription := RefId "sub_7";
     session_amount_total := Some 18399;
     session_payment_intent := Some "pi_7" |}.

Definition site0 : Site := {| site_world := Sample.world0; site_mails := [] |}.


(** A monthly row with billing day 31, active. *)
Definition monthly_31 : Billing :=
  {| bill_id := "bil_m"; bill_userId := "usr_m"; bill_applicationId := "app_m";
     bill_stripeCustomerId := "cus_m"; bill_stripeSubscriptionId := Some "sub_m";
     bill_billingType := "monthly"; bill_billingDay := Some 31;
     bill_nextBillingDate := Some (newDate 2025 0 31);
     bill_amount := 8499; bill_initialAmount := Some 8499;
     bill_recurringAmount := Some 2499; bill_setupFee := 6000;
     bill_customDesignFee := None; bill_currency := "gbp";
     bill_status := "active"; bill_cancelledAt := None |}.

Definition db_monthly : DB :=
  {| tenants := []; users := []; profiles := []; applications := [];
     billings := [Sample.annual_15; monthly_31] |}.

Definition invoice_m : Invoice :=
  {| inv_id := "in_m"; inv_subscription := RefId "sub_m" |}.

(** The monthly row, cancelled on 1 December 2024. *)
Definition monthly_31_cancelled : Billing :=
  data_status_cancelledAt "cancelled" (Some (newDate 2024 11 1)) monthly_31.

Definition db_monthly_cancelled : DB :=
  {| tenants := []; users := []; profiles := []; applications := [];
     billings := [monthly_31_cancelled] |}.

Definition sub_m (status : string) (cancel_at_period_end : bool) : Subscription :=
  {| sub_id := "sub_m"; sub_status := status;
     sub_cancel_at_period_end := cancel_at_period_end |}.

End Scenario.

(** * Proofs *)

(** ** Lists, lookups and updates *)

Lemma col_is_true c v : col_is c v = true <-> c = Some v.
Proof.
  destruct c as [s|]; simpl.
  - rewrite String.eqb_eq. split; congruence.
  - split; discriminate.
Qed.

Lemma update_where_length {R} (hit : R -> bool) data (l : list R) :
  List.length (update_where hit data l) = List.length l.
Proof. unfold update_where. apply length_map. Qed.

(** Looking up by a column the update does not touch finds the updated
    row, when the update selects the row that the lookup finds. *)
Lemma find_update_where {R} (sel hit : R -> bool) (data : R -> R) (l : list R) r :
  (forall x, sel (data x) = sel x) ->
  find sel l = Some r ->
  hit r = true ->
  find sel (update_where hit data l) = Some (data r).
Proof.
  intros Hsel. induction l as [|x l IH]; simpl; intros Hfind Hhit.
  - discriminate.
  - destruct (sel x) eqn:Hx.
    + inversion Hfind; subst x. rewrite Hhit, Hsel, Hx. reflexivity.
    + destruct (hit x).
      * rewrite Hsel, Hx. auto.
      * rewrite Hx. auto.
Qed.

Lemma find_some_in {R} (sel : R -> bool) (l : list R) r :
  find sel l = Some r -> In r l /\ sel r = true.
Proof. apply find_some. Qed.

Lemma existsb_of_find {R} (sel : R -> bool) (l : list R) r :
  find sel l = Some r -> existsb sel l = true.
Proof.
  intros H. apply find_some in H as [Hin Hs]. apply existsb_exists. eauto.
Qed.

(** With unique keys, an update by key rewrites exactly the row found. *)
Lemma update_where_unique {R} (key : R -> string) (data : R -> R) (l : list R) r :
  NoDup (map key l) ->
  In r l ->
  exists l1 l2,
    l = l1 ++ r :: l2 /\
    update_where (fun x => String.eqb (key x) (key r)) data l = l1 ++ data r :: l2.
Proof.
  induction l as [|x l IH]; simpl; intros Hnd Hin; [contradiction|].
  inversion Hnd as [|? ? Hnotin Hnd']; subst.
  destruct Hin as [->|Hin].
  - exists [], l. split; [reflexivity|]. simpl. rewrite String.eqb_refl. f_equal.
    unfold update_where. rewrite <- (map_id l) at 2. apply map_ext_in.
    intros y Hy. destruct (String.eqb (key y) (key r)) eqn:E; [|reflexivity].
    apply String.eqb_eq in E. exfalso. apply Hnotin. rewrite <- E.
    apply in_map. exact Hy.
  - destruct (IH Hnd' Hin) as (l1 & l2 & -> & Hupd).
    exists (x :: l1), l2. split; [reflexivity|]. simpl.
    destruct (String.eqb (key x) (key r)) eqn:E.
    + apply String.eqb_eq in E. exfalso. apply Hnotin. rewrite E.
      apply in_map. apply in_or_app. right. left. reflexivity.
    + f_equal. exact Hupd.
Qed.

(** ** Inversion of the transaction monad *)

Lemma bind_inr {A B} (m : Tx A) (k : A -> Tx B) st b st' :
  bind m k st = (inr b, st') ->
  exists a st1, m st = (inr a, st1) /\ k a st1 = (inr b, st').
Proof.
  unfold bind. destruct (m st) as [[e|a] st1]; intros H; [discriminate|eauto].
Qed.

Lemma statement_inr {A} (op : DB -> Error + (A * DB)) st a st' :
  statement op st = (inr a, st') -> op (tx_db st) = inr (a, tx_db st').
Proof.
  unfold statement.
  destruct (tx_fault st) as [[|n]|]; try discriminate;
    destruct (op (tx_db st)) as [e|[a' db']]; intros H; inversion H; reflexivity.
Qed.

Lemma query_inr {A} (q : DB -> A) st a st' :
  query q st = (inr a, st') -> a = q (tx_db st) /\ tx_db st' = tx_db st.
Proof.
  intros H. apply statement_inr in H. inversion H. auto.
Qed.

Lemma ret_inr {A} (a b : A) st st' : ret a st = (inr b, st') -> b = a /\ st' = st.
Proof. unfold ret. intros H. inversion H. auto. Qed.

Lemma statement_no_fault {A} (op : DB -> Error + (A * DB)) db :
  statement op {| tx_db := db; tx_fault := None |} =
  match op db with
  | inl e => (inl e, {| tx_db := db; tx_fault := None |})
  | inr (a, db') => (inr a, {| tx_db := db'; tx_fault := None |})
  end.
Proof. reflexivity. Qed.

(** A failed body leaves the committed store alone, a successful one
    commits its working copy. *)
Lemma transaction_inl {A} (body : Tx A) fault db e db' :
  transaction body fault db = (inl e, db') -> db' = db.
Proof.
  unfold transaction.
  destruct (body _) as [[e'|a] st]; intros H; inversion H; reflexivity.
Qed.

Lemma transaction_inr {A} (body : Tx A) fault db a db' :
  transaction body fault db = (inr a, db') ->
  exists st', body {| tx_db := db; tx_fault := fault |} = (inr a, st') /\ db' = tx_db st'.
Proof.
  unfold transaction.
  destruct (body _) as [[e'|a'] st] eqn:E; intros H; inversion H; subst. eauto.
Qed.

(** ** What the table operations write *)

Lemma tenant_create_inr t db t' db' :
  Table.tenant_create t db = inr (t', db') ->
  t' = t /\ tenants db' = tenants db ++ [t] /\ users db' = users db /\
  profiles db' = profiles db /\ applications db' = applications db /\
  billings db' = billings db.
Proof.
  unfold Table.tenant_create. destruct (existsb _ _); intros H; inversion H; subst.
  simpl. auto 6.
Qed.

Lemma user_create_inr u db u' db' :
  Table.user_create u db = inr (u', db') ->
  u' = u /\ tenants db' = tenants db /\ users db' = users db ++ [u] /\
  profiles db' = profiles db /\ applications db' = applications db /\
  billings db' = billings db.
Proof.
  unfold Table.user_create.
  repeat (match goal with |- context [if ?c then _ else _] => destruct c end;
          try discriminate).
  intros H; inversion H; subst. simpl. auto 6.
Qed.

Lemma profile_create_inr p db p' db' :
  Table.profile_create p db = inr (p', db') ->
  p' = p /\ tenants db' = tenants db /\ users db' = users db /\
  profiles db' = profiles db ++ [p] /\ applications db' = applications db /\
  billings db' = billings db.
Proof.
  unfold Table.profile_create.
  repeat (match goal with |- context [if ?c then _ else _] => destruct c end;
          try discriminate).
  intros H; inversion H; subst. simpl. auto 6.
Qed.

Lemma billing_create_inr b db b' db' :
  Table.billing_create b db = inr (b', db') ->
  b' = b /\ tenants db' = tenants db /\ users db' = users db /\
  profiles db' = profiles db /\ applications db' = applications db /\
  billings db' = billings db ++ [b].
Proof.
  unfold Table.billing_create.
  repeat (match goal with |- context [if ?c then _ else _] => destruct c end;
          try discriminate).
  intros H; inversion H; subst. simpl. auto 6.
Qed.

Lemma application_update_inr id data db a db' :
  Table.application_update id data db = inr (a, db') ->
  tenants db' = tenants db /\ users db' = users db /\
  profiles db' = profiles db /\ billings db' = billings db /\
  applications db' =
    update_where (fun x => String.eqb (app_id x) id) data (applications db).
Proof.
  unfold Table.application_update.
  destruct (find _ _) as [old|]; [|discriminate].
  destruct (app_userId (data old)) as [uid|].
  - repeat (match goal with |- context [if ?c then _ else _] => destruct c end;
            try discriminate);
      intros H; inversion H; subst; simpl; auto 6.
  - intros H; inversion H; subst; simpl; auto 6.
Qed.

Lemma billing_update_inr hit data db b db' :
  Table.billing_update hit data db = inr (b, db') ->
  tenants db' = tenants db /\ users db' = users db /\
  profiles db' = profiles db /\ applications db' = applications db /\
  billings db' = update_where hit data (billings db).
Proof.
  unfold Table.billing_update. destruct (find _ _); [|discriminate].
  intros H; inversion H; subst; simpl; auto 6.
Qed.

(** ** The three ways the provisioning body returns *)

Ltac tx_step H :=
  let a := fresh "a" in
  let st := fresh "st" in
  let Ha := fresh "Hstep" in
  apply bind_inr in H as (a & st & Ha & H).

Lemma getDefaultTenant_inr env st t st' :
  getDefaultTenant env st = (inr t, st') ->
  users (tx_db st') = users (tx_db st) /\
  profiles (tx_db st') = profiles (tx_db st) /\
  applications (tx_db st') = applications (tx_db st) /\
  billings (tx_db st') = billings (tx_db st).
Proof.
  unfold getDefaultTenant. intros H. tx_step H.
  apply query_inr in Hstep as [-> Hdb].
  destruct (Table.tenant_findFirst (tx_db st)) as [t0|].
  - apply ret_inr in H as [_ ->]. rewrite Hdb. auto.
  - apply statement_inr in H. apply tenant_create_inr in H.
    rewrite Hdb in H. intuition.
Qed.

Lemma provisioning_inr env sessionId session st o st' :
  provisioning env sessionId session st = (inr o, st') ->
  exists app,
    Table.application_findFirst_session sessionId (tx_db st) = Some app /\
    ((app_processed app = true /\
      o = outcome_alreadyProcessed (app_userId app) /\
      tx_db st' = tx_db st)
     \/
     (app_processed app = false /\
      exists u,
        Table.user_findUnique_email (app_email app) (tx_db st) = Some u /\
        o = outcome_userExists (user_id u) /\
        same_accounts (tx_db st) (tx_db st') /\
        applications (tx_db st') =
          update_where (fun x => String.eqb (app_id x) (app_id app))
            (link_application (user_id u) (env_now_linked env) None)
            (applications (tx_db st)))
     \/
     (app_processed app = false /\
      Table.user_findUnique_email (app_email app) (tx_db st) = None /\
      exists u p b,
        o = outcome_created (user_id u) (app_email app) (env_tempPassword env)
                            (app_firstName app) (app_lastName app) /\
        users (tx_db st') = users (tx_db st) ++ [u] /\
        profiles (tx_db st') = profiles (tx_db st) ++ [p] /\
        billings (tx_db st') = billings (tx_db st) ++ [b] /\
        user_email u = app_email app /\
        profile_userId p = user_id u /\
        bill_userId b = user_id u /\
        bill_applicationId b = app_id app /\
        bill_status b = "active" /\
        bill_cancelledAt b = None /\
        bill_billingDay b = Some (getDate (env_now_billing env)) /\
        bill_nextBillingDate b =
          Some (calculateNextBillingDate (env_now_calc env)
                  (getDate (env_now_billing env))
                  (String.eqb (app_paymentPlan app) "annual")) /\
        applications (tx_db st') =
          update_where (fun x => String.eqb (app_id x) (app_id app))
            (link_application (user_id u) (env_now_processed env)
                              (Some (env_hashedPassword env)))
            (applications (tx_db st)))).
Proof.
  unfold provisioning. intros H. tx_step H.
  apply query_inr in Hstep as [-> Hdb0].
  destruct (Table.application_findFirst_session sessionId (tx_db st)) as [app|];
    [|discriminate].
  exists app. split; [reflexivity|].
  destruct (app_processed app) eqn:Hproc.
  - left. apply ret_inr in H as [-> ->]. rewrite Hdb0. auto.
  - right. tx_step H. apply query_inr in Hstep as [-> Hdb1].
    rewrite Hdb0 in Hdb1.
    destruct (Table.user_findUnique_email (app_email app) (tx_db st0)) as [u|] eqn:Hu;
      rewrite Hdb0 in Hu.
    + left. split; [reflexivity|]. exists u. split; [exact Hu|].
      tx_step H. apply ret_inr in H as [-> ->].
      apply statement_inr in Hstep. apply application_update_inr in Hstep.
      rewrite Hdb1 in Hstep. unfold same_accounts. intuition.
    + right. split; [reflexivity|]. split; [exact Hu|].
      tx_step H. apply getDefaultTenant_inr in Hstep. rewrite Hdb1 in Hstep.
      tx_step H. apply statement_inr in Hstep0.
      apply user_create_inr in Hstep0.
      tx_step H. apply statement_inr in Hstep1.
      apply profile_create_inr in Hstep1.
      tx_step H. apply statement_inr in Hstep2.
      destruct (customer_id (session_customer session)) as [customer|];
        [|discriminate].
      apply billing_create_inr in Hstep2.
      tx_step H. apply statement_inr in Hstep3.
      apply application_update_inr in Hstep3.
      apply ret_inr in H as [-> ->].
      destruct Hstep as (Hu1 & Hp1 & Ha1 & Hb1).
      destruct Hstep0 as (-> & _ & Hu2 & Hp2 & Ha2 & Hb2).
      destruct Hstep1 as (_ & _ & Hu3 & Hp3 & Ha3 & Hb3).
      destruct Hstep2 as (_ & _ & Hu4 & Hp4 & Ha4 & Hb4).
      destruct Hstep3 as (_ & Hu5 & Hp5 & Hb5 & Ha5).
      exists {| user_id := env_userId env; user_email := app_email app;
                user_password := Some (env_hashedPassword env);
                user_provider := "email"; user_tenantId := tenant_id a |}.
      simpl in *. eexists _, _.
      split; [reflexivity|].
      split; [rewrite Hu5, Hu4, Hu3, Hu2, Hu1; reflexivity|].
      split; [rewrite Hp5, Hp4, Hp3, Hp2, Hp1; reflexivity|].
      split; [rewrite Hb5, Hb4, Hb3, Hb2, Hb1; reflexivity|].
      simpl. repeat (split; [reflexivity|]).
      rewrite Ha5, Ha4, Ha3, Ha2, Ha1. reflexivity.
Qed.

(** ** The provisioner as a whole *)

Lemma processPayment_inr fault env sessionId session db o db' :
  processPaymentAndCreateUser fault env sessionId session db = (inr o, db') ->
  exists st',
    provisioning env sessionId session {| tx_db := db; tx_fault := fault |} = (inr o, st')
    /\ db' = tx_db st'.
Proof.
  unfold processPaymentAndCreateUser.
  destruct (transaction _ fault db) as [[e|r] d] eqn:E; intros H; inversion H; subst.
  apply transaction_inr in E. exact E.
Qed.

Lemma processPayment_inl fault env sessionId session db e db' :
  processPaymentAndCreateUser fault env sessionId session db = (inl e, db') ->
  db' = db /\
  exists cause st,
    e = ProcessingFailed cause /\
    provisioning env sessionId session {| tx_db := db; tx_fault := fault |} = (inl cause, st).
Proof.
  unfold processPaymentAndCreateUser, transaction.
  destruct (provisioning _ _ _ _) as [[c|r] st] eqn:E; intros H; inversion H; subst.
  split; [reflexivity|]. eauto.
Qed.

(** An application that is already processed short-circuits. *)
Lemma processPayment_already env sessionId session db app :
  Table.application_findFirst_session sessionId db = Some app ->
  app_processed app = true ->
  processPaymentAndCreateUser None env sessionId session db =
    (inr (outcome_alreadyProcessed (app_userId app)), db).
Proof.
  intros Happ Hproc.
  unfold processPaymentAndCreateUser, transaction, provisioning, bind, query.
  rewrite statement_no_fault. simpl. rewrite Happ, Hproc. reflexivity.
Qed.

Lemma link_application_session uid t tp a :
  app_stripeSessionId (link_application uid t tp a) = app_stripeSessionId a.
Proof. reflexivity. Qed.

(** After any successful call the application of the session is marked
    processed and carries the user the call returned. *)
Lemma processed_after_success fault env sessionId session db o db' :
  processPaymentAndCreateUser fault env sessionId session db = (inr o, db') ->
  exists app',
    Table.application_findFirst_session sessionId db' = Some app' /\
    app_processed app' = true /\
    app_userId app' = out_userId o.
Proof.
  intros H. apply processPayment_inr in H as (st' & H & ->).
  apply provisioning_inr in H as (app & Happ & Hcase). simpl in *.
  assert (Hid : String.eqb (app_id app) (app_id app) = true)
    by apply String.eqb_refl.
  destruct Hcase as [(Hp & -> & Hdb) | [(Hp & u & Hu & -> & _ & Happs)
                    | (Hp & Hu & u & p & b & -> & _ & _ & _ & _ & _ & _ & _ & _ & _ & _ & _ & Happs)]].
  - exists app. rewrite Hdb. auto.
  - eexists. unfold Table.application_findFirst_session in *. rewrite Happs.
    split; [|split].
    + apply (find_update_where _ (fun x => String.eqb (app_id x) (app_id app)));
        [reflexivity | exact Happ | exact Hid].
    + reflexivity.
    + reflexivity.
  - eexists. unfold Table.application_findFirst_session in *. rewrite Happs.
    split; [|split].
    + apply (find_update_where _ (fun x => String.eqb (app_id x) (app_id app)));
        [reflexivity | exact Happ | exact Hid].
    + reflexivity.
    + reflexivity.
Qed.

(** Redeliveries of an event whose application is processed: nothing is
    written and every call returns the short-circuit outcome. *)
Lemma deliveries_processed session db app envs :
  Table.application_findFirst_session (session_id session) db = Some app ->
  app_processed app = true ->
  deliveries session (map (fun e => (None, e)) envs) db =
    (map (fun _ => inr (outcome_alreadyProcessed (app_userId app))) envs, db).
Proof.
  intros Happ Hproc. induction envs as [|e envs IH]; simpl.
  - reflexivity.
  - rewrite (processPayment_already e _ session db app Happ Hproc).
    rewrite IH. reflexivity.
Qed.

(** What a successful call adds to the account tables. *)
Lemma accounts_after_success fault env sessionId session db o db' :
  processPaymentAndCreateUser fault env sessionId session db = (inr o, db') ->
  (out_tempPassword o = None /\ same_accounts db db') \/
  (out_tempPassword o = Some (env_tempPassword env) /\ one_new_account db db').
Proof.
  intros H. apply processPayment_inr in H as (st' & H & ->).
  apply provisioning_inr in H as (app & Happ & Hcase). simpl in *.
  destruct Hcase as [(Hp & -> & Hdb) | [(Hp & u & Hu & -> & Hsame & Happs)
                    | (Hp & Hu & u & p & b & -> & Hus & Hps & Hbs & _ & Hpu & Hbu & _)]].
  - left. split; [reflexivity|]. rewrite Hdb. unfold same_accounts. auto.
  - left. split; [reflexivity|]. exact Hsame.
  - right. split; [reflexivity|]. exists u, p, b. auto.
Qed.

(** C1 (amended) -- Redelivering a [checkout.session.completed] event whose
    first delivery succeeded: however many more times it is delivered, the
    store stays exactly as the first delivery left it, which created at most
    one User/Profile/Billing triple (exactly one when it issued credentials),
    and every repeated call returns the short-circuit outcome
    [{ success, alreadyProcessed, userId, tempPassword: null }] carrying the
    [userId] of the first outcome. *)
Theorem redelivery_is_noop session fault env db0 o1 db1 envs :
  processPaymentAndCreateUser fault env (session_id session) session db0 = (inr o1, db1) ->
  deliveries session ((fault, env) :: map (fun e => (None, e)) envs) db0 =
    (inr o1 :: map (fun _ => inr (outcome_alreadyProcessed (out_userId o1))) envs, db1)
  /\ ((out_tempPassword o1 = None /\ same_accounts db0 db1) \/
      (out_tempPassword o1 = Some (env_tempPassword env) /\ one_new_account db0 db1)).
Proof.
  intros H. split.
  - simpl. rewrite H.
    destruct (processed_after_success _ _ _ _ _ _ _ H) as (app' & Happ' & Hproc & Huid).
    rewrite (deliveries_processed session db1 app' envs Happ' Hproc).
    rewrite Huid. reflexivity.
  - exact (accounts_after_success _ _ _ _ _ _ _ H).
Qed.

Lemma redelivery_is_noop_witness :
  processPaymentAndCreateUser None Sample.env_leap (session_id Sample.cs_1)
    Sample.cs_1 Sample.db0
  = (inr Sample.ada_created, Sample.db1)
  /\ (deliveries Sample.cs_1
        ((None, Sample.env_leap)
           :: map (fun e => (None, e)) [Sample.env_later; Sample.env_later])
        Sample.db0
      = (inr Sample.ada_created
           :: map (fun _ => inr (outcome_alreadyProcessed
                                   (out_userId Sample.ada_created)))
                [Sample.env_later; Sample.env_later],
         Sample.db1)
      /\ ((out_tempPassword Sample.ada_created = None
           /\ same_accounts Sample.db0 Sample.db1) \/
          (out_tempPassword Sample.ada_created
             = Some (env_tempPassword Sample.env_leap)
           /\ one_new_account Sample.db0 Sample.db1))).
Proof.
  split; [reflexivity|].
  apply (redelivery_is_noop Sample.cs_1 None Sample.env_leap Sample.db0
           Sample.ada_created Sample.db1 [Sample.env_later; Sample.env_later]).
  reflexivity.
Defined.

(** C1 (as stated) fails: the repeated call does not return an outcome
    identical to the first call's; the first carries the e-mail address, the
    temporary password and the names, the repeat carries the
    [alreadyProcessed] flag and a null password.  And a processed
    Application need not have a User/Profile/Billing triple: Grace's is
    linked to her existing account and has no Billing row. *)
Lemma redelivery_outcome_differs :
  (exists o1 o2,
     processPaymentAndCreateUser None Sample.env_leap "cs_1" Sample.cs_1 Sample.db0
       = (inr o1, Sample.db1) /\
     processPaymentAndCreateUser None Sample.env_later "cs_1" Sample.cs_1 Sample.db1
       = (inr o2, Sample.db1) /\
     out_tempPassword o1 = Some "s3cr3t!Pass1" /\
     out_tempPassword o2 = None /\
     o2 <> o1)
  /\
  (let db' := snd (processPaymentAndCreateUser None Sample.env_later "cs_g"
                     Sample.cs_g Sample.db_grace) in
   map app_processed (applications db') = [true] /\
   profiles db' = [] /\ billings db' = []).
Proof.
  split.
  - eexists _, _. split; [reflexivity|]. split; [reflexivity|].
    split; [reflexivity|]. split; [reflexivity|]. discriminate.
  - repeat split.
Qed.

(** C2 -- A call that fails, whatever the failing step (application not
    found, constraint violation, injected timeout or fault at any statement
    of the transaction), leaves the store exactly as it was: no User,
    Profile or Billing row of the call remains and the Application row is
    unchanged.  The error is the cause thrown inside the transaction,
    wrapped. *)
Theorem failed_provisioning_rolls_back fault env sessionId session db e db' :
  processPaymentAndCreateUser fault env sessionId session db = (inl e, db') ->
  db' = db /\
  exists cause st,
    e = ProcessingFailed cause /\
    provisioning env sessionId session {| tx_db := db; tx_fault := fault |}
      = (inl cause, st).
Proof. apply processPayment_inl. Qed.

(** A fault injected at Billing creation, after the User and Profile rows
    were written to the working copy. *)
Lemma failed_provisioning_rolls_back_witness :
  processPaymentAndCreateUser (Some 6%nat) Sample.env_leap "cs_1" Sample.cs_1 Sample.db0
    = (inl (ProcessingFailed TransactionFault), Sample.db0)
  /\ (Sample.db0 = Sample.db0 /\
      exists cause st,
        ProcessingFailed TransactionFault = ProcessingFailed cause /\
        provisioning Sample.env_leap "cs_1" Sample.cs_1
          {| tx_db := Sample.db0; tx_fault := Some 6%nat |} = (inl cause, st)).
Proof.
  split; [reflexivity|].
  apply (failed_provisioning_rolls_back (Some 6%nat) Sample.env_leap "cs_1"
           Sample.cs_1 Sample.db0 (ProcessingFailed TransactionFault) Sample.db0).
  reflexivity.
Defined.

(** The working copy at that fault held the new User and Profile; the
    committed store holds neither. *)
Example fault_between_user_and_billing :
  let '(r, st) := provisioning Sample.env_leap "cs_1" Sample.cs_1
                    {| tx_db := Sample.db0; tx_fault := Some 6%nat |} in
  r = inl TransactionFault /\
  map user_id (users (tx_db st)) = ["usr_1"] /\
  map profile_userId (profiles (tx_db st)) = ["usr_1"] /\
  billings (tx_db st) = [] /\
  snd (processPaymentAndCreateUser (Some 6%nat) Sample.env_leap "cs_1"
         Sample.cs_1 Sample.db0) = Sample.db0.
Proof. vm_compute. repeat split. Qed.

(** A constraint violation at Billing creation: the processor's customer
    is already attached to another Billing row. *)
Example constraint_violation_rolls_back :
  let db := {| tenants := []; users := []; profiles := [];
               applications := [Sample.ada];
               billings := [Sample.annual_15] |} in
  let session := {| session_id := "cs_1"; session_customer := RefId "cus_a";
                    session_subscription := RefId "sub_1";
                    session_amount_total := Some 29988;
                    session_payment_intent := Some "pi_1" |} in
  processPaymentAndCreateUser None Sample.env_leap "cs_1" session db
  = (inl (ProcessingFailed (UniqueConstraint "billing" "stripeCustomerId")), db).
Proof. reflexivity. Qed.

(** ** The compensation handler *)

Lemma application_update_status_ok status db app :
  In app (applications db) ->
  exists a,
    Table.application_update (app_id app) (set_application_status status) db =
      inr (a, {| tenants := tenants db; users := users db; profiles := profiles db;
                 applications :=
                   update_where (fun x => String.eqb (app_id x) (app_id app))
                     (set_application_status status) (applications db);
                 billings := billings db |}).
Proof.
  intros Hin. unfold Table.application_update.
  destruct (find (fun a => String.eqb (app_id a) (app_id app)) (applications db))
    as [old|] eqn:Hold.
  - simpl. destruct (app_userId old) as [uid|] eqn:Huid.
    + simpl. rewrite String.eqb_refl. eauto.
    + eauto.
  - exfalso. apply (find_none _ _ Hold) in Hin. simpl in Hin.
    rewrite String.eqb_refl in Hin. discriminate.
Qed.

Lemma handleFailedCheckout_no_intent response session w :
  truthy (session_payment_intent session) = None ->
  handleFailedCheckout response session w = sendCriticalAlert "No payment intent" w.
Proof. unfold handleFailedCheckout. intros ->. reflexivity. Qed.

Lemma handleFailedCheckout_refunded response session w pi app :
  truthy (session_payment_intent session) = Some pi ->
  Table.application_findFirst_session (session_id session) (w_db w) = Some app ->
  app_status app = "refunded" ->
  handleFailedCheckout response session w = w.
Proof.
  unfold handleFailedCheckout. intros -> -> ->. reflexivity.
Qed.

Lemma handleFailedCheckout_rejected session w pi app :
  truthy (session_payment_intent session) = Some pi ->
  Table.application_findFirst_session (session_id session) (w_db w) = Some app ->
  app_status app <> "refunded" ->
  handleFailedCheckout None session w =
    sendCriticalAlert "MANUAL REFUND REQUIRED"
      (request_refund {| rr_payment_intent := pi;
                         rr_sessionId := session_id session |} w).
Proof.
  unfold handleFailedCheckout. intros -> -> Hst.
  destruct (String.eqb (app_status app) "refunded") eqn:E.
  - apply String.eqb_eq in E. contradiction.
  - reflexivity.
Qed.

Lemma handleFailedCheckout_accepted refund session w pi app :
  truthy (session_payment_intent session) = Some pi ->
  Table.application_findFirst_session (session_id session) (w_db w) = Some app ->
  app_status app <> "refunded" ->
  let w' := handleFailedCheckout (Some refund) session w in
  w_refunds w' = w_refunds w ++ [{| rr_payment_intent := pi;
                                    rr_sessionId := session_id session |}] /\
  Table.application_findFirst_session (session_id session) (w_db w') =
    Some (set_application_status "refunded" app) /\
  users (w_db w') = users (w_db w) /\
  profiles (w_db w') = profiles (w_db w) /\
  billings (w_db w') = billings (w_db w).
Proof.
  unfold handleFailedCheckout. intros -> Happ Hst. rewrite Happ.
  destruct (String.eqb (app_status app) "refunded") eqn:E.
  - apply String.eqb_eq in E. contradiction.
  - destruct (find_some _ _ Happ) as [Hin _].
    destruct (application_update_status_ok "refunded" (w_db w) app Hin) as (a & Hupd).
    simpl. rewrite Hupd. simpl. split; [reflexivity|].
    split; [|auto].
    unfold Table.application_findFirst_session in *. simpl.
    apply (find_update_where _ (fun x => String.eqb (app_id x) (app_id app)));
      [reflexivity | exact Happ | apply String.eqb_refl].
Qed.

Lemma compensations_refunded responses session w pi app :
  truthy (session_payment_intent session) = Some pi ->
  Table.application_findFirst_session (session_id session) (w_db w) = Some app ->
  app_status app = "refunded" ->
  compensations responses session w = w.
Proof.
  intros Hpi Happ Hst. induction responses as [|r rs IH]; simpl.
  - reflexivity.
  - rewrite (handleFailedCheckout_refunded r session w pi app Hpi Happ Hst). exact IH.
Qed.

(** C3 (amended) -- For a checkout session that carries a payment intent and
    whose Application is found: when the Application already has status
    'refunded' the handler requests no refund, however often it runs;
    otherwise one invocation sends exactly one refund request, and once the
    processor has accepted a request the Application has status 'refunded'
    and every later invocation sends none, so that exactly one request is
    sent in total. *)
Theorem compensation_refunds_once session w pi app :
  truthy (session_payment_intent session) = Some pi ->
  Table.application_findFirst_session (session_id session) (w_db w) = Some app ->
  let request := {| rr_payment_intent := pi; rr_sessionId := session_id session |} in
  (app_status app = "refunded" ->
   forall responses, compensations responses session w = w)
  /\
  (app_status app <> "refunded" ->
   forall response,
     w_refunds (handleFailedCheckout response session w) = w_refunds w ++ [request])
  /\
  (app_status app <> "refunded" ->
   forall refund later,
     let w' := compensations (Some refund :: later) session w in
     w_refunds w' = w_refunds w ++ [request] /\
     Table.application_findFirst_session (session_id session) (w_db w') =
       Some (set_application_status "refunded" app)).
Proof.
  intros Hpi Happ request. split; [|split].
  - intros Hst responses. exact (compensations_refunded responses session w pi app Hpi Happ Hst).
  - intros Hst [refund|].
    + exact (proj1 (handleFailedCheckout_accepted refund session w pi app Hpi Happ Hst)).
    + rewrite (handleFailedCheckout_rejected session w pi app Hpi Happ Hst). reflexivity.
  - intros Hst refund later. simpl.
    destruct (handleFailedCheckout_accepted refund session w pi app Hpi Happ Hst)
      as (Hr & Hfind & _).
    rewrite (compensations_refunded later session _ pi _ Hpi Hfind eq_refl).
    split; [exact Hr | exact Hfind].
Qed.

Lemma compensation_refunds_once_witness :
  truthy (session_payment_intent Sample.cs_1) = Some "pi_1" /\
  Table.application_findFirst_session (session_id Sample.cs_1) (w_db Sample.world0)
    = Some Sample.ada /\
  w_refunds (compensations [Some Sample.refund_1; None; Some Sample.refund_1]
               Sample.cs_1 Sample.world0)
    = [{| rr_payment_intent := "pi_1"; rr_sessionId := "cs_1" |}].
Proof.
  split; [reflexivity|]. split; [reflexivity|].
  destruct (compensation_refunds_once Sample.cs_1 Sample.world0 "pi_1" Sample.ada
              eq_refl eq_refl) as (_ & _ & H).
  assert (Hst : app_status Sample.ada <> "refunded") by discriminate.
  exact (proj1 (H Hst Sample.refund_1 [None; Some Sample.refund_1])).
Defined.

(** C3 (as stated) fails in three ways.  A session without payment intent
    whose Application is still pending gets no refund request and keeps its
    status; a session whose Application is missing gets a refund request at
    every invocation; and a request the processor rejects leaves the status
    as it was, so that the next invocation sends a second request. *)
Lemma compensation_not_always_once :
  (let w' := handleFailedCheckout (Some Sample.refund_1) Sample.cs_1_no_intent
               Sample.world0 in
   w_refunds w' = [] /\ map app_status (applications (w_db w')) = ["pending"])
  /\
  (let w' := compensations [Some Sample.refund_1; Some Sample.refund_1]
               Sample.cs_unknown Sample.world0 in
   List.length (w_refunds w') = 2%nat)
  /\
  (let w' := compensations [None; Some Sample.refund_1] Sample.cs_1 Sample.world0 in
   List.length (w_refunds w') = 2%nat).
Proof. vm_compute. repeat split. Qed.

(** ** The e-mail collision branch *)

Lemma user_exists_of_find email db u :
  Table.user_findUnique_email email db = Some u ->
  Table.user_exists (user_id u) db = true.
Proof.
  unfold Table.user_findUnique_email, Table.user_exists. intros H.
  apply find_some in H as [Hin _]. apply existsb_exists.
  exists u. split; [exact Hin | apply String.eqb_refl].
Qed.

Lemma application_link_ok uid t db app :
  In app (applications db) ->
  Table.user_exists uid db = true ->
  (forall a, In a (applications db) ->
             app_id a <> app_id app -> app_userId a <> Some uid) ->
  exists a,
    Table.application_update (app_id app) (link_application uid t None) db =
      inr (a, {| tenants := tenants db; users := users db; profiles := profiles db;
                 applications :=
                   update_where (fun x => String.eqb (app_id x) (app_id app))
                     (link_application uid t None) (applications db);
                 billings := billings db |}).
Proof.
  intros Hin Huser Hfree. unfold Table.application_update.
  destruct (find (fun a => String.eqb (app_id a) (app_id app)) (applications db))
    as [old|] eqn:Hold.
  - simpl. destruct (col_is (app_userId old) uid); [eauto|].
    destruct (existsb _ (applications db)) eqn:Hex.
    + exfalso. apply existsb_exists in Hex as (a & Ha & Hc).
      apply andb_true_iff in Hc as [Hne Hc].
      apply col_is_true in Hc. apply negb_true_iff in Hne.
      apply (Hfree a Ha); [|exact Hc].
      intros E. rewrite E, String.eqb_refl in Hne. discriminate.
    + rewrite Huser. simpl. eauto.
  - exfalso. apply (find_none _ _ Hold) in Hin. simpl in Hin.
    rewrite String.eqb_refl in Hin. discriminate.
Qed.

(** C4 (amended) -- A delivery whose Application is unprocessed and whose
    e-mail address belongs to an existing User who is not linked to any
    other Application: no User, Profile or Billing row is created; the
    Application gets [userId] of that User, [processed = true] and
    [status = 'completed']; the outcome is the already-existed one, without
    a temporary password. *)
Theorem existing_user_is_linked env sessionId session db app u :
  Table.application_findFirst_session sessionId db = Some app ->
  app_processed app = false ->
  Table.user_findUnique_email (app_email app) db = Some u ->
  (forall a, In a (applications db) ->
             app_id a <> app_id app -> app_userId a <> Some (user_id u)) ->
  exists db' app',
    processPaymentAndCreateUser None env sessionId session db =
      (inr (outcome_userExists (user_id u)), db') /\
    out_tempPassword (outcome_userExists (user_id u)) = None /\
    same_accounts db db' /\
    tenants db' = tenants db /\
    Table.application_findFirst_session sessionId db' = Some app' /\
    app' = link_application (user_id u) (env_now_linked env) None app /\
    app_userId app' = Some (user_id u) /\
    app_processed app' = true /\
    app_status app' = "completed".
Proof.
  intros Happ Hproc Hu Hfree.
  destruct (find_some _ _ Happ) as [Hin _].
  destruct (application_link_ok (user_id u) (env_now_linked env) db app Hin
              (user_exists_of_find _ _ _ Hu) Hfree) as (a & Hupd).
  eexists _, _. split.
  - unfold processPaymentAndCreateUser, transaction, provisioning, bind, query.
    rewrite statement_no_fault. simpl. rewrite Happ, Hproc.
    rewrite statement_no_fault. simpl. rewrite Hu.
    rewrite statement_no_fault. rewrite Hupd. simpl. reflexivity.
  - split; [reflexivity|]. split; [unfold same_accounts; simpl; auto|].
    split; [reflexivity|]. split.
    + unfold Table.application_findFirst_session in *. simpl.
      apply (find_update_where _ (fun x => String.eqb (app_id x) (app_id app)));
        [reflexivity | exact Happ | apply String.eqb_refl].
    + repeat split.
Qed.

Lemma existing_user_is_linked_witness :
  Table.application_findFirst_session "cs_g" Sample.db_grace = Some Sample.grace /\
  app_processed Sample.grace = false /\
  Table.user_findUnique_email (app_email Sample.grace) Sample.db_grace
    = Some Sample.grace_user /\
  exists db' app',
    processPaymentAndCreateUser None Sample.env_later "cs_g" Sample.cs_g Sample.db_grace
      = (inr (outcome_userExists (user_id Sample.grace_user)), db') /\
    out_tempPassword (outcome_userExists (user_id Sample.grace_user)) = None /\
    same_accounts Sample.db_grace db' /\
    tenants db' = tenants Sample.db_grace /\
    Table.application_findFirst_session "cs_g" db' = Some app' /\
    app' = link_application (user_id Sample.grace_user)
             (env_now_linked Sample.env_later) None Sample.grace /\
    app_userId app' = Some (user_id Sample.grace_user) /\
    app_processed app' = true /\
    app_status app' = "completed".
Proof.
  split; [reflexivity|]. split; [reflexivity|]. split; [reflexivity|].
  apply (existing_user_is_linked Sample.env_later "cs_g" Sample.cs_g Sample.db_grace
           Sample.grace Sample.grace_user); try reflexivity.
  intros a [<-|[]] Hne. exfalso. apply Hne. reflexivity.
Defined.

(** C4 (as stated) fails when the existing User is already linked to an
    Application: [applications.userId] is unique, the link is refused, the
    transaction is rolled back and the new Application stays unprocessed
    and unlinked. *)
Lemma existing_user_already_linked :
  Table.application_findFirst_session "cs_2" Sample.db2 = Some Sample.ada_again /\
  app_processed Sample.ada_again = false /\
  option_map user_id
    (Table.user_findUnique_email (app_email Sample.ada_again) Sample.db2)
    = Some "usr_1" /\
  processPaymentAndCreateUser None Sample.env_later "cs_2" Sample.cs_2 Sample.db2
    = (inl (ProcessingFailed (UniqueConstraint "applications" "userId")), Sample.db2).
Proof. repeat split. Qed.

(** ** The subscription state synchronizer *)

Lemma billing_update_found hit data db billing :
  find hit (billings db) = Some billing ->
  Table.billing_update hit data db =
    inr (data billing,
         {| tenants := tenants db; users := users db; profiles := profiles db;
            applications := applications db;
            billings := update_where hit data (billings db) |}).
Proof. unfold Table.billing_update. intros ->. reflexivity. Qed.

Lemma has_id_found (sel : Billing -> bool) db billing :
  find sel (billings db) = Some billing ->
  exists first, find (has_id billing) (billings db) = Some first.
Proof.
  intros H. apply find_some in H as [Hin _].
  destruct (find (has_id billing) (billings db)) as [first|] eqn:E; [eauto|].
  exfalso. apply (find_none _ _ E) in Hin. unfold has_id in Hin.
  rewrite String.eqb_refl in Hin. discriminate.
Qed.

(** What [handleSubscriptionUpdated] writes when it finds the Billing row. *)
Lemma handleSubscriptionUpdated_found now subscription db billing :
  Table.billing_findUnique_subscription (sub_id subscription) db = Some billing ->
  handleSubscriptionUpdated now subscription db =
    {| tenants := tenants db; users := users db; profiles := profiles db;
       applications := applications db;
       billings :=
         update_where (has_id billing)
           (data_status_cancelledAt
              (fst (subscription_update_data now subscription billing))
              (snd (subscription_update_data now subscription billing)))
           (billings db) |}.
Proof.
  intros Hfind. unfold handleSubscriptionUpdated. rewrite Hfind.
  destruct (subscription_update_data now subscription billing) as [status cancelledAt].
  destruct (has_id_found _ _ _ Hfind) as (first & Hfirst).
  rewrite (billing_update_found _ _ _ _ Hfirst). reflexivity.
Qed.

(** With unique primary keys the row found is the one row rewritten. *)
Lemma handleSubscriptionUpdated_row now subscription db billing :
  Table.billing_findUnique_subscription (sub_id subscription) db = Some billing ->
  NoDup (billing_keys db) ->
  let db' := handleSubscriptionUpdated now subscription db in
  exists before after,
    billings db = before ++ billing :: after /\
    billings db' =
      before ++
      data_status_cancelledAt
        (fst (subscription_update_data now subscription billing))
        (snd (subscription_update_data now subscription billing)) billing
      :: after /\
    tenants db' = tenants db /\ users db' = users db /\
    profiles db' = profiles db /\ applications db' = applications db.
Proof.
  intros Hfind Hkeys. simpl.
  rewrite (handleSubscriptionUpdated_found now subscription db billing Hfind). simpl.
  destruct (find_some _ _ Hfind) as [Hin _].
  destruct (update_where_unique bill_id
              (data_status_cancelledAt
                 (fst (subscription_update_data now subscription billing))
                 (snd (subscription_update_data now subscription billing)))
              (billings db) billing Hkeys Hin) as (l1 & l2 & Hl & Hupd).
  exists l1, l2. split; [exact Hl|]. split; [exact Hupd|]. auto.
Qed.

(** C7 -- A [subscription_updated] event with the cancel-at-period-end flag
    set, matching a Billing row: [status] becomes 'cancelled', [cancelledAt]
    becomes the current time only when it was null (an earlier time is
    kept), and [nextBillingDate], every other column of that row, every
    other Billing row and every other table are unchanged. *)
Theorem cancel_at_period_end_frame now subscription db billing :
  sub_cancel_at_period_end subscription = true ->
  Table.billing_findUnique_subscription (sub_id subscription) db = Some billing ->
  NoDup (billing_keys db) ->
  let db' := handleSubscriptionUpdated now subscription db in
  exists before after,
    billings db = before ++ billing :: after /\
    billings db' = before ++ cancelled_at_period_end now billing :: after /\
    tenants db' = tenants db /\ users db' = users db /\
    profiles db' = profiles db /\ applications db' = applications db.
Proof.
  intros Hflag Hfind Hkeys.
  destruct (handleSubscriptionUpdated_row now subscription db billing Hfind Hkeys)
    as (l1 & l2 & Hl & Hupd & Hrest).
  exists l1, l2. split; [exact Hl|]. split; [|exact Hrest].
  rewrite Hupd. unfold subscription_update_data. rewrite Hflag. reflexivity.
Qed.

(** The witness keeps an earlier cancellation time: the row was cancelled
    on 1 December 2024 and the event arrives on 10 January 2025. *)
Lemma cancel_at_period_end_frame_witness :
  sub_cancel_at_period_end Sample.sub_a_cancelling = true /\
  Table.billing_findUnique_subscription (sub_id Sample.sub_a_cancelling)
    Sample.db_annual_cancelled = Some Sample.annual_15_cancelled /\
  NoDup (billing_keys Sample.db_annual_cancelled) /\
  let db' := handleSubscriptionUpdated (newDate 2025 0 10) Sample.sub_a_cancelling
               Sample.db_annual_cancelled in
  exists before after,
    billings Sample.db_annual_cancelled = before ++ Sample.annual_15_cancelled :: after /\
    billings db' =
      before ++ cancelled_at_period_end (newDate 2025 0 10) Sample.annual_15_cancelled
      :: after /\
    tenants db' = tenants Sample.db_annual_cancelled /\
    users db' = users Sample.db_annual_cancelled /\
    profiles db' = profiles Sample.db_annual_cancelled /\
    applications db' = applications Sample.db_annual_cancelled.
Proof.
  assert (Hkeys : NoDup (billing_keys Sample.db_annual_cancelled)).
  { repeat constructor. intros []. }
  split; [reflexivity|]. split; [reflexivity|]. split; [exact Hkeys|].
  apply (cancel_at_period_end_frame (newDate 2025 0 10) Sample.sub_a_cancelling
           Sample.db_annual_cancelled Sample.annual_15_cancelled);
    [reflexivity | reflexivity | exact Hkeys].
Defined.

Example cancel_at_period_end_keeps_earlier_time :
  map bill_cancelledAt
    (billings (handleSubscriptionUpdated (newDate 2025 0 10) Sample.sub_a_cancelling
                 Sample.db_annual_cancelled))
  = [Some (newDate 2024 11 1)].
Proof. reflexivity. Qed.

Example cancel_at_period_end_sets_time_when_null :
  map bill_cancelledAt
    (billings (handleSubscriptionUpdated (newDate 2025 0 10) Sample.sub_a_cancelling
                 Sample.db_annual))
  = [Some (newDate 2025 0 10)].
Proof. reflexivity. Qed.

(** C10 -- A [subscription_updated] event without the cancel-at-period-end
    flag whose status is 'canceled' or 'unpaid': the matching Billing row
    gets [status = 'cancelled'] and [cancelledAt] is overwritten with the
    current time, whatever it held before; the cancel-at-period-end branch
    keeps an earlier time on the same row. *)
Theorem canceled_or_unpaid_overwrites_cancelledAt now subscription db billing :
  sub_cancel_at_period_end subscription = false ->
  sub_status subscription = "canceled" \/ sub_status subscription = "unpaid" ->
  Table.billing_findUnique_subscription (sub_id subscription) db = Some billing ->
  NoDup (billing_keys db) ->
  let db' := handleSubscriptionUpdated now subscription db in
  let written := data_status_cancelledAt "cancelled" (Some now) billing in
  (exists before after,
     billings db = before ++ billing :: after /\
     billings db' = before ++ written :: after) /\
  bill_status written = "cancelled" /\
  bill_cancelledAt written = Some now /\
  (forall earlier,
     bill_cancelledAt billing = Some earlier ->
     bill_cancelledAt (cancelled_at_period_end now billing) = Some earlier).
Proof.
  intros Hflag Hst Hfind Hkeys.
  destruct (handleSubscriptionUpdated_row now subscription db billing Hfind Hkeys)
    as (l1 & l2 & Hl & Hupd & _).
  split; [|split; [reflexivity|split; [reflexivity|]]].
  - exists l1, l2. split; [exact Hl|]. rewrite Hupd.
    unfold subscription_update_data. rewrite Hflag.
    destruct Hst as [-> | ->]; reflexivity.
  - intros earlier He. simpl. rewrite He. reflexivity.
Qed.

Lemma canceled_or_unpaid_overwrites_cancelledAt_witness :
  sub_cancel_at_period_end Sample.sub_a_unpaid = false /\
  (sub_status Sample.sub_a_unpaid = "canceled" \/
   sub_status Sample.sub_a_unpaid = "unpaid") /\
  Table.billing_findUnique_subscription (sub_id Sample.sub_a_unpaid)
    Sample.db_annual_cancelled = Some Sample.annual_15_cancelled /\
  NoDup (billing_keys Sample.db_annual_cancelled) /\
  let now := newDate 2025 0 10 in
  let db' := handleSubscriptionUpdated now Sample.sub_a_unpaid
               Sample.db_annual_cancelled in
  let written :=
    data_status_cancelledAt "cancelled" (Some now) Sample.annual_15_cancelled in
  (exists before after,
     billings Sample.db_annual_cancelled
       = before ++ Sample.annual_15_cancelled :: after /\
     billings db' = before ++ written :: after) /\
  bill_status written = "cancelled" /\
  bill_cancelledAt written = Some now /\
  (forall earlier,
     bill_cancelledAt Sample.annual_15_cancelled = Some earlier ->
     bill_cancelledAt (cancelled_at_period_end now Sample.annual_15_cancelled)
       = Some earlier).
Proof.
  assert (Hkeys : NoDup (billing_keys Sample.db_annual_cancelled)).
  { repeat constructor. intros []. }
  split; [reflexivity|]. split; [right; reflexivity|].
  split; [reflexivity|]. split; [exact Hkeys|].
  apply (canceled_or_unpaid_overwrites_cancelledAt (newDate 2025 0 10)
           Sample.sub_a_unpaid Sample.db_annual_cancelled
           Sample.annual_15_cancelled);
    [reflexivity | right; reflexivity | reflexivity | exact Hkeys].
Defined.

Example unpaid_overwrites_earlier_time :
  bill_cancelledAt Sample.annual_15_cancelled = Some (newDate 2024 11 1) /\
  map bill_cancelledAt
    (billings (handleSubscriptionUpdated (newDate 2025 0 10) Sample.sub_a_unpaid
                 Sample.db_annual_cancelled))
  = [Some (newDate 2025 0 10)].
Proof. split; reflexivity. Qed.

(** ** The access rule *)

Lemma hasAccess_truthy now billing :
  js_truthy (hasAccess now billing) = true <->
  (bill_status billing = "active" \/
   (bill_status billing = "cancelled" /\
    exists next, bill_nextBillingDate billing = Some next /\ now < next)).
Proof.
  unfold hasAccess.
  destruct (String.eqb (bill_status billing) "active") eqn:Ea.
  - apply String.eqb_eq in Ea. simpl. split; auto.
  - apply String.eqb_neq in Ea.
    destruct (String.eqb (bill_status billing) "cancelled") eqn:Ec; simpl.
    + apply String.eqb_eq in Ec.
      destruct (bill_nextBillingDate billing) as [next|]; simpl.
      * rewrite Z.ltb_lt. split.
        -- intros Hlt. right. split; [exact Ec|]. exists next. auto.
        -- intros [Hact | (_ & next' & Hn & Hlt)]; [contradiction|].
           inversion Hn; subst. exact Hlt.
      * split; [discriminate|].
        intros [Hact | (_ & next' & Hn & _)]; [contradiction | discriminate].
    + apply String.eqb_neq in Ec. split; [discriminate|].
      intros [Hact | (Hc & _)]; contradiction.
Qed.

Lemma hasAccess_cancelled now billing next :
  bill_status billing = "cancelled" ->
  bill_nextBillingDate billing = Some next ->
  hasAccess now billing = JsBoolean (now <? next).
Proof. unfold hasAccess. intros -> ->. reflexivity. Qed.

Lemma getSubscriptionStatus_found now userId db billing :
  Table.billing_findUnique_user userId db = Some billing ->
  exists d,
    getSubscriptionStatus now userId db = HasSubscription d /\
    ss_status d = bill_status billing /\
    ss_hasAccess d = hasAccess now billing.
Proof.
  intros H. unfold getSubscriptionStatus. rewrite H. eexists. repeat split.
Qed.

(** C8 -- For a user with a Billing row the status query reports
    [hasAccess] true exactly when the status is 'active', or the status is
    'cancelled' and [nextBillingDate] lies in the future.  For a cancelled
    row whose [nextBillingDate] is [T], [hasAccess] is true at every time
    before [T] and false at [T] and after it, and the reported status is
    'cancelled' at every time. *)
Theorem access_window userId db billing :
  Table.billing_findUnique_user userId db = Some billing ->
  forall now, exists d,
    getSubscriptionStatus now userId db = HasSubscription d /\
    ss_status d = bill_status billing /\
    (js_truthy (ss_hasAccess d) = true <->
     (bill_status billing = "active" \/
      (bill_status billing = "cancelled" /\
       exists T, bill_nextBillingDate billing = Some T /\ now < T))) /\
    (forall T,
       bill_status billing = "cancelled" ->
       bill_nextBillingDate billing = Some T ->
       ss_status d = "cancelled" /\
       (now < T -> ss_hasAccess d = JsBoolean true) /\
       (T <= now -> ss_hasAccess d = JsBoolean false)).
Proof.
  intros Hfind now.
  destruct (getSubscriptionStatus_found now userId db billing Hfind)
    as (d & Hd & Hst & Hacc).
  exists d. split; [exact Hd|]. split; [exact Hst|]. split.
  - rewrite Hacc. apply hasAccess_truthy.
  - intros T Hc HT. rewrite Hst, Hacc, (hasAccess_cancelled now billing T Hc HT).
    split; [exact Hc|]. split; intros Hcmp.
    + apply Z.ltb_lt in Hcmp. rewrite Hcmp. reflexivity.
    + apply Z.ltb_ge in Hcmp. rewrite Hcmp. reflexivity.
Qed.

Lemma access_window_witness :
  Table.billing_findUnique_user "usr_a" Sample.db_annual_cancelled
    = Some Sample.annual_15_cancelled /\
  forall now, exists d,
    getSubscriptionStatus now "usr_a" Sample.db_annual_cancelled = HasSubscription d /\
    ss_status d = bill_status Sample.annual_15_cancelled /\
    (js_truthy (ss_hasAccess d) = true <->
     (bill_status Sample.annual_15_cancelled = "active" \/
      (bill_status Sample.annual_15_cancelled = "cancelled" /\
       exists T, bill_nextBillingDate Sample.annual_15_cancelled = Some T /\ now < T))) /\
    (forall T,
       bill_status Sample.annual_15_cancelled = "cancelled" ->
       bill_nextBillingDate Sample.annual_15_cancelled = Some T ->
       ss_status d = "cancelled" /\
       (now < T -> ss_hasAccess d = JsBoolean true) /\
       (T <= now -> ss_hasAccess d = JsBoolean false)).
Proof.
  split; [reflexivity|].
  apply (access_window "usr_a" Sample.db_annual_cancelled Sample.annual_15_cancelled).
  reflexivity.
Defined.

(** The window after a user-initiated cancellation: the row keeps its
    [nextBillingDate], so access lasts until then. *)
Lemma find_user_after_update (data : Billing -> Billing) userId db billing :
  (forall b, bill_userId (data b) = bill_userId b) ->
  Table.billing_findUnique_user userId db = Some billing ->
  find (fun b => String.eqb (bill_userId b) userId)
       (update_where (fun b => String.eqb (bill_userId b) userId) data (billings db))
  = Some (data billing).
Proof.
  intros Hkeep Hfind. unfold Table.billing_findUnique_user in Hfind.
  apply (find_update_where _ (fun b => String.eqb (bill_userId b) userId)).
  - intros b. rewrite Hkeep. reflexivity.
  - exact Hfind.
  - apply (find_some _ _ Hfind).
Qed.

Lemma cancelSubscription_inr now stripe_ok userId db r db' :
  cancelSubscription now stripe_ok userId db = (inr r, db') ->
  exists billing,
    Table.billing_findUnique_user userId db = Some billing /\
    bill_status billing <> "cancelled" /\
    cr_accessUntil r = bill_nextBillingDate billing /\
    Table.billing_findUnique_user userId db' =
      Some (data_status_cancelledAt "cancelled" (Some now) billing) /\
    billings db' =
      update_where (fun b => String.eqb (bill_userId b) userId)
        (data_status_cancelledAt "cancelled" (Some now)) (billings db).
Proof.
  unfold cancelSubscription.
  destruct (Table.billing_findUnique_user userId db) as [billing|] eqn:Hfind;
    [|discriminate].
  destruct (String.eqb (bill_status billing) "cancelled") eqn:Est; [discriminate|].
  destruct (is_some _ && negb stripe_ok); [discriminate|].
  unfold Table.billing_findUnique_user in Hfind.
  rewrite (billing_update_found _ _ _ _ Hfind).
  intros H; inversion H; subst. exists billing.
  split; [reflexivity|]. split; [apply String.eqb_neq; exact Est|].
  split; [reflexivity|]. simpl. split; [|reflexivity].
  unfold Table.billing_findUnique_user. simpl.
  apply find_user_after_update; [reflexivity | exact Hfind].
Qed.

Lemma access_after_cancelSubscription now0 stripe_ok userId db r db' T :
  cancelSubscription now0 stripe_ok userId db = (inr r, db') ->
  cr_accessUntil r = Some T ->
  forall now, exists d,
    getSubscriptionStatus now userId db' = HasSubscription d /\
    ss_status d = "cancelled" /\
    ss_hasAccess d = JsBoolean (now <? T).
Proof.
  intros Hc HT now.
  apply cancelSubscription_inr in Hc as (billing & _ & _ & Hacc & Hfind' & _).
  destruct (getSubscriptionStatus_found now userId db' _ Hfind') as (d & Hd & Hst & Ha).
  exists d. split; [exact Hd|]. split; [rewrite Hst; reflexivity|].
  rewrite Ha. apply hasAccess_cancelled; [reflexivity|].
  simpl. rewrite <- Hacc. exact HT.
Qed.

(** ** The invariant [status == cancelled ==> cancelledAt != null] *)

Lemma update_where_ok hit data (l : list Billing) :
  (forall b, billing_ok (data b)) ->
  Forall billing_ok l ->
  Forall billing_ok (update_where hit data l).
Proof.
  intros Hdata Hl. unfold update_where. apply Forall_map.
  apply Forall_impl with (P := billing_ok); [|exact Hl].
  intros b Hb. destruct (hit b); [apply Hdata | exact Hb].
Qed.

Lemma billing_update_ok hit data db :
  (forall b, billing_ok (data b)) ->
  billing_invariant db ->
  billing_invariant (attempt (Table.billing_update hit data db) db).
Proof.
  intros Hdata Hinv. unfold Table.billing_update, attempt.
  destruct (find hit (billings db)); [|exact Hinv].
  unfold billing_invariant. simpl. apply update_where_ok; assumption.
Qed.

Lemma not_cancelled_ok status cancelledAt b :
  status <> "cancelled" -> billing_ok (data_status_cancelledAt status cancelledAt b).
Proof. intros Hne Hst. simpl in Hst. contradiction. Qed.

Lemma cancelled_with_time_ok status t b :
  billing_ok (data_status_cancelledAt status (Some t) b).
Proof. intros _. simpl. discriminate. Qed.

Lemma subscription_update_data_ok now subscription billing b :
  billing_ok (data_status_cancelledAt
                (fst (subscription_update_data now subscription billing))
                (snd (subscription_update_data now subscription billing)) b).
Proof.
  unfold subscription_update_data.
  destruct (sub_cancel_at_period_end subscription).
  - simpl. destruct (bill_cancelledAt billing); apply cancelled_with_time_ok.
  - destruct (String.eqb (sub_status subscription) "past_due").
    + apply not_cancelled_ok. discriminate.
    + destruct (String.eqb (sub_status subscription) "canceled"
                || String.eqb (sub_status subscription) "unpaid").
      * apply cancelled_with_time_ok.
      * destruct (String.eqb (sub_status subscription) "active");
          apply not_cancelled_ok; discriminate.
Qed.

Lemma handleSubscriptionUpdated_ok now subscription db :
  billing_invariant db -> billing_invariant (handleSubscriptionUpdated now subscription db).
Proof.
  intros Hinv. unfold handleSubscriptionUpdated.
  destruct (Table.billing_findUnique_subscription _ db) as [billing|]; [|exact Hinv].
  pose proof (subscription_update_data_ok now subscription billing) as Hok.
  destruct (subscription_update_data now subscription billing) as [status cancelledAt].
  apply billing_update_ok; [exact Hok | exact Hinv].
Qed.

Lemma handleSubscriptionDeleted_ok now subscription db :
  billing_invariant db -> billing_invariant (handleSubscriptionDeleted now subscription db).
Proof.
  intros Hinv. unfold handleSubscriptionDeleted.
  destruct (Table.billing_findUnique_subscription _ db); [|exact Hinv].
  apply billing_update_ok; [intros row; apply cancelled_with_time_ok | exact Hinv].
Qed.

Lemma handleInvoicePaymentSucceeded_ok now invoice db :
  billing_invariant db -> billing_invariant (handleInvoicePaymentSucceeded now invoice db).
Proof.
  intros Hinv. unfold handleInvoicePaymentSucceeded.
  destruct (invoice_subscription_id invoice); [|exact Hinv].
  destruct (Table.billing_findUnique_subscription _ db); [|exact Hinv].
  apply billing_update_ok; [|exact Hinv].
  intros row Hst. simpl in Hst. discriminate.
Qed.

Lemma handleInvoicePaymentFailed_ok invoice db :
  billing_invariant db -> billing_invariant (handleInvoicePaymentFailed invoice db).
Proof.
  intros Hinv. unfold handleInvoicePaymentFailed.
  destruct (invoice_subscription_id invoice); [|exact Hinv].
  destruct (Table.billing_findUnique_subscription _ db); [|exact Hinv].
  apply billing_update_ok; [|exact Hinv].
  intros row Hst. simpl in Hst. discriminate.
Qed.

Lemma cancelSubscription_ok now stripe_ok userId db r db' :
  cancelSubscription now stripe_ok userId db = (r, db') ->
  billing_invariant db -> billing_invariant db'.
Proof.
  unfold cancelSubscription. intros H Hinv.
  destruct (Table.billing_findUnique_user userId db) as [billing|];
    [|inversion H; subst; exact Hinv].
  destruct (String.eqb (bill_status billing) "cancelled");
    [inversion H; subst; exact Hinv|].
  destruct (is_some _ && negb stripe_ok); [inversion H; subst; exact Hinv|].
  destruct (Table.billing_update _ _ db) as [e|[row d]] eqn:E;
    inversion H; subst; [exact Hinv|].
  apply billing_update_inr in E as (_ & _ & _ & _ & Hb).
  unfold billing_invariant. rewrite Hb.
  apply update_where_ok; [intros x; apply cancelled_with_time_ok | exact Hinv].
Qed.

Lemma reactivateSubscription_ok stripe_ok userId db r db' :
  reactivateSubscription stripe_ok userId db = (r, db') ->
  billing_invariant db -> billing_invariant db'.
Proof.
  unfold reactivateSubscription. intros H Hinv.
  destruct (Table.billing_findUnique_user userId db) as [billing|];
    [|inversion H; subst; exact Hinv].
  destruct (negb (String.eqb (bill_status billing) "cancelled"));
    [inversion H; subst; exact Hinv|].
  destruct (is_some _ && negb stripe_ok); [inversion H; subst; exact Hinv|].
  destruct (Table.billing_update _ _ db) as [e|[row d]] eqn:E;
    inversion H; subst; [exact Hinv|].
  apply billing_update_inr in E as (_ & _ & _ & _ & Hb).
  unfold billing_invariant. rewrite Hb.
  apply update_where_ok; [|exact Hinv].
  intros x. apply not_cancelled_ok. discriminate.
Qed.

Lemma processPayment_ok fault env sessionId session db r db' :
  processPaymentAndCreateUser fault env sessionId session db = (r, db') ->
  billing_invariant db -> billing_invariant db'.
Proof.
  intros H Hinv. destruct r as [e|o].
  - apply processPayment_inl in H as [-> _]. exact Hinv.
  - apply processPayment_inr in H as (st' & H & ->).
    apply provisioning_inr in H as (app & _ & Hcase). simpl in Hcase.
    unfold billing_invariant.
    destruct Hcase as [(_ & _ & ->) | [(_ & u & _ & _ & (_ & _ & ->) & _)
                      | (_ & _ & u & p & b & _ & _ & _ & -> & _ & _ & _ & _ & Hst & _)]].
    + exact Hinv.
    + exact Hinv.
    + apply Forall_app. split; [exact Hinv|].
      constructor; [|constructor]. intros Hc. rewrite Hst in Hc. discriminate.
Qed.

(** One step of any of the operations, by cases on the operation. *)
Lemma billing_step_ok db db' :
  billing_step db db' -> billing_invariant db -> billing_invariant db'.
Proof.
  intros Hstep Hinv. destruct Hstep.
  - eapply processPayment_ok; eassumption.
  - apply handleSubscriptionUpdated_ok; exact Hinv.
  - apply handleSubscriptionDeleted_ok; exact Hinv.
  - apply handleInvoicePaymentSucceeded_ok; exact Hinv.
  - apply handleInvoicePaymentFailed_ok; exact Hinv.
  - eapply cancelSubscription_ok; eassumption.
  - eapply reactivateSubscription_ok; eassumption.
Qed.

(** C9 -- Every operation that creates or changes a Billing row --
    provisioning, the five handlers of the subscription state synchronizer,
    the user's cancel and reactivate actions -- preserves the invariant that
    a row with status 'cancelled' has a non-null [cancelledAt]. *)
Theorem billing_step_preserves_invariant db db' :
  billing_step db db' -> billing_invariant db -> billing_invariant db'.
Proof. apply billing_step_ok. Qed.

Lemma billing_step_preserves_invariant_witness :
  billing_step Sample.db_annual
    (snd (cancelSubscription (newDate 2024 11 1) true "usr_a" Sample.db_annual)) /\
  billing_invariant Sample.db_annual /\
  billing_invariant
    (snd (cancelSubscription (newDate 2024 11 1) true "usr_a" Sample.db_annual)).
Proof.
  assert (Hstep : billing_step Sample.db_annual
            (snd (cancelSubscription (newDate 2024 11 1) true "usr_a" Sample.db_annual))).
  { apply (step_cancel (newDate 2024 11 1) true "usr_a" Sample.db_annual
             (fst (cancelSubscription (newDate 2024 11 1) true "usr_a" Sample.db_annual))).
    reflexivity. }
  assert (Hinv : billing_invariant Sample.db_annual).
  { constructor; [|constructor]. intros Hc. simpl in Hc. discriminate. }
  split; [exact Hstep|]. split; [exact Hinv|].
  apply (billing_step_preserves_invariant Sample.db_annual _ Hstep Hinv).
Defined.

(** The invariant holds along every run that starts in a store where it
    holds, in particular from the empty store. *)
Corollary billing_steps_preserve_invariant db db' :
  billing_steps db db' -> billing_invariant db -> billing_invariant db'.
Proof.
  induction 1 as [|db1 db2 db3 Hstep _ IH]; intros Hinv.
  - exact Hinv.
  - apply IH. exact (billing_step_ok db1 db2 Hstep Hinv).
Qed.

(** ** Calendar arithmetic *)

Lemma DayFromYear_succ y : DayFromYear (y + 1) = DayFromYear y + DaysInYear y.
Proof.
  unfold DayFromYear, DaysInYear, isLeapYear.
  destruct (Z.eqb_spec (y mod 4) 0), (Z.eqb_spec (y mod 100) 0),
           (Z.eqb_spec (y mod 400) 0);
    cbn [andb orb negb]; Z.div_mod_to_equations; lia.
Qed.

Lemma DayFromYear_mono y1 y2 : y1 <= y2 -> DayFromYear y1 <= DayFromYear y2.
Proof. unfold DayFromYear. intros. Z.div_mod_to_equations. lia. Qed.

Lemma year_search_spec fuel : forall y0 y d,
  DayFromYear y <= d < DayFromYear (y + 1) ->
  y <= y0 -> (Z.to_nat (y0 - y) <= fuel)%nat ->
  year_search fuel y0 d = y.
Proof.
  induction fuel as [|k IH]; intros y0 y d Hd Hle Hfuel; simpl.
  - lia.
  - destruct (Z.leb_spec (DayFromYear y0) d) as [Hy|Hy].
    + assert (~ y + 1 <= y0); [|lia].
      intros Hc. apply DayFromYear_mono in Hc. lia.
    + apply IH; try lia.
      assert (y <> y0) by (intros ->; lia). lia.
Qed.

(** [YearFromDay] is the year whose days include [d]. *)
Lemma YearFromDay_spec y d :
  DayFromYear y <= d < DayFromYear (y + 1) -> YearFromDay d = y.
Proof.
  intros Hd. unfold YearFromDay. apply year_search_spec; [exact Hd| |].
  - unfold DayFromYear in Hd. Z.div_mod_to_equations. lia.
  - unfold DayFromYear in Hd. Z.div_mod_to_equations. lia.
Qed.

Ltac month_cases m :=
  let H := fresh in
  assert (H : m = 0 \/ m = 1 \/ m = 2 \/ m = 3 \/ m = 4 \/ m = 5 \/ m = 6 \/
              m = 7 \/ m = 8 \/ m = 9 \/ m = 10 \/ m = 11) by lia;
  repeat (destruct H as [H|H]; [subst m|]); [..|subst m].

(** Evaluate the month table at constant arguments. *)
Ltac eval_table :=
  repeat match goal with
         | |- context [DaysBeforeMonth ?l ?c] =>
             let v := eval vm_compute in (DaysBeforeMonth l c) in
             change (DaysBeforeMonth l c) with v
         | H : context [DaysBeforeMonth ?l ?c] |- _ =>
             let v := eval vm_compute in (DaysBeforeMonth l c) in
             change (DaysBeforeMonth l c) with v in H
         end.

Lemma DaysInMonth_range y m : 0 <= m <= 11 -> 28 <= DaysInMonth y m <= 31.
Proof.
  intros Hm. unfold DaysInMonth.
  month_cases m; destruct (isLeapYear y); eval_table; lia.
Qed.

Lemma DaysBeforeMonth_next leap y m :
  leap = isLeapYear y -> 0 <= m <= 11 ->
  DaysBeforeMonth leap (m + 1) = DaysBeforeMonth leap m + DaysInMonth y m.
Proof. intros -> _. unfold DaysInMonth. lia. Qed.

Lemma DaysBeforeMonth_year y : DaysBeforeMonth (isLeapYear y) 12 = DaysInYear y.
Proof. unfold DaysInYear. destruct (isLeapYear y); reflexivity. Qed.

Lemma month_of_spec leap m k :
  0 <= m <= 11 ->
  0 <= k < DaysBeforeMonth leap (m + 1) - DaysBeforeMonth leap m ->
  month_of leap (DaysBeforeMonth leap m + k) = m.
Proof.
  intros Hm Hk. unfold month_of.
  month_cases m; destruct leap; eval_table;
    repeat (match goal with
            | |- context [if ?a <? ?b then _ else _] =>
                destruct (Z.ltb_spec a b); try lia
            end);
    reflexivity.
Qed.

Lemma MakeDay_in_range y m dt :
  0 <= m <= 11 ->
  MakeDay y m dt = DayFromYear y + DaysBeforeMonth (isLeapYear y) m + dt - 1.
Proof.
  intros Hm. unfold MakeDay.
  replace (m / 12) with 0 by (Z.div_mod_to_equations; lia).
  replace (m mod 12) with m by (Z.div_mod_to_equations; lia).
  rewrite Z.add_0_r. reflexivity.
Qed.

(** Month 12 is January of the next year. *)
Lemma MakeDay_month_12 y dt : MakeDay y 12 dt = MakeDay (y + 1) 0 dt.
Proof.
  unfold MakeDay. change (12 / 12) with 1. change (12 mod 12) with 0.
  change (0 / 12) with 0. change (0 mod 12) with 0.
  replace (y + 1 + 0) with (y + 1) by lia. reflexivity.
Qed.

(** A date past the end of the month is a date of the next month. *)
Lemma MakeDay_overflow y m dt :
  0 <= m <= 10 -> MakeDay y m dt = MakeDay y (m + 1) (dt - DaysInMonth y m).
Proof.
  intros Hm. rewrite !MakeDay_in_range by lia.
  rewrite (DaysBeforeMonth_next _ y m eq_refl) by lia. lia.
Qed.

(** Day number to calendar date and back. *)
Lemma civil_of_MakeDay y m dt :
  0 <= m <= 11 -> 1 <= dt <= DaysInMonth y m ->
  YearFromDay (MakeDay y m dt) = y /\
  MonthFromDay (MakeDay y m dt) = m /\
  DateFromDay (MakeDay y m dt) = dt.
Proof.
  intros Hm Hdt. rewrite MakeDay_in_range by exact Hm.
  assert (Hbefore : 0 <= DaysBeforeMonth (isLeapYear y) m /\
                    DaysBeforeMonth (isLeapYear y) m + DaysInMonth y m <= DaysInYear y).
  { unfold DaysInMonth, DaysInYear.
    month_cases m; destruct (isLeapYear y); eval_table; lia. }
  assert (Hy : YearFromDay (DayFromYear y + DaysBeforeMonth (isLeapYear y) m + dt - 1) = y).
  { apply YearFromDay_spec. rewrite DayFromYear_succ. lia. }
  unfold MonthFromDay, DateFromDay, DayWithinYear. rewrite Hy.
  replace (DayFromYear y + DaysBeforeMonth (isLeapYear y) m + dt - 1 - DayFromYear y)
    with (DaysBeforeMonth (isLeapYear y) m + (dt - 1)) by lia.
  assert (Hmo : month_of (isLeapYear y) (DaysBeforeMonth (isLeapYear y) m + (dt - 1)) = m).
  { apply month_of_spec; [exact Hm|]. unfold DaysInMonth in Hdt. lia. }
  rewrite Hmo. split; [reflexivity|]. split; [reflexivity|]. lia.
Qed.

Lemma Day_MakeDate d ms : 0 <= ms < msPerDay -> Day (MakeDate d ms) = d.
Proof.
  intros Hms. unfold Day, MakeDate, msPerDay in *. Z.div_mod_to_equations. lia.
Qed.

Lemma TimeWithinDay_MakeDate d ms :
  0 <= ms < msPerDay -> TimeWithinDay (MakeDate d ms) = ms.
Proof.
  intros Hms. unfold TimeWithinDay, MakeDate, msPerDay in *.
  Z.div_mod_to_equations. lia.
Qed.

Lemma ymd_at_time y m dt ms :
  0 <= m <= 11 -> 1 <= dt <= DaysInMonth y m -> 0 <= ms < msPerDay ->
  ymd (at_time y m dt ms) = (y, m, dt).
Proof.
  intros Hm Hdt Hms. unfold ymd, getFullYear, getMonth, getDate, at_time.
  rewrite Day_MakeDate by exact Hms.
  destruct (civil_of_MakeDay y m dt Hm Hdt) as (-> & -> & ->). reflexivity.
Qed.

Lemma ymd_newDate y m dt :
  0 <= m <= 11 -> 1 <= dt <= DaysInMonth y m -> ymd (newDate y m dt) = (y, m, dt).
Proof.
  intros Hm Hdt. apply (ymd_at_time y m dt 0 Hm Hdt). unfold msPerDay. lia.
Qed.

(** ** The next billing date *)

Lemma newDate_is_midnight y m dt :
  Day (newDate y m dt) = MakeDay y m dt /\ TimeWithinDay (newDate y m dt) = 0.
Proof.
  unfold newDate. split.
  - apply Day_MakeDate. unfold msPerDay. lia.
  - apply TimeWithinDay_MakeDate. unfold msPerDay. lia.
Qed.

Lemma following_month_range y m :
  0 <= m <= 11 -> 0 <= snd (following_month y m) <= 11.
Proof.
  intros Hm. unfold following_month. destruct (Z.eqb_spec m 11); simpl; lia.
Qed.

Lemma newDate_following_month y m dt :
  0 <= m <= 11 ->
  newDate y (m + 1) dt =
    newDate (fst (following_month y m)) (snd (following_month y m)) dt.
Proof.
  intros Hm. unfold following_month, newDate.
  destruct (Z.eqb_spec m 11) as [->|Hne]; simpl fst; simpl snd.
  - change (11 + 1) with 12. rewrite MakeDay_month_12. reflexivity.
  - reflexivity.
Qed.

(** The monthly branch: the billing day in the following month, or that
    month's last day when it is shorter. *)
Lemma calculateNextBillingDate_monthly y m dt ms billingDay :
  0 <= m <= 11 -> 1 <= dt <= DaysInMonth y m -> 0 <= ms < msPerDay ->
  1 <= billingDay <= 31 ->
  let y' := fst (following_month y m) in
  let m' := snd (following_month y m) in
  calculateNextBillingDate (at_time y m dt ms) billingDay false =
    newDate y' m' (Z.min billingDay (DaysInMonth y' m')).
Proof.
  intros Hm Hdt Hms Hbd y' m'.
  pose proof (ymd_at_time y m dt ms Hm Hdt Hms) as Hnow.
  unfold ymd in Hnow. injection Hnow as Hy Hmo Hd.
  unfold calculateNextBillingDate. cbv zeta. rewrite Hy, Hmo.
  rewrite (newDate_following_month y m billingDay Hm).
  fold y' m'.
  assert (Hm' : 0 <= m' <= 11) by (apply following_month_range; exact Hm).
  pose proof (DaysInMonth_range y' m' Hm') as Hdim.
  destruct (Z.le_gt_cases billingDay (DaysInMonth y' m')) as [Hfit|Hover].
  - (* the day exists in the following month *)
    pose proof (ymd_newDate y' m' billingDay Hm' (conj (proj1 Hbd) Hfit)) as Hnext.
    unfold ymd in Hnext. injection Hnext as _ _ Hgd.
    rewrite Hgd, Z.eqb_refl. simpl.
    rewrite Z.min_l by exact Hfit. reflexivity.
  - (* it does not: the date overflows into the month after *)
    assert (Hm'10 : 0 <= m' <= 10).
    { assert (m' <> 11); [|lia]. intros E. rewrite E in Hover.
      unfold DaysInMonth in Hover. destruct (isLeapYear y'); eval_table; lia. }
    pose proof (DaysInMonth_range y' (m' + 1) ltac:(lia)) as Hdim1.
    assert (Hshift : newDate y' m' billingDay =
                     newDate y' (m' + 1) (billingDay - DaysInMonth y' m')).
    { unfold newDate. rewrite (MakeDay_overflow y' m' billingDay Hm'10). reflexivity. }
    rewrite Hshift.
    pose proof (ymd_newDate y' (m' + 1) (billingDay - DaysInMonth y' m')
                  ltac:(lia) ltac:(lia)) as Hnext.
    unfold ymd in Hnext. injection Hnext as Hgy Hgm Hgd.
    rewrite Hgd.
    destruct (Z.eqb_spec (billingDay - DaysInMonth y' m') billingDay) as [E|_];
      [lia|]. simpl.
    unfold setDate. rewrite Hgy, Hgm.
    rewrite (proj2 (newDate_is_midnight _ _ _)).
    rewrite Z.min_r by lia. unfold newDate.
    rewrite (MakeDay_overflow y' m' (DaysInMonth y' m') Hm'10).
    rewrite Z.sub_diag. reflexivity.
Qed.

Lemma calculateNextBillingDate_monthly_ymd y m dt ms billingDay :
  0 <= m <= 11 -> 1 <= dt <= DaysInMonth y m -> 0 <= ms < msPerDay ->
  1 <= billingDay <= 31 ->
  let y' := fst (following_month y m) in
  let m' := snd (following_month y m) in
  ymd (calculateNextBillingDate (at_time y m dt ms) billingDay false) =
    (y', m', Z.min billingDay (DaysInMonth y' m')).
Proof.
  intros Hm Hdt Hms Hbd y' m'.
  rewrite (calculateNextBillingDate_monthly y m dt ms billingDay Hm Hdt Hms Hbd).
  fold y' m'.
  assert (Hm' : 0 <= m' <= 11) by (apply following_month_range; exact Hm).
  pose proof (DaysInMonth_range y' m' Hm') as Hdim.
  apply ymd_newDate; [exact Hm'|]. lia.
Qed.

(** The annual branch: same month and day of the next year, not clamped. *)
Lemma calculateNextBillingDate_annual y m dt ms billingDay :
  0 <= m <= 11 -> 1 <= dt <= DaysInMonth y m -> 0 <= ms < msPerDay ->
  calculateNextBillingDate (at_time y m dt ms) billingDay true =
    newDate (y + 1) m billingDay.
Proof.
  intros Hm Hdt Hms.
  pose proof (ymd_at_time y m dt ms Hm Hdt Hms) as Hnow.
  unfold ymd in Hnow. injection Hnow as Hy Hmo Hd.
  unfold calculateNextBillingDate. rewrite Hy, Hmo. reflexivity.
Qed.

Lemma calculateNextBillingDate_annual_ymd y m dt ms :
  0 <= m <= 11 -> 1 <= dt <= DaysInMonth y m -> 0 <= ms < msPerDay ->
  dt <= DaysInMonth (y + 1) m ->
  ymd (calculateNextBillingDate (at_time y m dt ms) dt true) = (y + 1, m, dt).
Proof.
  intros Hm Hdt Hms Hfit.
  rewrite (calculateNextBillingDate_annual y m dt ms dt Hm Hdt Hms).
  apply ymd_newDate; [exact Hm|]. lia.
Qed.

(** On 29 February the annual branch lands on 1 March of the next year. *)
Lemma calculateNextBillingDate_annual_leap_day y ms :
  isLeapYear y = true -> isLeapYear (y + 1) = false -> 0 <= ms < msPerDay ->
  ymd (calculateNextBillingDate (at_time y 1 29 ms) 29 true) = (y + 1, 2, 1).
Proof.
  intros Hleap Hnext Hms.
  assert (Hdim : DaysInMonth y 1 = 29).
  { unfold DaysInMonth. rewrite Hleap. reflexivity. }
  assert (Hdim' : DaysInMonth (y + 1) 1 = 28).
  { unfold DaysInMonth. rewrite Hnext. reflexivity. }
  rewrite (calculateNextBillingDate_annual y 1 29 ms 29) by lia.
  unfold newDate. rewrite (MakeDay_overflow (y + 1) 1 29) by lia.
  rewrite Hdim'. change (1 + 1) with 2. change (29 - 28) with 1.
  apply (ymd_newDate (y + 1) 2 1); [lia|].
  pose proof (DaysInMonth_range (y + 1) 2). lia.
Qed.

(** ** The first billing date and the renewal *)

(** The Billing row of a newly provisioned account, when both clock
    readings of the call fall at the same instant of a calendar day. *)
Lemma first_billing_date fault env sessionId session db o db' y m dt ms :
  processPaymentAndCreateUser fault env sessionId session db = (inr o, db') ->
  out_tempPassword o <> None ->
  env_now_billing env = at_time y m dt ms ->
  env_now_calc env = at_time y m dt ms ->
  0 <= m <= 11 -> 1 <= dt <= DaysInMonth y m -> 0 <= ms < msPerDay ->
  exists app b,
    Table.application_findFirst_session sessionId db = Some app /\
    billings db' = billings db ++ [b] /\
    bill_billingDay b = Some dt /\
    bill_nextBillingDate b =
      Some (calculateNextBillingDate (at_time y m dt ms) dt
              (String.eqb (app_paymentPlan app) "annual")).
Proof.
  intros H Hpw Hnb Hnc Hm Hdt Hms.
  apply processPayment_inr in H as (st' & H & ->).
  apply provisioning_inr in H as (app & Happ & Hcase).
  cbn [tx_db] in Happ, Hcase |- *.
  destruct Hcase as [(_ & -> & _) | [(_ & u & _ & -> & _)
                    | (_ & _ & u & p & b & _ & _ & _ & Hbs & _ & _ & _ & _ & _ & _ & Hday & Hnext & _)]].
  - exfalso. apply Hpw. reflexivity.
  - exfalso. apply Hpw. reflexivity.
  - exists app, b. split; [exact Happ|]. split; [exact Hbs|].
    pose proof (ymd_at_time y m dt ms Hm Hdt Hms) as Hnow.
    unfold ymd in Hnow. injection Hnow as _ _ Hd.
    rewrite Hnb, Hd in Hday. rewrite Hnb, Hnc, Hd in Hnext. auto.
Qed.

(** For a monthly plan that date is the same day of the following month,
    clamped to that month's last day. *)
Lemma first_billing_date_monthly fault env sessionId session db o db' y m dt ms :
  processPaymentAndCreateUser fault env sessionId session db = (inr o, db') ->
  out_tempPassword o <> None ->
  env_now_billing env = at_time y m dt ms ->
  env_now_calc env = at_time y m dt ms ->
  0 <= m <= 11 -> 1 <= dt <= DaysInMonth y m -> 0 <= ms < msPerDay ->
  exists app b,
    Table.application_findFirst_session sessionId db = Some app /\
    billings db' = billings db ++ [b] /\
    (app_paymentPlan app <> "annual" ->
     option_map ymd (bill_nextBillingDate b) =
       Some (fst (following_month y m), snd (following_month y m),
             Z.min dt (DaysInMonth (fst (following_month y m))
                                   (snd (following_month y m))))) /\
    (app_paymentPlan app = "annual" ->
     dt <= DaysInMonth (y + 1) m ->
     option_map ymd (bill_nextBillingDate b) = Some (y + 1, m, dt)).
Proof.
  intros H Hpw Hnb Hnc Hm Hdt Hms.
  destruct (first_billing_date _ _ _ _ _ _ _ y m dt ms H Hpw Hnb Hnc Hm Hdt Hms)
    as (app & b & Happ & Hbs & _ & Hnext).
  exists app, b. split; [exact Happ|]. split; [exact Hbs|].
  pose proof (DaysInMonth_range y m Hm) as Hdim.
  rewrite Hnext. cbn [option_map]. split.
  - intros Hplan. apply String.eqb_neq in Hplan. rewrite Hplan. f_equal.
    apply calculateNextBillingDate_monthly_ymd; try assumption. lia.
  - intros Hplan Hfit. rewrite Hplan. rewrite String.eqb_refl. f_equal.
    apply calculateNextBillingDate_annual_ymd; assumption.
Qed.

(** C5 -- The code at the failing input.  An annual plan provisioned on
    29 February 2024: the billing day is 29, February 2025 has 28 days, and
    the stored [nextBillingDate] is 1 March 2025 (month index 2), not the
    last day of February 2025.  The annual branch of
    [calculateNextBillingDate] has no clamping; the monthly branch has. *)
Theorem annual_leap_day_not_clamped :
  ymd (env_now_billing Sample.env_leap) = (2024, 1, 29) /\
  DaysInMonth 2025 1 = 28 /\
  map (fun b => (bill_billingType b, bill_billingDay b,
                 option_map ymd (bill_nextBillingDate b)))
      (billings (snd (processPaymentAndCreateUser None Sample.env_leap "cs_1"
                        Sample.cs_1 Sample.db0)))
  = [("annual", Some 29, Some (2025, 2, 1))].
Proof. vm_compute. repeat split. Qed.

(** The monthly branch at month ends, for comparison. *)
Example monthly_clamps_to_month_end :
  ymd (calculateNextBillingDate (at_time 2025 0 31 0) 31 false) = (2025, 1, 28) /\
  ymd (calculateNextBillingDate (at_time 2024 0 31 0) 31 false) = (2024, 1, 29) /\
  ymd (calculateNextBillingDate (at_time 2025 2 31 0) 31 false) = (2025, 3, 30) /\
  ymd (calculateNextBillingDate (at_time 2025 11 31 0) 31 false) = (2026, 0, 31).
Proof. vm_compute. repeat split. Qed.

(** What [handleInvoicePaymentSucceeded] writes: the monthly computation,
    whatever the billing type of the row. *)
Lemma handleInvoicePaymentSucceeded_row now invoice db subscriptionId billing billingDay :
  invoice_subscription_id invoice = Some subscriptionId ->
  Table.billing_findUnique_subscription subscriptionId db = Some billing ->
  bill_billingDay billing = Some billingDay -> billingDay <> 0 ->
  NoDup (billing_keys db) ->
  let db' := handleInvoicePaymentSucceeded now invoice db in
  exists before after,
    billings db = before ++ billing :: after /\
    billings db' =
      before ++
      data_status_nextBillingDate "active"
        (Some (calculateNextBillingDate now billingDay false)) billing
      :: after.
Proof.
  intros Hsub Hfind Hday Hnz Hkeys. cbv zeta.
  unfold handleInvoicePaymentSucceeded. rewrite Hsub, Hfind, Hday.
  destruct (Z.eqb_spec billingDay 0) as [E|_]; [contradiction|].
  destruct (has_id_found _ _ _ Hfind) as (first & Hfirst).
  rewrite (billing_update_found _ _ _ _ Hfirst). cbn [attempt billings].
  destruct (find_some _ _ Hfind) as [Hin _].
  destruct (update_where_unique bill_id
              (data_status_nextBillingDate "active"
                 (Some (calculateNextBillingDate now billingDay false)))
              (billings db) billing Hkeys Hin) as (l1 & l2 & Hl & Hupd).
  exists l1, l2. split; [exact Hl | exact Hupd].
Qed.

(** C6 -- The code at the failing input.  An annual Billing row with billing
    day 15, invoice paid on 15 January 2025: the status is 'active' and the
    stored [nextBillingDate] is 15 February 2025, one month ahead, not
    15 January 2026.  The handler calls
    [calculateNextBillingDate(billing.billingDay)] without the [isAnnual]
    argument, which defaults to false. *)
Theorem invoice_paid_annual_moves_one_month :
  bill_billingType Sample.annual_15 = "annual" /\
  bill_billingDay Sample.annual_15 = Some 15 /\
  map (fun b => (bill_status b, option_map ymd (bill_nextBillingDate b)))
      (billings (handleInvoicePaymentSucceeded (at_time 2025 0 15 3600000)
                   Sample.invoice_a Sample.db_annual))
  = [("active", Some (2025, 1, 15))] /\
  ymd (calculateNextBillingDate (at_time 2025 0 15 3600000) 15 true) = (2026, 0, 15).
Proof. vm_compute. repeat split. Qed.

(** ** Primary keys of the Billing table *)

Lemma update_where_keys {R} (key : R -> string) hit data (l : list R) :
  (forall r, key (data r) = key r) ->
  map key (update_where hit data l) = map key l.
Proof.
  intros Hkey. unfold update_where. rewrite map_map. apply map_ext.
  intros r. destruct (hit r); [apply Hkey | reflexivity].
Qed.

Lemma billing_update_keys hit data db :
  (forall b, bill_id (data b) = bill_id b) ->
  billing_keys (attempt (Table.billing_update hit data db) db) = billing_keys db.
Proof.
  intros Hkey. unfold Table.billing_update, attempt, billing_keys.
  destruct (find hit (billings db)); [|reflexivity].
  simpl. apply update_where_keys. exact Hkey.
Qed.

Lemma NoDup_snoc {A} (l : list A) x : NoDup l -> ~ In x l -> NoDup (l ++ [x]).
Proof.
  induction l as [|a l IH]; simpl; intros Hnd Hx.
  - constructor; [intros []|constructor].
  - inversion Hnd as [|? ? Ha Hl]; subst. constructor.
    + intros Hin. apply in_app_or in Hin as [Hin|[->|[]]]; [contradiction|].
      apply Hx. left. reflexivity.
    + apply IH; [exact Hl|]. intros Hin. apply Hx. right. exact Hin.
Qed.

Lemma billing_create_keys b db b' db' :
  Table.billing_create b db = inr (b', db') ->
  NoDup (billing_keys db) -> NoDup (billing_keys db').
Proof.
  intros H Hnd. pose proof H as Hc.
  apply billing_create_inr in Hc as (_ & _ & _ & _ & _ & Hb).
  unfold Table.billing_create in H.
  destruct (existsb (fun r => String.eqb (bill_id r) (bill_id b)) (billings db)) eqn:E;
    [discriminate|].
  unfold billing_keys in *. rewrite Hb, map_app. simpl.
  apply NoDup_snoc; [exact Hnd|].
  intros Hin. apply in_map_iff in Hin as (r & Hr & Hin).
  assert (Hex : existsb (fun r => String.eqb (bill_id r) (bill_id b)) (billings db) = true).
  { apply existsb_exists. exists r. split; [exact Hin|]. apply String.eqb_eq. exact Hr. }
  rewrite Hex in E. discriminate.
Qed.

Lemma processPayment_keys fault env sessionId session db r db' :
  processPaymentAndCreateUser fault env sessionId session db = (r, db') ->
  NoDup (billing_keys db) -> NoDup (billing_keys db').
Proof.
  intros H Hnd. destruct r as [e|o].
  - apply processPayment_inl in H as [-> _]. exact Hnd.
  - apply processPayment_inr in H as (st' & H & ->).
    unfold provisioning in H. tx_step H.
    apply query_inr in Hstep as [-> Hdb0].
    destruct (Table.application_findFirst_session sessionId _) as [app|];
      [|discriminate].
    cbn [tx_db] in Hdb0.
    destruct (app_processed app).
    { apply ret_inr in H as [_ ->]. rewrite Hdb0. exact Hnd. }
    tx_step H. apply query_inr in Hstep as [-> Hdb1].
    destruct (Table.user_findUnique_email _ _) as [u|].
    { tx_step H. apply ret_inr in H as [_ ->].
      apply statement_inr in Hstep. apply application_update_inr in Hstep.
      destruct Hstep as (_ & _ & _ & Hb & _).
      unfold billing_keys. rewrite Hb, Hdb1, Hdb0. exact Hnd. }
    tx_step H. apply getDefaultTenant_inr in Hstep.
    tx_step H. apply statement_inr in Hstep0. apply user_create_inr in Hstep0.
    tx_step H. apply statement_inr in Hstep1. apply profile_create_inr in Hstep1.
    tx_step H. apply statement_inr in Hstep2.
    destruct (customer_id (session_customer session)) as [customer|]; [|discriminate].
    apply billing_create_keys in Hstep2.
    + tx_step H. apply statement_inr in Hstep3.
      apply application_update_inr in Hstep3. apply ret_inr in H as [_ ->].
      destruct Hstep3 as (_ & _ & _ & Hb & _).
      unfold billing_keys in *. rewrite Hb. exact Hstep2.
    + destruct Hstep as (_ & _ & _ & Hb1).
      destruct Hstep0 as (_ & _ & _ & _ & _ & Hb2).
      destruct Hstep1 as (_ & _ & _ & _ & _ & Hb3).
      unfold billing_keys. rewrite Hb3, Hb2, Hb1, Hdb1, Hdb0. exact Hnd.
Qed.

(** Every operation keeps the primary keys of the Billing table distinct,
    so the key hypothesis of the row lemmas holds in every store reached
    from the empty one. *)
Lemma billing_step_keys db db' :
  billing_step db db' -> NoDup (billing_keys db) -> NoDup (billing_keys db').
Proof.
  intros Hstep Hnd. destruct Hstep as
    [fault env sid session db r db' H | now subscription db | now subscription db
    | now invoice db | invoice db | now ok userId db r db' H | ok userId db r db' H].
  - eapply processPayment_keys; eassumption.
  - unfold handleSubscriptionUpdated.
    destruct (Table.billing_findUnique_subscription _ db) as [billing|]; [|exact Hnd].
    destruct (subscription_update_data now subscription billing) as [status cancelledAt].
    rewrite billing_update_keys; [exact Hnd | reflexivity].
  - unfold handleSubscriptionDeleted.
    destruct (Table.billing_findUnique_subscription _ db); [|exact Hnd].
    rewrite billing_update_keys; [exact Hnd | reflexivity].
  - unfold handleInvoicePaymentSucceeded.
    destruct (invoice_subscription_id invoice); [|exact Hnd].
    destruct (Table.billing_findUnique_subscription _ db); [|exact Hnd].
    rewrite billing_update_keys; [exact Hnd | reflexivity].
  - unfold handleInvoicePaymentFailed.
    destruct (invoice_subscription_id invoice); [|exact Hnd].
    destruct (Table.billing_findUnique_subscription _ db); [|exact Hnd].
    rewrite billing_update_keys; [exact Hnd | reflexivity].
  - unfold cancelSubscription in H.
    destruct (Table.billing_findUnique_user userId db) as [billing|];
      [|inversion H; subst; exact Hnd].
    destruct (String.eqb (bill_status billing) "cancelled");
      [inversion H; subst; exact Hnd|].
    destruct (is_some _ && negb ok); [inversion H; subst; exact Hnd|].
    destruct (Table.billing_update _ _ db) as [e|[row d]] eqn:E;
      inversion H; subst; [exact Hnd|].
    apply billing_update_inr in E as (_ & _ & _ & _ & Hb).
    unfold billing_keys in *. rewrite Hb, update_where_keys; [exact Hnd | reflexivity].
  - unfold reactivateSubscription in H.
    destruct (Table.billing_findUnique_user userId db) as [billing|];
      [|inversion H; subst; exact Hnd].
    destruct (negb (String.eqb (bill_status billing) "cancelled"));
      [inversion H; subst; exact Hnd|].
    destruct (is_some _ && negb ok); [inversion H; subst; exact Hnd|].
    destruct (Table.billing_update _ _ db) as [e|[row d]] eqn:E;
      inversion H; subst; [exact Hnd|].
    apply billing_update_inr in E as (_ & _ & _ & _ & Hb).
    unfold billing_keys in *. rewrite Hb, update_where_keys; [exact Hnd | reflexivity].
Qed.

(** * Further properties *)

(** ** The next billing date, in general *)

Lemma MakeDay_date_shift y m a b : MakeDay y m a - MakeDay y m b = a - b.
Proof. unfold MakeDay. lia. Qed.

(** The first day of the following month is the day after the last day of
    the month. *)
Lemma MakeDay_following_month y m :
  0 <= m <= 11 ->
  MakeDay (fst (following_month y m)) (snd (following_month y m)) 1 =
  MakeDay y m (DaysInMonth y m + 1).
Proof.
  intros Hm. unfold following_month.
  destruct (Z.eqb_spec m 11) as [->|Hne]; cbn [fst snd].
  - rewrite !MakeDay_in_range by lia. rewrite DayFromYear_succ.
    rewrite <- DaysBeforeMonth_year. unfold DaysInMonth.
    change (11 + 1) with 12.
    change (DaysBeforeMonth (isLeapYear (y + 1)) 0) with 0. lia.
  - rewrite (MakeDay_overflow y m (DaysInMonth y m + 1)) by lia.
    f_equal. lia.
Qed.

Lemma DaysBeforeMonth_leap_gap l1 l2 m :
  0 <= m <= 11 -> DaysBeforeMonth l1 m - 1 <= DaysBeforeMonth l2 m.
Proof.
  intros Hm. month_cases m; destruct l1, l2; eval_table; lia.
Qed.

Lemma MakeDate_lt d0 ms d1 :
  0 <= ms < msPerDay -> d0 < d1 -> MakeDate d0 ms < MakeDate d1 0.
Proof. unfold MakeDate, msPerDay. lia. Qed.

Lemma calculateNextBillingDate_later y m dt ms billingDay isAnnual :
  0 <= m <= 11 -> 1 <= dt <= DaysInMonth y m -> 0 <= ms < msPerDay ->
  1 <= billingDay <= 31 ->
  at_time y m dt ms < calculateNextBillingDate (at_time y m dt ms) billingDay isAnnual.
Proof.
  intros Hm Hdt Hms Hbd. destruct isAnnual.
  - rewrite (calculateNextBillingDate_annual y m dt ms billingDay Hm Hdt Hms).
    unfold at_time, newDate. apply MakeDate_lt; [exact Hms|].
    rewrite !MakeDay_in_range by exact Hm. rewrite DayFromYear_succ.
    pose proof (DaysBeforeMonth_leap_gap (isLeapYear y) (isLeapYear (y + 1)) m Hm).
    pose proof (DaysInMonth_range y m Hm).
    assert (365 <= DaysInYear y) by (unfold DaysInYear; destruct (isLeapYear y); lia).
    lia.
  - rewrite (calculateNextBillingDate_monthly y m dt ms billingDay Hm Hdt Hms Hbd).
    unfold at_time, newDate. apply MakeDate_lt; [exact Hms|].
    pose proof (following_month_range y m Hm) as Hm'.
    pose proof (DaysInMonth_range (fst (following_month y m))
                  (snd (following_month y m)) Hm') as Hdim.
    pose proof (MakeDay_following_month y m Hm) as Hfirst.
    pose proof (MakeDay_date_shift (fst (following_month y m))
                  (snd (following_month y m))
                  (Z.min billingDay
                     (DaysInMonth (fst (following_month y m))
                                  (snd (following_month y m)))) 1) as H1.
    pose proof (MakeDay_date_shift y m (DaysInMonth y m + 1) dt) as H2.
    lia.
Qed.

(** X1 -- [calculateNextBillingDate], monthly branch, for every calendar
    date and every billing day from 1 to 31: the result is local midnight of
    the billing day in the following month (January of the next year after
    December), or of that month's last day when the month is shorter than
    the billing day. *)
Theorem monthly_next_billing_date y m dt ms billingDay :
  0 <= m <= 11 -> 1 <= dt <= DaysInMonth y m -> 0 <= ms < msPerDay ->
  1 <= billingDay <= 31 ->
  let next := calculateNextBillingDate (at_time y m dt ms) billingDay false in
  let y' := fst (following_month y m) in
  let m' := snd (following_month y m) in
  ymd next = (y', m', Z.min billingDay (DaysInMonth y' m')) /\
  TimeWithinDay next = 0.
Proof.
  intros Hm Hdt Hms Hbd. cbv zeta. split.
  - apply calculateNextBillingDate_monthly_ymd; assumption.
  - rewrite (calculateNextBillingDate_monthly y m dt ms billingDay Hm Hdt Hms Hbd).
    apply newDate_is_midnight.
Qed.

Lemma monthly_next_billing_date_witness :
  0 <= 0 <= 11 /\ 1 <= 31 <= DaysInMonth 2025 0 /\ 0 <= 1000 < msPerDay /\
  1 <= 31 <= 31 /\
  ymd (calculateNextBillingDate (at_time 2025 0 31 1000) 31 false) = (2025, 1, 28) /\
  TimeWithinDay (calculateNextBillingDate (at_time 2025 0 31 1000) 31 false) = 0.
Proof.
  split; [lia|]. split; [vm_compute; split; discriminate|].
  split; [vm_compute; split; [discriminate|reflexivity]|]. split; [lia|].
  apply (monthly_next_billing_date 2025 0 31 1000 31).
  - lia.
  - vm_compute; split; discriminate.
  - vm_compute; split; [discriminate|reflexivity].
  - lia.
Defined.

(** X2 -- Whatever the plan, and for every billing day from 1 to 31, the
    date [calculateNextBillingDate] returns lies strictly after the moment
    it is computed at. *)
Theorem next_billing_date_is_later y m dt ms billingDay isAnnual :
  0 <= m <= 11 -> 1 <= dt <= DaysInMonth y m -> 0 <= ms < msPerDay ->
  1 <= billingDay <= 31 ->
  at_time y m dt ms < calculateNextBillingDate (at_time y m dt ms) billingDay isAnnual.
Proof. apply calculateNextBillingDate_later. Qed.

Lemma next_billing_date_is_later_witness :
  0 <= 11 <= 11 /\ 1 <= 31 <= DaysInMonth 2025 11 /\ 0 <= 86399999 < msPerDay /\
  1 <= 1 <= 31 /\
  at_time 2025 11 31 86399999
    < calculateNextBillingDate (at_time 2025 11 31 86399999) 1 false.
Proof.
  split; [lia|]. split; [vm_compute; split; discriminate|].
  split; [vm_compute; split; [discriminate|reflexivity]|]. split; [lia|].
  apply (next_billing_date_is_later 2025 11 31 86399999 1 false).
  - lia.
  - vm_compute; split; discriminate.
  - vm_compute; split; [discriminate|reflexivity].
  - lia.
Defined.

(** ** The temporary password *)

Lemma string_of_list_ascii_length l :
  String.length (string_of_list_ascii l) = List.length l.
Proof. induction l as [|c l IH]; simpl; [reflexivity | rewrite IH; reflexivity]. Qed.

Lemma get_in_string s : forall n c,
  String.get n s = Some c -> In c (list_ascii_of_string s).
Proof.
  induction s as [|a s IH]; intros n c H; simpl in *.
  - discriminate.
  - destruct n as [|n].
    + inversion H. left. reflexivity.
    + right. exact (IH n c H).
Qed.

Lemma get_within s : forall n,
  (n < String.length s)%nat -> exists c, String.get n s = Some c.
Proof.
  induction s as [|a s IH]; intros n H; simpl in *.
  - lia.
  - destruct n as [|n]; [eauto|]. apply IH. lia.
Qed.


Lemma charset_length : String.length charset = 70%nat.
Proof. reflexivity. Qed.

Lemma password_char_in_charset byte :
  In (password_char byte) (list_ascii_of_string charset).
Proof.
  unfold password_char. rewrite charset_length.
  destruct (get_within charset (Z.to_nat (byte mod Z.of_nat 70))) as (c & Hc).
  - rewrite charset_length.
    assert (0 <= byte mod Z.of_nat 70 < 70) by (apply Z.mod_pos_bound; lia). lia.
  - rewrite Hc. exact (get_in_string _ _ _ Hc).
Qed.

(** X3 -- [generateTemporaryPassword]: from the twelve random bytes it
    builds a password of exactly twelve characters, each of them a
    character of the 70-character set. *)
Theorem temporary_password_shape randomBytes :
  List.length randomBytes = 12%nat ->
  String.length (generateTemporaryPassword randomBytes) = 12%nat /\
  Forall (fun c => In c (list_ascii_of_string charset))
         (list_ascii_of_string (generateTemporaryPassword randomBytes)).
Proof.
  intros Hlen. unfold generateTemporaryPassword. split.
  - rewrite string_of_list_ascii_length, length_map, firstn_all2 by lia. exact Hlen.
  - rewrite list_ascii_of_string_of_list_ascii. apply Forall_map.
    apply Forall_forall. intros b _. apply password_char_in_charset.
Qed.

Lemma temporary_password_shape_witness :
  List.length [0; 25; 26; 51; 52; 61; 62; 69; 70; 255; 128; 200] = 12%nat /\
  generateTemporaryPassword [0; 25; 26; 51; 52; 61; 62; 69; 70; 255; 128; 200]
    = "azAZ09!*aT68" /\
  String.length
    (generateTemporaryPassword [0; 25; 26; 51; 52; 61; 62; 69; 70; 255; 128; 200])
    = 12%nat.
Proof.
  split; [reflexivity|]. split; [reflexivity|].
  exact (proj1 (temporary_password_shape
                  [0; 25; 26; 51; 52; 61; 62; 69; 70; 255; 128; 200] eq_refl)).
Defined.




(** ** The synchronizer: what an event leaves behind *)

Lemma sync_write sid db billing data :
  Table.billing_findUnique_subscription sid db = Some billing ->
  (forall x, bill_stripeSubscriptionId (data x) = bill_stripeSubscriptionId x) ->
  attempt (Table.billing_update (has_id billing) data db) db =
    {| tenants := tenants db; users := users db; profiles := profiles db;
       applications := applications db;
       billings := update_where (has_id billing) data (billings db) |}
  /\
  Table.billing_findUnique_subscription sid
    (attempt (Table.billing_update (has_id billing) data db) db) = Some (data billing).
Proof.
  intros Hfind Hkeep.
  destruct (has_id_found _ _ _ Hfind) as (first & Hfirst).
  rewrite (billing_update_found _ _ _ _ Hfirst). cbn [attempt].
  split; [reflexivity|].
  unfold Table.billing_findUnique_subscription in *. cbn [billings].
  apply (find_update_where _ (has_id billing)).
  - intros x. rewrite Hkeep. reflexivity.
  - exact Hfind.
  - unfold has_id. apply String.eqb_refl.
Qed.

Lemma handleInvoicePaymentFailed_found invoice sid db billing :
  invoice_subscription_id invoice = Some sid ->
  Table.billing_findUnique_subscription sid db = Some billing ->
  handleInvoicePaymentFailed invoice db =
    {| tenants := tenants db; users := users db; profiles := profiles db;
       applications := applications db;
       billings := update_where (has_id billing) (set_billing_status "past_due")
                     (billings db) |}
  /\
  Table.billing_findUnique_subscription sid (handleInvoicePaymentFailed invoice db)
    = Some (set_billing_status "past_due" billing).
Proof.
  intros Hsid Hfind. unfold handleInvoicePaymentFailed. rewrite Hsid, Hfind.
  apply sync_write; [exact Hfind | reflexivity].
Qed.

Lemma handleInvoicePaymentSucceeded_found now invoice sid db billing :
  invoice_subscription_id invoice = Some sid ->
  Table.billing_findUnique_subscription sid db = Some billing ->
  handleInvoicePaymentSucceeded now invoice db =
    {| tenants := tenants db; users := users db; profiles := profiles db;
       applications := applications db;
       billings :=
         update_where (has_id billing)
           (data_status_nextBillingDate "active" (renewal_date now billing))
           (billings db) |}
  /\
  Table.billing_findUnique_subscription sid (handleInvoicePaymentSucceeded now invoice db)
    = Some (data_status_nextBillingDate "active" (renewal_date now billing) billing).
Proof.
  intros Hsid Hfind. unfold handleInvoicePaymentSucceeded. rewrite Hsid, Hfind.
  apply sync_write; [exact Hfind | reflexivity].
Qed.

Lemma handleSubscriptionDeleted_found now subscription db billing :
  Table.billing_findUnique_subscription (sub_id subscription) db = Some billing ->
  handleSubscriptionDeleted now subscription db =
    {| tenants := tenants db; users := users db; profiles := profiles db;
       applications := applications db;
       billings :=
         update_where (has_id billing)
           (data_status_cancelledAt "cancelled" (Some now)) (billings db) |}
  /\
  Table.billing_findUnique_subscription (sub_id subscription)
    (handleSubscriptionDeleted now subscription db)
    = Some (data_status_cancelledAt "cancelled" (Some now) billing).
Proof.
  intros Hfind. unfold handleSubscriptionDeleted. rewrite Hfind.
  apply sync_write; [exact Hfind | reflexivity].
Qed.

Lemma handleSubscriptionUpdated_after now subscription db billing :
  Table.billing_findUnique_subscription (sub_id subscription) db = Some billing ->
  Table.billing_findUnique_subscription (sub_id subscription)
    (handleSubscriptionUpdated now subscription db)
  = Some (data_status_cancelledAt
            (fst (subscription_update_data now subscription billing))
            (snd (subscription_update_data now subscription billing)) billing).
Proof.
  intros Hfind. unfold handleSubscriptionUpdated. rewrite Hfind.
  destruct (subscription_update_data now subscription billing) as [status cancelledAt].
  apply sync_write; [exact Hfind | reflexivity].
Qed.

(** X5 -- Renewal events in either order.  For an invoice whose
    subscription matches a Billing row: payment failed and then payment
    succeeded leaves the row 'active'; payment succeeded and then payment
    failed leaves it 'past_due', with the renewed [nextBillingDate] still
    in place. *)
Theorem invoice_events_out_of_order now invoice sid db billing :
  invoice_subscription_id invoice = Some sid ->
  Table.billing_findUnique_subscription sid db = Some billing ->
  option_map bill_status
    (Table.billing_findUnique_subscription sid
       (handleInvoicePaymentSucceeded now invoice
          (handleInvoicePaymentFailed invoice db))) = Some "active"
  /\
  option_map (fun b => (bill_status b, bill_nextBillingDate b))
    (Table.billing_findUnique_subscription sid
       (handleInvoicePaymentFailed invoice
          (handleInvoicePaymentSucceeded now invoice db)))
  = Some ("past_due", renewal_date now billing).
Proof.
  intros Hsid Hfind. split.
  - destruct (handleInvoicePaymentFailed_found invoice sid db billing Hsid Hfind)
      as (_ & Hf).
    destruct (handleInvoicePaymentSucceeded_found now invoice sid _ _ Hsid Hf)
      as (_ & Hs).
    rewrite Hs. reflexivity.
  - destruct (handleInvoicePaymentSucceeded_found now invoice sid db billing Hsid Hfind)
      as (_ & Hs).
    destruct (handleInvoicePaymentFailed_found invoice sid _ _ Hsid Hs) as (_ & Hf).
    rewrite Hf. reflexivity.
Qed.

Lemma invoice_events_out_of_order_witness :
  invoice_subscription_id Scenario.invoice_m = Some "sub_m" /\
  Table.billing_findUnique_subscription "sub_m" Scenario.db_monthly
    = Some Scenario.monthly_31 /\
  option_map bill_status
    (Table.billing_findUnique_subscription "sub_m"
       (handleInvoicePaymentSucceeded (newDate 2025 0 31) Scenario.invoice_m
          (handleInvoicePaymentFailed Scenario.invoice_m Scenario.db_monthly)))
    = Some "active"
  /\
  option_map (fun b => (bill_status b, bill_nextBillingDate b))
    (Table.billing_findUnique_subscription "sub_m"
       (handleInvoicePaymentFailed Scenario.invoice_m
          (handleInvoicePaymentSucceeded (newDate 2025 0 31) Scenario.invoice_m
             Scenario.db_monthly)))
  = Some ("past_due", renewal_date (newDate 2025 0 31) Scenario.monthly_31).
Proof.
  split; [reflexivity|]. split; [reflexivity|].
  apply (invoice_events_out_of_order (newDate 2025 0 31) Scenario.invoice_m "sub_m"
           Scenario.db_monthly Scenario.monthly_31); reflexivity.
Defined.

(** ** The synchronizer: what it never touches *)

Lemma update_where_fixed_part hit data (l : list Billing) :
  (forall x, billing_fixed_part (data x) = billing_fixed_part x) ->
  map billing_fixed_part (update_where hit data l) = map billing_fixed_part l.
Proof.
  intros Hfix. unfold update_where. rewrite map_map. apply map_ext.
  intros x. destruct (hit x); [apply Hfix | reflexivity].
Qed.

Lemma billing_update_frame hit data db :
  (forall x, billing_fixed_part (data x) = billing_fixed_part x) ->
  same_but_billing_state db (attempt (Table.billing_update hit data db) db).
Proof.
  intros Hfix. unfold Table.billing_update, attempt, same_but_billing_state.
  destruct (find hit (billings db)); cbn [tenants users profiles applications billings].
  - repeat (split; [reflexivity|]). apply update_where_fixed_part. exact Hfix.
  - repeat (split; [reflexivity|]). reflexivity.
Qed.

Lemma same_but_billing_state_refl db : same_but_billing_state db db.
Proof. unfold same_but_billing_state. auto 6. Qed.

Lemma synchronizer_handlers_frame :
  (forall now subscription db,
     same_but_billing_state db (handleSubscriptionUpdated now subscription db)) /\
  (forall now subscription db,
     same_but_billing_state db (handleSubscriptionDeleted now subscription db)) /\
  (forall now invoice db,
     same_but_billing_state db (handleInvoicePaymentSucceeded now invoice db)) /\
  (forall invoice db,
     same_but_billing_state db (handleInvoicePaymentFailed invoice db)).
Proof.
  split; [|split; [|split]].
  - intros now subscription db. unfold handleSubscriptionUpdated.
    destruct (Table.billing_findUnique_subscription _ db) as [billing|];
      [|apply same_but_billing_state_refl].
    destruct (subscription_update_data now subscription billing) as [status cancelledAt].
    apply billing_update_frame. reflexivity.
  - intros now subscription db. unfold handleSubscriptionDeleted.
    destruct (Table.billing_findUnique_subscription _ db) as [billing|];
      [|apply same_but_billing_state_refl].
    apply billing_update_frame. reflexivity.
  - intros now invoice db. unfold handleInvoicePaymentSucceeded.
    destruct (invoice_subscription_id invoice); [|apply same_but_billing_state_refl].
    destruct (Table.billing_findUnique_subscription _ db) as [billing|];
      [|apply same_but_billing_state_refl].
    apply billing_update_frame. reflexivity.
  - intros invoice db. unfold handleInvoicePaymentFailed.
    destruct (invoice_subscription_id invoice); [|apply same_but_billing_state_refl].
    destruct (Table.billing_findUnique_subscription _ db) as [billing|];
      [|apply same_but_billing_state_refl].
    apply billing_update_frame. reflexivity.
Qed.

(** X6 -- A verified webhook event other than [checkout.session.completed]
    sends no mail, requests no refund and raises no alert; it adds and
    removes no row of any table, and on Billing rows it writes nothing but
    [status], [cancelledAt] and [nextBillingDate]. *)
Theorem subscription_events_frame secret event d s r s' :
  handleStripeWebhook secret (Some event) d s = (r, s') ->
  (forall session, event <> CheckoutSessionCompleted session) ->
  site_mails s' = site_mails s /\
  w_refunds (site_world s') = w_refunds (site_world s) /\
  w_alerts (site_world s') = w_alerts (site_world s) /\
  w_notices (site_world s') = w_notices (site_world s) /\
  same_but_billing_state (w_db (site_world s)) (w_db (site_world s')).
Proof.
  intros H Hev. unfold handleStripeWebhook in H.
  destruct secret; cbn [negb] in H.
  2:{ inversion H; subst. repeat (split; [reflexivity|]).
      apply same_but_billing_state_refl. }
  destruct synchronizer_handlers_frame as (Hu & Hd & Hs & Hf).
  destruct event as [session|subscription|subscription|invoice|invoice|type];
    inversion H; subst; cbn [on_db site_mails site_world with_db w_refunds
                             w_alerts w_notices w_db];
    try (repeat (split; [reflexivity|])).
  - exfalso. exact (Hev session eq_refl).
  - apply Hu.
  - apply Hd.
  - apply Hs.
  - apply Hf.
  - apply same_but_billing_state_refl.
Qed.

Lemma subscription_events_frame_witness :
  let d := {| dl_fault := None; dl_env := Sample.env_later; dl_refund := None;
              dl_now := newDate 2025 0 31 |} in
  let s := {| site_world := {| w_db := Scenario.db_monthly; w_refunds := [];
                               w_alerts := []; w_notices := [] |};
              site_mails := [] |} in
  let s' := snd (handleStripeWebhook true
                   (Some (InvoicePaymentSucceeded Scenario.invoice_m)) d s) in
  site_mails s' = site_mails s /\
  w_refunds (site_world s') = w_refunds (site_world s) /\
  w_alerts (site_world s') = w_alerts (site_world s) /\
  w_notices (site_world s') = w_notices (site_world s) /\
  same_but_billing_state (w_db (site_world s)) (w_db (site_world s')).
Proof.
  cbv zeta.
  eapply (subscription_events_frame true (InvoicePaymentSucceeded Scenario.invoice_m)).
  - apply surjective_pairing.
  - intros session. discriminate.
Defined.

(** ** Replayed and unusual subscription updates *)

Lemma update_where_idempotent {R} (hit : R -> bool) data (l : list R) :
  (forall x, hit (data x) = hit x) ->
  (forall x, data (data x) = data x) ->
  update_where hit data (update_where hit data l) = update_where hit data l.
Proof.
  intros Hhit Hdata. unfold update_where. rewrite map_map. apply map_ext.
  intros x. destruct (hit x) eqn:E.
  - rewrite Hhit, E. apply Hdata.
  - rewrite E. reflexivity.
Qed.

(** X7 -- A [subscription_updated] event with the cancel-at-period-end flag
    may be replayed at any later time: applying it again leaves the store
    exactly as the first application left it, so the recorded cancellation
    time does not move. *)
Theorem cancel_at_period_end_replay now1 now2 subscription db :
  sub_cancel_at_period_end subscription = true ->
  handleSubscriptionUpdated now2 subscription
    (handleSubscriptionUpdated now1 subscription db)
  = handleSubscriptionUpdated now1 subscription db.
Proof.
  intros Hflag.
  destruct (Table.billing_findUnique_subscription (sub_id subscription) db)
    as [billing|] eqn:Hfind.
  - pose proof (handleSubscriptionUpdated_after now1 subscription db billing Hfind)
      as Hafter.
    rewrite (handleSubscriptionUpdated_found now2 subscription _ _ Hafter).
    rewrite (handleSubscriptionUpdated_found now1 subscription db billing Hfind).
    cbn [tenants users profiles applications billings].
    f_equal. unfold subscription_update_data. rewrite Hflag.
    cbn [fst snd].
    destruct (bill_cancelledAt billing) as [t|];
      cbn [data_status_cancelledAt set_billing_cancelledAt bill_cancelledAt];
      apply update_where_idempotent; reflexivity.
  - assert (Hsame : handleSubscriptionUpdated now1 subscription db = db).
    { unfold handleSubscriptionUpdated. rewrite Hfind. reflexivity. }
    rewrite Hsame. unfold handleSubscriptionUpdated. rewrite Hfind. reflexivity.
Qed.

Lemma cancel_at_period_end_replay_witness :
  sub_cancel_at_period_end (Scenario.sub_m "active" true) = true /\
  handleSubscriptionUpdated (newDate 2025 5 1) (Scenario.sub_m "active" true)
    (handleSubscriptionUpdated (newDate 2025 0 10) (Scenario.sub_m "active" true)
       Scenario.db_monthly)
  = handleSubscriptionUpdated (newDate 2025 0 10) (Scenario.sub_m "active" true)
      Scenario.db_monthly.
Proof.
  split; [reflexivity|].
  apply (cancel_at_period_end_replay (newDate 2025 0 10) (newDate 2025 5 1)
           (Scenario.sub_m "active" true) Scenario.db_monthly).
  reflexivity.
Defined.

(** X8 -- A [subscription_updated] event without the flag whose status is
    none of 'past_due', 'canceled', 'unpaid' (for instance 'paused',
    'incomplete' or 'trialing') marks the matching Billing row 'active' and
    keeps its [cancelledAt]: a row that was cancelled becomes active with
    the old cancellation time still recorded, unless the status is 'active',
    which clears it. *)
Theorem other_status_marks_active now subscription db billing :
  sub_cancel_at_period_end subscription = false ->
  sub_status subscription <> "past_due" ->
  sub_status subscription <> "canceled" ->
  sub_status subscription <> "unpaid" ->
  Table.billing_findUnique_subscription (sub_id subscription) db = Some billing ->
  option_map (fun b => (bill_status b, bill_cancelledAt b))
    (Table.billing_findUnique_subscription (sub_id subscription)
       (handleSubscriptionUpdated now subscription db))
  = Some ("active",
          if String.eqb (sub_status subscription) "active" then None
          else bill_cancelledAt billing).
Proof.
  intros Hflag Hp Hc Hu Hfind.
  rewrite (handleSubscriptionUpdated_after now subscription db billing Hfind).
  unfold subscription_update_data. rewrite Hflag.
  apply String.eqb_neq in Hp, Hc, Hu. rewrite Hp, Hc, Hu. cbn [orb].
  destruct (String.eqb (sub_status subscription) "active"); reflexivity.
Qed.

Lemma other_status_marks_active_witness :
  sub_cancel_at_period_end (Scenario.sub_m "paused" false) = false /\
  Table.billing_findUnique_subscription "sub_m" Scenario.db_monthly_cancelled
    = Some Scenario.monthly_31_cancelled /\
  option_map (fun b => (bill_status b, bill_cancelledAt b))
    (Table.billing_findUnique_subscription "sub_m"
       (handleSubscriptionUpdated (newDate 2025 0 10) (Scenario.sub_m "paused" false)
          Scenario.db_monthly_cancelled))
  = Some ("active", Some (newDate 2024 11 1)).
Proof.
  split; [reflexivity|]. split; [reflexivity|].
  apply (other_status_marks_active (newDate 2025 0 10) (Scenario.sub_m "paused" false)
           Scenario.db_monthly_cancelled Scenario.monthly_31_cancelled);
    try reflexivity; discriminate.
Defined.

(** ** Access after the lifecycle events *)

Lemma find_user_after_sync data db billing :
  (forall x, bill_userId (data x) = bill_userId x) ->
  Table.billing_findUnique_user (bill_userId billing) db = Some billing ->
  Table.billing_findUnique_user (bill_userId billing)
    {| tenants := tenants db; users := users db; profiles := profiles db;
       applications := applications db;
       billings := update_where (has_id billing) data (billings db) |}
  = Some (data billing).
Proof.
  intros Hkeep Hfind. unfold Table.billing_findUnique_user in *. cbn [billings].
  apply (find_update_where _ (has_id billing)).
  - intros x. rewrite Hkeep. reflexivity.
  - exact Hfind.
  - unfold has_id. apply String.eqb_refl.
Qed.

(** X9 -- After [customer.subscription.deleted] the user of the matching
    Billing row is reported 'cancelled' and, as [nextBillingDate] is left in
    place, keeps access until that date: [hasAccess] is true before it and
    false from it on. *)
Theorem access_after_subscription_deleted now0 subscription db billing T :
  Table.billing_findUnique_subscription (sub_id subscription) db = Some billing ->
  Table.billing_findUnique_user (bill_userId billing) db = Some billing ->
  bill_nextBillingDate billing = Some T ->
  forall now, exists d,
    getSubscriptionStatus now (bill_userId billing)
      (handleSubscriptionDeleted now0 subscription db) = HasSubscription d /\
    ss_status d = "cancelled" /\
    ss_accessUntil d = Some T /\
    ss_hasAccess d = JsBoolean (now <? T).
Proof.
  intros Hsub Huser HT now.
  destruct (handleSubscriptionDeleted_found now0 subscription db billing Hsub)
    as (Hdb & _).
  rewrite Hdb.
  pose proof (find_user_after_sync (data_status_cancelledAt "cancelled" (Some now0))
                db billing (fun x => eq_refl) Huser) as Hfind.
  unfold getSubscriptionStatus. rewrite Hfind. eexists. split; [reflexivity|].
  cbn [ss_status ss_accessUntil ss_hasAccess]. split; [reflexivity|]. split.
  - cbn. exact HT.
  - unfold hasAccess. cbn. rewrite HT. reflexivity.
Qed.

Lemma access_after_subscription_deleted_witness :
  Table.billing_findUnique_subscription "sub_m" Scenario.db_monthly
    = Some Scenario.monthly_31 /\
  Table.billing_findUnique_user "usr_m" Scenario.db_monthly = Some Scenario.monthly_31 /\
  bill_nextBillingDate Scenario.monthly_31 = Some (newDate 2025 0 31) /\
  forall now, exists d,
    getSubscriptionStatus now "usr_m"
      (handleSubscriptionDeleted (newDate 2025 0 10) (Scenario.sub_m "canceled" false)
         Scenario.db_monthly) = HasSubscription d /\
    ss_status d = "cancelled" /\
    ss_accessUntil d = Some (newDate 2025 0 31) /\
    ss_hasAccess d = JsBoolean (now <? newDate 2025 0 31).
Proof.
  split; [reflexivity|]. split; [reflexivity|]. split; [reflexivity|].
  apply (access_after_subscription_deleted (newDate 2025 0 10)
           (Scenario.sub_m "canceled" false) Scenario.db_monthly Scenario.monthly_31);
    reflexivity.
Defined.

(** X10 -- After [invoice.payment_failed] the user of the matching Billing
    row is reported 'past_due' and has no access, at once and whatever the
    [nextBillingDate] still recorded. *)
Theorem no_access_after_payment_failed invoice sid db billing :
  invoice_subscription_id invoice = Some sid ->
  Table.billing_findUnique_subscription sid db = Some billing ->
  Table.billing_findUnique_user (bill_userId billing) db = Some billing ->
  forall now, exists d,
    getSubscriptionStatus now (bill_userId billing)
      (handleInvoicePaymentFailed invoice db) = HasSubscription d /\
    ss_status d = "past_due" /\
    ss_hasAccess d = JsBoolean false /\
    ss_canCancel d = false /\ ss_canReactivate d = false.
Proof.
  intros Hsid Hsub Huser now.
  destruct (handleInvoicePaymentFailed_found invoice sid db billing Hsid Hsub)
    as (Hdb & _).
  rewrite Hdb.
  pose proof (find_user_after_sync (set_billing_status "past_due")
                db billing (fun x => eq_refl) Huser) as Hfind.
  unfold getSubscriptionStatus. rewrite Hfind. eexists. split; [reflexivity|].
  cbn [ss_status ss_hasAccess ss_canCancel ss_canReactivate].
  split; [reflexivity|]. split; [reflexivity|].
  cbn [set_billing_status bill_status].
  change (String.eqb "past_due" "active") with false.
  change (String.eqb "past_due" "cancelled") with false.
  rewrite !andb_false_r. split; reflexivity.
Qed.

Lemma no_access_after_payment_failed_witness :
  invoice_subscription_id Scenario.invoice_m = Some "sub_m" /\
  Table.billing_findUnique_subscription "sub_m" Scenario.db_monthly
    = Some Scenario.monthly_31 /\
  Table.billing_findUnique_user "usr_m" Scenario.db_monthly = Some Scenario.monthly_31 /\
  forall now, exists d,
    getSubscriptionStatus now "usr_m"
      (handleInvoicePaymentFailed Scenario.invoice_m Scenario.db_monthly)
      = HasSubscription d /\
    ss_status d = "past_due" /\
    ss_hasAccess d = JsBoolean false /\
    ss_canCancel d = false /\ ss_canReactivate d = false.
Proof.
  split; [reflexivity|]. split; [reflexivity|]. split; [reflexivity|].
  apply (no_access_after_payment_failed Scenario.invoice_m "sub_m"
           Scenario.db_monthly Scenario.monthly_31); reflexivity.
Defined.

(** ** Cancelling and reactivating *)

Lemma cancelSubscription_ok_when now userId db billing :
  Table.billing_findUnique_user userId db = Some billing ->
  bill_status billing <> "cancelled" ->
  cancelSubscription now true userId db =
    (inr {| cr_success := true;
            cr_accessUntil := bill_nextBillingDate billing;
            cr_billing := data_status_cancelledAt "cancelled" (Some now) billing |},
     {| tenants := tenants db; users := users db; profiles := profiles db;
        applications := applications db;
        billings := update_where (fun b => String.eqb (bill_userId b) userId)
                      (data_status_cancelledAt "cancelled" (Some now)) (billings db) |}).
Proof.
  intros Hfind Hst. unfold cancelSubscription. rewrite Hfind.
  apply String.eqb_neq in Hst. rewrite Hst. cbn [negb]. rewrite andb_false_r.
  unfold Table.billing_findUnique_user in Hfind.
  rewrite (billing_update_found _ _ _ _ Hfind). reflexivity.
Qed.

Lemma reactivateSubscription_ok_when userId db billing :
  Table.billing_findUnique_user userId db = Some billing ->
  bill_status billing = "cancelled" ->
  reactivateSubscription true userId db =
    (inr (data_status_cancelledAt "active" None billing),
     {| tenants := tenants db; users := users db; profiles := profiles db;
        applications := applications db;
        billings := update_where (fun b => String.eqb (bill_userId b) userId)
                      (data_status_cancelledAt "active" None) (billings db) |}).
Proof.
  intros Hfind Hst. unfold reactivateSubscription. rewrite Hfind, Hst.
  cbn [negb]. change (String.eqb "cancelled" "cancelled") with true.
  cbn [negb]. rewrite andb_false_r.
  unfold Table.billing_findUnique_user in Hfind.
  rewrite (billing_update_found _ _ _ _ Hfind). reflexivity.
Qed.




Example cancel_then_reactivate_restores_store :
  snd (reactivateSubscription true "usr_m"
         (snd (cancelSubscription (newDate 2025 0 10) true "usr_m"
                 Scenario.db_monthly)))
  = Scenario.db_monthly.
Proof. reflexivity. Qed.

(** X12 -- A subscription cannot be cancelled twice: after a successful
    cancellation every further call, whatever the processor answers, fails
    with 'Subscription is already cancelled' and leaves the store, and so
    the recorded cancellation time, as it is. *)
Theorem second_cancellation_refused now stripe_ok userId db r db1 :
  cancelSubscription now stripe_ok userId db = (inr r, db1) ->
  forall now' stripe_ok',
    cancelSubscription now' stripe_ok' userId db1 = (inl AlreadyCancelled, db1).
Proof.
  intros Hc now' ok'.
  apply cancelSubscription_inr in Hc as (billing & _ & _ & _ & Hfind1 & _).
  unfold cancelSubscription. rewrite Hfind1. reflexivity.
Qed.

Lemma second_cancellation_refused_witness :
  let now := newDate 2025 0 10 in
  let r := {| cr_success := true;
              cr_accessUntil := Some (newDate 2025 0 31);
              cr_billing := data_status_cancelledAt "cancelled" (Some now)
                              Scenario.monthly_31 |} in
  let db1 := snd (cancelSubscription now true "usr_m" Scenario.db_monthly) in
  cancelSubscription now true "usr_m" Scenario.db_monthly = (inr r, db1) /\
  forall now' stripe_ok',
    cancelSubscription now' stripe_ok' "usr_m" db1 = (inl AlreadyCancelled, db1).
Proof.
  cbv zeta. split; [reflexivity|].
  eapply (second_cancellation_refused (newDate 2025 0 10) true "usr_m"
            Scenario.db_monthly).
  reflexivity.
Defined.

(** X13 -- The status query and the actions agree in one direction: when
    it reports [canCancel], [cancelSubscription] succeeds, and when it
    reports [canReactivate], [reactivateSubscription] succeeds (the
    processor accepting the call).  The query is stricter than the
    actions: a 'past_due' row is reported as not cancellable, yet
    [cancelSubscription] cancels it. *)
Theorem status_flags_allow_actions now userId db d :
  getSubscriptionStatus now userId db = HasSubscription d ->
  (ss_canCancel d = true ->
   forall now', exists r db',
     cancelSubscription now' true userId db = (inr r, db')) /\
  (ss_canReactivate d = true ->
   exists b db', reactivateSubscription true userId db = (inr b, db')) /\
  (ss_status d = "past_due" ->
   ss_canCancel d = false /\
   forall now', exists r db',
     cancelSubscription now' true userId db = (inr r, db')).
Proof.
  unfold getSubscriptionStatus.
  destruct (Table.billing_findUnique_user userId db) as [billing|] eqn:Hfind;
    [|discriminate].
  intros H. inversion H; subst d; clear H.
  cbn [ss_canCancel ss_canReactivate ss_status].
  split; [|split].
  - intros Hcan now'. apply andb_true_iff in Hcan as [_ Hact].
    apply String.eqb_eq in Hact.
    rewrite (cancelSubscription_ok_when now' userId db billing Hfind)
      by (rewrite Hact; discriminate).
    eauto.
  - intros Hcan. apply andb_true_iff in Hcan as [_ Hc].
    apply String.eqb_eq in Hc.
    rewrite (reactivateSubscription_ok_when userId db billing Hfind Hc). eauto.
  - intros Hpd. split.
    + rewrite Hpd. change (String.eqb "past_due" "active") with false.
      apply andb_false_r.
    + intros now'.
      rewrite (cancelSubscription_ok_when now' userId db billing Hfind)
        by (rewrite Hpd; discriminate).
      eauto.
Qed.

Lemma status_flags_allow_actions_witness :
  exists d,
    getSubscriptionStatus (newDate 2025 0 10) "usr_m" Scenario.db_monthly
      = HasSubscription d /\
    ss_canCancel d = true /\
    forall now', exists r db',
      cancelSubscription now' true "usr_m" Scenario.db_monthly = (inr r, db').
Proof.
  eexists. split; [reflexivity|]. split; [reflexivity|].
  exact (proj1 (status_flags_allow_actions (newDate 2025 0 10) "usr_m"
                  Scenario.db_monthly _ eq_refl) eq_refl).
Defined.

(** ** When the new-account branch goes through *)

Lemma existsb_false_of_find_none {R} (sel : R -> bool) (l : list R) :
  find sel l = None -> existsb sel l = false.
Proof.
  intros H. destruct (existsb sel l) eqn:E; [|reflexivity].
  apply existsb_exists in E as (x & Hin & Hs).
  apply (find_none _ _ H) in Hin. congruence.
Qed.

Lemma existsb_orb_false {R} (f g : R -> bool) (l : list R) :
  existsb (fun x => f x || g x) l = false ->
  existsb f l = false /\ existsb g l = false.
Proof.
  induction l as [|x l IH]; cbn; [auto|].
  intros H. apply orb_false_iff in H as [Hx Hl].
  apply orb_false_iff in Hx as [-> ->]. destruct (IH Hl) as [-> ->]. auto.
Qed.

Lemma existsb_app_false {R} (f : R -> bool) (l : list R) x :
  existsb f (l ++ [x]) = existsb f l || f x.
Proof. rewrite existsb_app. cbn. rewrite orb_false_r. reflexivity. Qed.

Lemma user_create_ok u db :
  Table.user_exists (user_id u) db = false ->
  existsb (fun r => String.eqb (user_email r) (user_email u)) (users db) = false ->
  existsb (fun t => String.eqb (tenant_id t) (user_tenantId u)) (tenants db) = true ->
  Table.user_create u db =
    inr (u, {| tenants := tenants db; users := users db ++ [u];
               profiles := profiles db; applications := applications db;
               billings := billings db |}).
Proof. intros H1 H2 H3. unfold Table.user_create. rewrite H1, H2, H3. reflexivity. Qed.

Lemma profile_create_ok p db :
  existsb (fun r => String.eqb (profile_id r) (profile_id p)) (profiles db) = false ->
  existsb (fun r => String.eqb (profile_userId r) (profile_userId p)) (profiles db)
    = false ->
  Table.user_exists (profile_userId p) db = true ->
  Table.profile_create p db =
    inr (p, {| tenants := tenants db; users := users db;
               profiles := profiles db ++ [p]; applications := applications db;
               billings := billings db |}).
Proof. intros H1 H2 H3. unfold Table.profile_create. rewrite H1, H2, H3. reflexivity. Qed.

Lemma billing_create_ok b db :
  existsb (fun r => String.eqb (bill_id r) (bill_id b)) (billings db) = false ->
  existsb (fun r => String.eqb (bill_userId r) (bill_userId b)) (billings db) = false ->
  existsb (fun r => String.eqb (bill_applicationId r) (bill_applicationId b))
          (billings db) = false ->
  existsb (fun r => String.eqb (bill_stripeCustomerId r) (bill_stripeCustomerId b))
          (billings db) = false ->
  match bill_stripeSubscriptionId b with
  | Some s => existsb (fun r => col_is (bill_stripeSubscriptionId r) s) (billings db)
  | None => false
  end = false ->
  Table.user_exists (bill_userId b) db = true ->
  Table.application_exists (bill_applicationId b) db = true ->
  Table.billing_create b db =
    inr (b, {| tenants := tenants db; users := users db;
               profiles := profiles db; applications := applications db;
               billings := billings db ++ [b] |}).
Proof.
  intros H1 H2 H3 H4 H5 H6 H7. unfold Table.billing_create.
  rewrite H1, H2, H3, H4, H5, H6, H7. reflexivity.
Qed.

Lemma application_link_fresh_ok uid t tp db app :
  In app (applications db) ->
  Table.user_exists uid db = true ->
  existsb (fun a => col_is (app_userId a) uid) (applications db) = false ->
  exists a,
    Table.application_update (app_id app) (link_application uid t tp) db =
      inr (a, {| tenants := tenants db; users := users db; profiles := profiles db;
                 applications :=
                   update_where (fun x => String.eqb (app_id x) (app_id app))
                     (link_application uid t tp) (applications db);
                 billings := billings db |}).
Proof.
  intros Hin Huser Hfree. unfold Table.application_update.
  destruct (find (fun a => String.eqb (app_id a) (app_id app)) (applications db))
    as [old|] eqn:Hold.
  - cbn [link_application app_userId].
    destruct (col_is (app_userId old) uid); [eauto|].
    assert (Hothers : existsb (fun a => negb (String.eqb (app_id a) (app_id app))
                                        && col_is (app_userId a) uid)
                              (applications db) = false).
    { destruct (existsb (fun a => negb (String.eqb (app_id a) (app_id app))
                                   && col_is (app_userId a) uid)
                        (applications db)) eqn:E; [|reflexivity].
      apply existsb_exists in E as (a & Ha & Hc).
      apply andb_true_iff in Hc as [_ Hc].
      assert (Hex : existsb (fun a => col_is (app_userId a) uid) (applications db) = true)
        by (apply existsb_exists; eauto).
      congruence. }
    rewrite Hothers, Huser. cbn [negb]. eauto.
  - exfalso. apply (find_none _ _ Hold) in Hin. cbn in Hin.
    rewrite String.eqb_refl in Hin. discriminate.
Qed.

Lemma user_exists_after_insert id db u t :
  Table.user_exists id
    {| tenants := t; users := users db ++ [u]; profiles := profiles db;
       applications := applications db; billings := billings db |}
  = Table.user_exists id db || String.eqb (user_id u) id.
Proof.
  unfold Table.user_exists. cbn [users].
  exact (existsb_app_false (fun r => String.eqb (user_id r) id) (users db) u).
Qed.

(** Run the next statement of a transaction that has no fault injected. *)
Ltac run_statement :=
  match goal with
  | |- context [statement ?op {| tx_db := ?d; tx_fault := None |}] =>
      rewrite (statement_no_fault op d)
  end;
  cbv beta iota.

Lemma provisioning_goes_through env sessionId session db app customer :
  Table.application_findFirst_session sessionId db = Some app ->
  customer_id (session_customer session) = Some customer ->
  provisionable env session app db = true ->
  processPaymentAndCreateUser None env sessionId session db =
    (inr (outcome_created (env_userId env) (app_email app) (env_tempPassword env)
            (app_firstName app) (app_lastName app)),
     provisioned_store env session app customer db).
Proof.
  intros Happ Hcust Hok. unfold provisionable in Hok. rewrite Hcust in Hok.
  repeat (apply andb_true_iff in Hok as [Hok ?]).
  repeat match goal with
         | H : negb _ = true |- _ => apply negb_true_iff in H
         end.
  rename Hok into Hproc, H3 into Hemail, H2 into Huid, H1 into Hprof,
         H0 into Hlinked, H into Hbill.
  assert (Hnouser : Table.user_findUnique_email (app_email app) db = None).
  { destruct (Table.user_findUnique_email (app_email app) db); [discriminate|reflexivity]. }
  apply existsb_orb_false in Hprof as [Hprof1 Hprof2].
  apply existsb_orb_false in Hbill as [Hbill Hbill5].
  apply existsb_orb_false in Hbill as [Hbill Hbill4].
  apply existsb_orb_false in Hbill as [Hbill Hbill3].
  apply existsb_orb_false in Hbill as [Hbill1 Hbill2].
  destruct (find_some _ _ Happ) as [Hin _].
  assert (Happ_exists : Table.application_exists (app_id app) db = true).
  { unfold Table.application_exists. apply existsb_exists. exists app.
    split; [exact Hin | apply String.eqb_refl]. }
  assert (Hmail : existsb (fun r => String.eqb (user_email r) (app_email app)) (users db)
                  = false).
  { apply existsb_false_of_find_none. exact Hnouser. }
  unfold processPaymentAndCreateUser, transaction, provisioning, getDefaultTenant,
    bind, query, ret.
  cbv beta.
  run_statement. rewrite Happ. cbv beta iota. rewrite Hproc. cbv beta iota.
  run_statement. rewrite Hnouser. cbv beta iota.
  run_statement.
  unfold Table.user_exists in Huid.
  unfold Table.application_exists in Happ_exists.
  unfold provisioned_store, provisioned_user, provisioned_profile,
    provisioned_billing, default_tenant, Table.tenant_findFirst.
  destruct (subscription_id_or_null (session_subscription session)) as [s|] eqn:Hsub;
    cbv beta iota in Hbill5.
  all: destruct (tenants db) as [|t0 ts] eqn:Ht; cbn [hd_error]; cbv beta iota.
  all: try (run_statement; unfold Table.tenant_create; rewrite Ht; cbn [existsb];
            cbv beta iota).
  all: run_statement;
    unfold Table.user_create, Table.user_exists;
    cbn [users tenants user_id user_email user_tenantId tenant_id List.app existsb];
    try rewrite Ht; cbn [existsb];
    rewrite Huid, Hmail, String.eqb_refl; cbn [orb negb]; cbv beta iota.
  all: run_statement;
    unfold Table.profile_create, Table.user_exists;
    cbn [users profiles profile_id profile_userId user_id];
    rewrite Hprof1, Hprof2, existsb_app, Huid; cbn [existsb user_id];
    rewrite String.eqb_refl; cbn [orb negb]; cbv beta iota.
  all: run_statement; rewrite Hcust;
    unfold Table.billing_create, Table.user_exists, Table.application_exists;
    cbn [users billings applications bill_id bill_userId bill_applicationId
         bill_stripeCustomerId bill_stripeSubscriptionId user_id];
    rewrite Hbill1, Hbill2, Hbill3, Hbill4, ?Hbill5, existsb_app, Huid, Happ_exists;
    cbn [existsb user_id]; rewrite String.eqb_refl; cbn [orb negb]; cbv beta iota.
  all: run_statement;
    match goal with
    | |- context [Table.application_update _ _ ?d] =>
        destruct (application_link_fresh_ok (env_userId env) (env_now_processed env)
                    (Some (env_hashedPassword env)) d app) as (a' & Hupd);
        [ exact Hin
        | unfold Table.user_exists; cbn [users]; rewrite existsb_app, Huid;
          cbn [existsb user_id]; rewrite String.eqb_refl; reflexivity
        | exact Hlinked
        | rewrite Hupd ]
    end;
    cbn [users profiles applications billings tenants user_id user_email];
    reflexivity.
Qed.

(** X14 -- The new-account branch goes through whenever the Application of
    the session is unprocessed, its e-mail address is unused, the
    identifiers generated for the User, Profile and Billing rows are unused,
    and the processor's customer and subscription are not attached to a
    Billing row yet.  The call then returns the credentials and leaves
    exactly one new User, Profile and Billing row (and the default tenant,
    when there was none), with the Application linked and marked
    processed. *)
Theorem new_account_is_provisioned env sessionId session db app customer :
  Table.application_findFirst_session sessionId db = Some app ->
  customer_id (session_customer session) = Some customer ->
  provisionable env session app db = true ->
  processPaymentAndCreateUser None env sessionId session db =
    (inr (outcome_created (env_userId env) (app_email app) (env_tempPassword env)
            (app_firstName app) (app_lastName app)),
     provisioned_store env session app customer db)
  /\
  Table.application_findFirst_session sessionId
    (provisioned_store env session app customer db)
  = Some (link_application (env_userId env) (env_now_processed env)
            (Some (env_hashedPassword env)) app).
Proof.
  intros Happ Hcust Hok. split.
  - apply provisioning_goes_through; assumption.
  - unfold Table.application_findFirst_session, provisioned_store in *.
    cbn [applications].
    apply (find_update_where _ (fun x => String.eqb (app_id x) (app_id app)));
      [reflexivity | exact Happ | apply String.eqb_refl].
Qed.

Lemma new_account_is_provisioned_witness :
  Table.application_findFirst_session "cs_1" Sample.db0 = Some Sample.ada /\
  customer_id (session_customer Sample.cs_1) = Some "cus_1" /\
  provisionable Sample.env_leap Sample.cs_1 Sample.ada Sample.db0 = true /\
  processPaymentAndCreateUser None Sample.env_leap "cs_1" Sample.cs_1 Sample.db0 =
    (inr (outcome_created (env_userId Sample.env_leap) (app_email Sample.ada)
            (env_tempPassword Sample.env_leap) (app_firstName Sample.ada)
            (app_lastName Sample.ada)),
     provisioned_store Sample.env_leap Sample.cs_1 Sample.ada "cus_1" Sample.db0)
  /\
  Table.application_findFirst_session "cs_1"
    (provisioned_store Sample.env_leap Sample.cs_1 Sample.ada "cus_1" Sample.db0)
  = Some (link_application (env_userId Sample.env_leap)
            (env_now_processed Sample.env_leap)
            (Some (env_hashedPassword Sample.env_leap)) Sample.ada).
Proof.
  split; [reflexivity|]. split; [reflexivity|]. split; [reflexivity|].
  apply (new_account_is_provisioned Sample.env_leap "cs_1" Sample.cs_1 Sample.db0
           Sample.ada "cus_1"); reflexivity.
Defined.

(** ** The default tenant *)

Lemma getDefaultTenant_tenants env st t st' :
  getDefaultTenant env st = (inr t, st') ->
  (tenants (tx_db st) = [] /\ t = default_tenant env /\
   tenants (tx_db st') = [default_tenant env])
  \/
  (hd_error (tenants (tx_db st)) = Some t /\
   tenants (tx_db st') = tenants (tx_db st)).
Proof.
  unfold getDefaultTenant. intros H. tx_step H.
  apply query_inr in Hstep as [-> Hdb].
  unfold Table.tenant_findFirst in H.
  destruct (tenants (tx_db st)) as [|t0 ts] eqn:Ht; cbn [hd_error] in H |- *.
  - left. apply statement_inr in H. apply tenant_create_inr in H.
    destruct H as (-> & Hten & _). rewrite Hdb, Ht in Hten.
    split; [reflexivity|]. split; [reflexivity|]. exact Hten.
  - right. apply ret_inr in H as [-> ->]. rewrite Hdb, Ht.
    split; reflexivity.
Qed.

Lemma processPayment_tenants fault env sessionId session db r db' :
  processPaymentAndCreateUser fault env sessionId session db = (r, db') ->
  tenants db' = tenants db \/
  (tenants db = [] /\ tenants db' = [default_tenant env]).
Proof.
  intros H. destruct r as [e|o].
  - apply processPayment_inl in H as [-> _]. left. reflexivity.
  - apply processPayment_inr in H as (st' & H & ->).
    unfold provisioning in H. tx_step H.
    apply query_inr in Hstep as [-> Hdb0]. cbn [tx_db] in Hdb0.
    destruct (Table.application_findFirst_session sessionId _) as [app|];
      [|discriminate].
    destruct (app_processed app).
    { apply ret_inr in H as [_ ->]. left. rewrite Hdb0. reflexivity. }
    tx_step H. apply query_inr in Hstep as [-> Hdb1].
    destruct (Table.user_findUnique_email _ _) as [u|].
    { tx_step H. apply ret_inr in H as [_ ->].
      apply statement_inr in Hstep. apply application_update_inr in Hstep.
      destruct Hstep as (Ht & _). left. rewrite Ht, Hdb1, Hdb0. reflexivity. }
    tx_step H. apply getDefaultTenant_tenants in Hstep.
    tx_step H. apply statement_inr in Hstep0. apply user_create_inr in Hstep0.
    tx_step H. apply statement_inr in Hstep1. apply profile_create_inr in Hstep1.
    tx_step H. apply statement_inr in Hstep2.
    destruct (customer_id (session_customer session)) as [customer|]; [|discriminate].
    apply billing_create_inr in Hstep2.
    tx_step H. apply statement_inr in Hstep3.
    apply application_update_inr in Hstep3. apply ret_inr in H as [_ ->].
    destruct Hstep0 as (_ & Ht2 & _). destruct Hstep1 as (_ & Ht3 & _).
    destruct Hstep2 as (_ & Ht4 & _). destruct Hstep3 as (Ht5 & _).
    rewrite Ht5, Ht4, Ht3, Ht2. rewrite Hdb1, Hdb0 in Hstep.
    destruct Hstep as [(He & _ & Hnew) | (_ & Hsame)].
    + right. auto.
    + left. exact Hsame.
Qed.

(** X15 -- Provisioning creates the default tenant only when the store has
    no tenant at all; a store that has a tenant keeps its tenants as they
    are, so repeated provisioning never adds a second one. *)
Theorem default_tenant_created_once fault env sessionId session db r db' :
  processPaymentAndCreateUser fault env sessionId session db = (r, db') ->
  (tenants db <> [] -> tenants db' = tenants db) /\
  (tenants db = [] -> tenants db' = [] \/ tenants db' = [default_tenant env]) /\
  (forall fault2 env2 sessionId2 session2 r2 db'',
     processPaymentAndCreateUser fault2 env2 sessionId2 session2 db' = (r2, db'') ->
     tenants db' <> [] -> tenants db'' = tenants db').
Proof.
  intros H. split; [|split].
  - intros Hne. destruct (processPayment_tenants _ _ _ _ _ _ _ H) as [Hs|[He _]];
      [exact Hs | contradiction].
  - intros He. destruct (processPayment_tenants _ _ _ _ _ _ _ H) as [Hs|[_ Hn]].
    + left. rewrite Hs. exact He.
    + right. exact Hn.
  - intros fault2 env2 sid2 session2 r2 db'' H2 Hne.
    destruct (processPayment_tenants _ _ _ _ _ _ _ H2) as [Hs|[He _]];
      [exact Hs | contradiction].
Qed.

Lemma default_tenant_created_once_witness :
  processPaymentAndCreateUser None Sample.env_leap "cs_1" Sample.cs_1 Sample.db0
    = (inr Sample.ada_created, Sample.db1) /\
  tenants Sample.db0 = [] /\
  tenants Sample.db1 = [default_tenant Sample.env_leap] /\
  tenants (snd (processPaymentAndCreateUser None Sample.env_later "cs_2" Sample.cs_2
                  Sample.db2)) = tenants Sample.db2.
Proof.
  split; [reflexivity|]. split; [reflexivity|]. split; [reflexivity|].
  destruct (default_tenant_created_once None Sample.env_later "cs_2" Sample.cs_2
              Sample.db2 _ _ (surjective_pairing _)) as (Hkeep & _).
  apply Hkeep. discriminate.
Defined.

(** ** Invariants of the store *)

Lemma application_exists_update id hit data db t u p b :
  (forall a, app_id (data a) = app_id a) ->
  Table.application_exists id
    {| tenants := t; users := u; profiles := p;
       applications := update_where hit data (applications db); billings := b |}
  = Table.application_exists id db.
Proof.
  intros Hid. unfold Table.application_exists, update_where. cbn [applications].
  induction (applications db) as [|a l IH]; cbn; [reflexivity|].
  rewrite IH. destruct (hit a); [rewrite Hid|]; reflexivity.
Qed.

Lemma existsb_update_where_id {R} (key : R -> string) id hit data (l : list R) :
  (forall a, key (data a) = key a) ->
  existsb (fun a => String.eqb (key a) id) (update_where hit data l)
  = existsb (fun a => String.eqb (key a) id) l.
Proof.
  intros Hid. unfold update_where.
  induction l as [|a l IH]; cbn; [reflexivity|].
  rewrite IH. destruct (hit a); [rewrite Hid|]; reflexivity.
Qed.

Lemma cancel_reactivate_frame :
  (forall now ok userId db r db',
     cancelSubscription now ok userId db = (r, db') -> same_but_billing_state db db') /\
  (forall ok userId db r db',
     reactivateSubscription ok userId db = (r, db') -> same_but_billing_state db db').
Proof.
  split.
  - intros now ok userId db r db' H. unfold cancelSubscription in H.
    destruct (Table.billing_findUnique_user userId db) as [billing|];
      [|inversion H; subst; apply same_but_billing_state_refl].
    destruct (String.eqb (bill_status billing) "cancelled");
      [inversion H; subst; apply same_but_billing_state_refl|].
    destruct (is_some _ && negb ok);
      [inversion H; subst; apply same_but_billing_state_refl|].
    destruct (Table.billing_update _ _ db) as [e|[row d]] eqn:E;
      inversion H; subst; [apply same_but_billing_state_refl|].
    apply billing_update_inr in E as (Ht & Hu & Hp & Ha & Hb).
    unfold same_but_billing_state. rewrite Ht, Hu, Hp, Ha, Hb.
    repeat (split; [reflexivity|]). apply update_where_fixed_part. reflexivity.
  - intros ok userId db r db' H. unfold reactivateSubscription in H.
    destruct (Table.billing_findUnique_user userId db) as [billing|];
      [|inversion H; subst; apply same_but_billing_state_refl].
    destruct (negb (String.eqb (bill_status billing) "cancelled"));
      [inversion H; subst; apply same_but_billing_state_refl|].
    destruct (is_some _ && negb ok);
      [inversion H; subst; apply same_but_billing_state_refl|].
    destruct (Table.billing_update _ _ db) as [e|[row d]] eqn:E;
      inversion H; subst; [apply same_but_billing_state_refl|].
    apply billing_update_inr in E as (Ht & Hu & Hp & Ha & Hb).
    unfold same_but_billing_state. rewrite Ht, Hu, Hp, Ha, Hb.
    repeat (split; [reflexivity|]). apply update_where_fixed_part. reflexivity.
Qed.

Lemma Forall_fixed_part (Q : string -> string -> Prop) (l l' : list Billing) :
  map billing_fixed_part l' = map billing_fixed_part l ->
  Forall (fun b => Q (bill_userId b) (bill_applicationId b)) l ->
  Forall (fun b => Q (bill_userId b) (bill_applicationId b)) l'.
Proof.
  revert l'. induction l as [|b l IH]; intros [|b' l'] Hmap Hall; cbn in Hmap;
    try discriminate; [constructor|].
  injection Hmap as Hb Hl. inversion Hall as [|? ? Hq Hrest]; subst.
  constructor.
  - assert (Hu : bill_userId b' = bill_userId b)
      by (unfold billing_fixed_part in Hb; congruence).
    assert (Ha : bill_applicationId b' = bill_applicationId b)
      by (unfold billing_fixed_part in Hb; congruence).
    rewrite Hu, Ha. exact Hq.
  - apply IH; assumption.
Qed.

Lemma references_ok_frame db db' :
  same_but_billing_state db db' -> references_ok db -> references_ok db'.
Proof.
  intros (Ht & Hu & Hp & Ha & Hb) [Hbill Hprof].
  unfold references_ok, Table.user_exists, Table.application_exists in *.
  rewrite Hu, Hp, Ha. split; [|exact Hprof].
  exact (Forall_fixed_part
           (fun uid aid =>
              existsb (fun u => String.eqb (user_id u) uid) (users db) = true /\
              existsb (fun a => String.eqb (app_id a) aid) (applications db) = true)
           _ _ Hb Hbill).
Qed.

Lemma references_ok_provisioning fault env sessionId session db r db' :
  processPaymentAndCreateUser fault env sessionId session db = (r, db') ->
  references_ok db -> references_ok db'.
Proof.
  intros H Hok. destruct r as [e|o].
  - apply processPayment_inl in H as [-> _]. exact Hok.
  - apply processPayment_inr in H as (st' & H & ->).
    apply provisioning_inr in H as (app & Happ & Hcase). cbn [tx_db] in *.
    destruct Hok as [Hbill Hprof].
    destruct (find_some _ _ Happ) as [Hin _].
    destruct Hcase as [(_ & _ & ->) | [(_ & u & _ & _ & (Hu & Hp & Hb) & Ha)
        | (_ & _ & u & p & b & _ & Hu & Hp & Hb & _ & Hpu & Hbu & Hba & _ & _ & _ & _ & Ha)]].
    + split; assumption.
    + unfold references_ok, Table.user_exists, Table.application_exists in *.
      rewrite Hu, Hp, Hb, Ha. split; [|exact Hprof].
      apply Forall_impl with (2 := Hbill). intros x [Hx1 Hx2]. split; [exact Hx1|].
      rewrite (existsb_update_where_id app_id); [exact Hx2 | reflexivity].
    + unfold references_ok, Table.user_exists, Table.application_exists in *.
      rewrite Hu, Hp, Hb, Ha. split.
      * apply Forall_app. split.
        -- apply Forall_impl with (2 := Hbill). intros x [Hx1 Hx2]. split.
           ++ rewrite existsb_app, Hx1. reflexivity.
           ++ rewrite (existsb_update_where_id app_id); [exact Hx2 | reflexivity].
        -- constructor; [|constructor]. split.
           ++ rewrite existsb_app, Hbu. cbn. rewrite String.eqb_refl.
              apply orb_true_iff. right. reflexivity.
           ++ rewrite (existsb_update_where_id app_id); [|reflexivity].
              rewrite Hba. apply existsb_exists. exists app.
              split; [exact Hin | apply String.eqb_refl].
      * apply Forall_app. split.
        -- apply Forall_impl with (2 := Hprof). intros x Hx.
           rewrite existsb_app, Hx. reflexivity.
        -- constructor; [|constructor].
           rewrite existsb_app, Hpu. cbn. rewrite String.eqb_refl.
           apply orb_true_iff. right. reflexivity.
Qed.

Lemma billing_step_frame_or_provisioning db db' :
  billing_step db db' ->
  same_but_billing_state db db' \/
  exists fault env sessionId session r,
    processPaymentAndCreateUser fault env sessionId session db = (r, db').
Proof.
  destruct synchronizer_handlers_frame as (Hu & Hd & Hs & Hf).
  destruct cancel_reactivate_frame as (Hc & Hr).
  intros Hstep. destruct Hstep as
    [fault env sid session db r db' H | now subscription db | now subscription db
    | now invoice db | invoice db | now ok userId db r db' H | ok userId db r db' H].
  - right. eauto 6.
  - left. apply Hu.
  - left. apply Hd.
  - left. apply Hs.
  - left. apply Hf.
  - left. eapply Hc. exact H.
  - left. eapply Hr. exact H.
Qed.

(** X16 -- Referential integrity is kept by every operation on Billing
    (provisioning, the synchronizer's handlers, cancel and reactivate): if
    every Billing row points to a stored User and a stored Application and
    every Profile row to a stored User, the same holds afterwards; no
    Profile or Billing row is ever left without its User. *)
Theorem references_preserved db db' :
  billing_step db db' -> references_ok db -> references_ok db'.
Proof.
  intros Hstep Hok.
  destruct (billing_step_frame_or_provisioning db db' Hstep)
    as [Hframe | (fault & env & sid & session & r & H)].
  - exact (references_ok_frame db db' Hframe Hok).
  - exact (references_ok_provisioning _ _ _ _ _ _ _ H Hok).
Qed.

Lemma references_preserved_witness :
  billing_step Sample.db0 Sample.db1 /\
  references_ok Sample.db0 /\
  references_ok Sample.db1.
Proof.
  assert (Hstep : billing_step Sample.db0 Sample.db1).
  { apply (step_provision None Sample.env_leap "cs_1" Sample.cs_1 Sample.db0
             (inr Sample.ada_created)). reflexivity. }
  assert (Hok : references_ok Sample.db0).
  { split; constructor. }
  split; [exact Hstep|]. split; [exact Hok|].
  exact (references_preserved Sample.db0 Sample.db1 Hstep Hok).
Defined.

(** X17 -- No two users ever share an e-mail address: every operation on
    Billing, provisioning included, keeps the e-mail addresses of the stored
    users distinct. *)
Theorem emails_stay_unique db db' :
  billing_step db db' -> emails_unique db -> emails_unique db'.
Proof.
  intros Hstep Hok.
  destruct (billing_step_frame_or_provisioning db db' Hstep)
    as [(_ & Hu & _) | (fault & env & sid & session & r & H)].
  - unfold emails_unique. rewrite Hu. exact Hok.
  - destruct r as [e|o].
    + apply processPayment_inl in H as [-> _]. exact Hok.
    + apply processPayment_inr in H as (st' & H & ->).
      apply provisioning_inr in H as (app & Happ & Hcase). cbn [tx_db] in *.
      unfold emails_unique in *.
      destruct Hcase as [(_ & _ & ->) | [(_ & u & _ & _ & (Hu & _) & _)
          | (_ & Hnone & u & p & b & _ & Hu & _ & _ & Hmail & _)]].
      * exact Hok.
      * rewrite Hu. exact Hok.
      * rewrite Hu, map_app. cbn [map]. apply NoDup_snoc; [exact Hok|].
        intros Hin. apply in_map_iff in Hin as (x & Hx & Hinx).
        unfold Table.user_findUnique_email in Hnone.
        apply (find_none _ _ Hnone) in Hinx.
        rewrite Hx, Hmail, String.eqb_refl in Hinx. discriminate.
Qed.

Lemma emails_stay_unique_witness :
  billing_step Sample.db0 Sample.db1 /\
  emails_unique Sample.db0 /\
  emails_unique Sample.db1.
Proof.
  assert (Hstep : billing_step Sample.db0 Sample.db1).
  { apply (step_provision None Sample.env_leap "cs_1" Sample.cs_1 Sample.db0
             (inr Sample.ada_created)). reflexivity. }
  assert (Hok : emails_unique Sample.db0) by constructor.
  split; [exact Hstep|]. split; [exact Hok|].
  exact (emails_stay_unique Sample.db0 Sample.db1 Hstep Hok).
Defined.

(** ** Creating a checkout session *)

Lemma find_snoc_miss {R} (sel : R -> bool) (l : list R) x :
  sel x = false -> find sel (l ++ [x]) = find sel l.
Proof.
  intros Hx. induction l as [|y l IH]; cbn; [rewrite Hx; reflexivity|].
  destruct (sel y); [reflexivity | exact IH].
Qed.

Lemma find_snoc_new {R} (sel : R -> bool) (l : list R) x :
  find sel l = None -> sel x = true -> find sel (l ++ [x]) = Some x.
Proof.
  intros Hl Hx. induction l as [|y l IH]; cbn in *; [rewrite Hx; reflexivity|].
  destruct (sel y); [discriminate | exact (IH Hl)].
Qed.

Lemma find_none_of_existsb {R} (f g : R -> bool) (l : list R) :
  existsb f l = false -> (forall x, g x = true -> f x = true) -> find g l = None.
Proof.
  intros Hf Himp. induction l as [|y l IH]; cbn in *; [reflexivity|].
  apply orb_false_iff in Hf as [Hy Hl].
  destruct (g y) eqn:E; [apply Himp in E; congruence | exact (IH Hl)].
Qed.

Lemma find_some_of_existsb {R} (f : R -> bool) (l : list R) :
  existsb f l = true -> exists x, find f l = Some x /\ f x = true.
Proof.
  induction l as [|y l IH]; cbn; [discriminate|].
  destruct (f y) eqn:E; [eauto|]. exact IH.
Qed.

Lemma update_where_snoc_fresh {R} (hit : R -> bool) (data : R -> R) (l : list R) x :
  existsb hit l = false -> hit x = true ->
  update_where hit data (l ++ [x]) = l ++ [data x].
Proof.
  intros Hl Hx. unfold update_where. rewrite map_app. cbn. rewrite Hx. f_equal.
  induction l as [|y l IH]; cbn in *; [reflexivity|].
  apply orb_false_iff in Hl as [-> Hl]. rewrite (IH Hl). reflexivity.
Qed.

Lemma createCheckoutSession_stripe_fails applicationId createDto db :
  Table.application_exists applicationId db = false ->
  createCheckoutSession applicationId None createDto db =
    (inl StripeFailure,
     {| tenants := tenants db; users := users db; profiles := profiles db;
        applications := applications db ++ [new_application applicationId createDto];
        billings := billings db |}).
Proof.
  intros H. unfold createCheckoutSession, application_create.
  cbn [new_application app_id]. rewrite H. reflexivity.
Qed.

Lemma createCheckoutSession_recorded applicationId handle createDto db :
  Table.application_exists applicationId db = false ->
  createCheckoutSession applicationId (Some handle) createDto db =
    (inr handle,
     {| tenants := tenants db; users := users db; profiles := profiles db;
        applications :=
          applications db ++
          [set_application_session (ch_sessionId handle)
             (new_application applicationId createDto)];
        billings := billings db |}).
Proof.
  intros H. unfold createCheckoutSession, application_create.
  cbn [new_application app_id]. rewrite H. cbv beta iota.
  assert (Hnone : find (fun a => String.eqb (app_id a) applicationId) (applications db)
                  = None).
  { unfold Table.application_exists in H. apply (find_none_of_existsb _ _ _ H). auto. }
  unfold Table.application_update.
  cbn [applications tenants users profiles billings app_id].
  rewrite (find_snoc_new _ _ _ Hnone) by (cbn [app_id]; apply String.eqb_refl).
  cbv zeta. cbn [set_application_session app_userId].
  rewrite update_where_snoc_fresh;
    [reflexivity | exact H | cbn [app_id]; apply String.eqb_refl].
Qed.

Lemma processPayment_unknown fault env sessionId session db :
  Table.application_findFirst_session sessionId db = None ->
  exists e, processPaymentAndCreateUser fault env sessionId session db = (inl e, db).
Proof.
  intros H. unfold processPaymentAndCreateUser, transaction, provisioning, bind, query,
    statement, throw.
  cbn [tx_fault tx_db]. destruct fault as [[|n]|]; rewrite ?H; eauto.
Qed.

(** X18 -- When the processor refuses to create the checkout session, the
    Application row written before the call stays in the store, pending and
    without a session reference.  No session identifier finds it, so no
    later payment verification or webhook delivery can process it. *)
Theorem checkout_stranded_when_stripe_fails applicationId createDto db :
  Table.application_exists applicationId db = false ->
  exists db',
    createCheckoutSession applicationId None createDto db = (inl StripeFailure, db') /\
    applications db' = applications db ++ [new_application applicationId createDto] /\
    (forall sessionId,
       Table.application_findFirst_session sessionId db' =
       Table.application_findFirst_session sessionId db) /\
    (forall fault env sessionId session,
       Table.application_findFirst_session sessionId db = None ->
       exists e,
         processPaymentAndCreateUser fault env sessionId session db' = (inl e, db')).
Proof.
  intros Hfresh. eexists. split; [apply createCheckoutSession_stripe_fails, Hfresh|].
  split; [reflexivity|].
  assert (Hsame : forall sessionId,
            Table.application_findFirst_session sessionId
              {| tenants := tenants db; users := users db; profiles := profiles db;
                 applications := applications db ++ [new_application applicationId createDto];
                 billings := billings db |} =
            Table.application_findFirst_session sessionId db).
  { intros sessionId. unfold Table.application_findFirst_session. cbn [applications].
    apply find_snoc_miss. reflexivity. }
  split; [exact Hsame|].
  intros fault env sessionId session Hnone.
  apply processPayment_unknown. rewrite Hsame. exact Hnone.
Qed.

Lemma checkout_stranded_when_stripe_fails_witness :
  exists db',
    createCheckoutSession "app_7" None Scenario.dto_grace Scenario.empty_db
      = (inl StripeFailure, db') /\
    applications db' = [new_application "app_7" Scenario.dto_grace] /\
    Table.application_findFirst_session "cs_7" db' = None.
Proof.
  destruct (checkout_stranded_when_stripe_fails "app_7" Scenario.dto_grace
              Scenario.empty_db eq_refl) as (db' & Hrun & Happs & Hfind & _).
  exists db'. split; [exact Hrun|]. split; [exact Happs|].
  rewrite Hfind. reflexivity.
Defined.

(** X19 -- A checkout whose session the processor creates stores exactly
    one new Application: pending, unprocessed, not linked to a user, and
    carrying the session identifier, under which it is found afterwards
    (the identifier being new to the store).  The caller gets the
    processor's session identifier and URL back. *)
Theorem checkout_session_is_recorded applicationId handle createDto db :
  Table.application_exists applicationId db = false ->
  Table.application_findFirst_session (ch_sessionId handle) db = None ->
  exists db',
    createCheckoutSession applicationId (Some handle) createDto db = (inr handle, db') /\
    applications db' =
      applications db ++
      [set_application_session (ch_sessionId handle)
         (new_application applicationId createDto)] /\
    Table.application_findFirst_session (ch_sessionId handle) db' =
      Some (set_application_session (ch_sessionId handle)
              (new_application applicationId createDto)) /\
    tenants db' = tenants db /\ users db' = users db /\
    profiles db' = profiles db /\ billings db' = billings db.
Proof.
  intros Hfresh Hunused. eexists.
  split; [apply createCheckoutSession_recorded, Hfresh|].
  split; [reflexivity|]. split; [|auto].
  unfold Table.application_findFirst_session in *. cbn [applications].
  apply find_snoc_new; [exact Hunused|].
  cbn [set_application_session app_stripeSessionId col_is]. apply String.eqb_refl.
Qed.

Lemma checkout_session_is_recorded_witness :
  exists db',
    createCheckoutSession "app_7" (Some Scenario.handle_7) Scenario.dto_grace
      Scenario.empty_db = (inr Scenario.handle_7, db') /\
    app_status
      (set_application_session "cs_7" (new_application "app_7" Scenario.dto_grace))
      = "pending" /\
    Table.application_findFirst_session "cs_7" db' =
      Some (set_application_session "cs_7" (new_application "app_7" Scenario.dto_grace)).
Proof.
  destruct (checkout_session_is_recorded "app_7" Scenario.handle_7 Scenario.dto_grace
              Scenario.empty_db eq_refl eq_refl) as (db' & Hrun & _ & Hfind & _).
  exists db'. split; [exact Hrun|]. split; [reflexivity | exact Hfind].
Defined.

(** ** From checkout to the Billing row *)

Lemma provisionable_parts env session app db customer :
  customer_id (session_customer session) = Some customer ->
  provisionable env session app db = true ->
  app_processed app = false /\
  Table.user_findUnique_email (app_email app) db = None /\
  Table.user_exists (env_userId env) db = false /\
  existsb (fun b => String.eqb (bill_userId b) (env_userId env)) (billings db) = false /\
  existsb (fun b => String.eqb (bill_applicationId b) (app_id app)) (billings db) = false.
Proof.
  intros Hcust Hok. unfold provisionable in Hok. rewrite Hcust in Hok.
  apply andb_true_iff in Hok as [Hok Hbill].
  apply andb_true_iff in Hok as [Hok _].
  apply andb_true_iff in Hok as [Hok _].
  apply andb_true_iff in Hok as [Hok Huid].
  apply andb_true_iff in Hok as [Hproc Hemail].
  apply negb_true_iff in Hbill, Huid, Hproc, Hemail.
  apply existsb_orb_false in Hbill as [Hbill _].
  apply existsb_orb_false in Hbill as [Hbill _].
  apply existsb_orb_false in Hbill as [Hbill Happ].
  apply existsb_orb_false in Hbill as [_ Huser].
  split; [exact Hproc|]. split.
  { destruct (Table.user_findUnique_email (app_email app) db);
      [discriminate | reflexivity]. }
  auto.
Qed.

Lemma provisioned_billing_found env session app db customer :
  customer_id (session_customer session) = Some customer ->
  provisionable env session app db = true ->
  Table.billing_findUnique_user (env_userId env)
    (provisioned_store env session app customer db)
    = Some (provisioned_billing env session app customer) /\
  billing_of_application (app_id app) (provisioned_store env session app customer db)
    = Some (provisioned_billing env session app customer).
Proof.
  intros Hcust Hok.
  destruct (provisionable_parts env session app db customer Hcust Hok)
    as (_ & _ & _ & Huser & Happ).
  unfold Table.billing_findUnique_user, billing_of_application, provisioned_store.
  cbn [billings]. split.
  - apply find_snoc_new;
      [apply (find_none_of_existsb _ _ _ Huser); auto | apply String.eqb_refl].
  - apply find_snoc_new;
      [apply (find_none_of_existsb _ _ _ Happ); auto | apply String.eqb_refl].
Qed.

Lemma linked_application_found env session sessionId app db customer :
  Table.application_findFirst_session sessionId db = Some app ->
  Table.application_findFirst_session sessionId
    (provisioned_store env session app customer db)
  = Some (link_application (env_userId env) (env_now_processed env)
            (Some (env_hashedPassword env)) app).
Proof.
  intros Happ. unfold Table.application_findFirst_session, provisioned_store in *.
  cbn [applications].
  apply (find_update_where _ (fun x => String.eqb (app_id x) (app_id app)));
    [reflexivity | exact Happ | apply String.eqb_refl].
Qed.

Lemma provisioned_amounts env session applicationId sessionId createDto customer :
  dto_paymentPlan createDto = "monthly" \/ dto_paymentPlan createDto = "annual" ->
  let b := provisioned_billing env session
             (set_application_session sessionId
                (new_application applicationId createDto)) customer in
  bill_billingType b = dto_paymentPlan createDto /\
  bill_initialAmount b = Some (checkout_total (lineItems createDto)) /\
  option_map (fun r => [r]) (bill_recurringAmount b) =
    Some (map li_unit_amount
            (filter (fun i => is_some (li_interval i)) (lineItems createDto))).
Proof.
  intros Hplan. destruct createDto as [e f l a p cd plan].
  cbn [dto_paymentPlan] in Hplan.
  unfold provisioned_billing, lineItems, checkout_total.
  cbn [bill_initialAmount bill_recurringAmount bill_billingType
       set_application_session new_application app_paymentPlan app_customDesign
       dto_paymentPlan dto_customDesign].
  destruct Hplan as [-> | ->]; destruct cd; repeat split; reflexivity.
Qed.

(** X20 -- What the customer is charged at checkout is what the Billing row
    records: for a request with plan 'monthly' or 'annual' (the values the
    request validation admits), provisioning the Application that the
    checkout stored yields a Billing row for it whose billing type is the
    plan, whose initial amount is the sum of the line items sent to the
    processor, and whose recurring amount is the price of the one recurring
    line item. *)
Theorem checkout_amounts_recorded env applicationId handle createDto session customer db :
  dto_paymentPlan createDto = "monthly" \/ dto_paymentPlan createDto = "annual" ->
  Table.application_exists applicationId db = false ->
  Table.application_findFirst_session (ch_sessionId handle) db = None ->
  customer_id (session_customer session) = Some customer ->
  provisionable env session
    (set_application_session (ch_sessionId handle)
       (new_application applicationId createDto))
    (snd (createCheckoutSession applicationId (Some handle) createDto db)) = true ->
  exists db1 db2 o b,
    createCheckoutSession applicationId (Some handle) createDto db = (inr handle, db1) /\
    processPaymentAndCreateUser None env (ch_sessionId handle) session db1 = (inr o, db2) /\
    billing_of_application applicationId db2 = Some b /\
    bill_billingType b = dto_paymentPlan createDto /\
    bill_initialAmount b = Some (checkout_total (lineItems createDto)) /\
    option_map (fun r => [r]) (bill_recurringAmount b) =
      Some (map li_unit_amount
              (filter (fun i => is_some (li_interval i)) (lineItems createDto))).
Proof.
  intros Hplan Hfresh Hunused Hcust Hok.
  rewrite (createCheckoutSession_recorded applicationId handle createDto db Hfresh) in Hok.
  cbn [snd] in Hok.
  set (app := set_application_session (ch_sessionId handle)
                (new_application applicationId createDto)) in *.
  set (db1 := {| tenants := tenants db; users := users db; profiles := profiles db;
                 applications := applications db ++ [app];
                 billings := billings db |}) in *.
  assert (Hfind : Table.application_findFirst_session (ch_sessionId handle) db1 = Some app).
  { unfold Table.application_findFirst_session in *. cbn [applications db1].
    apply find_snoc_new; [exact Hunused|].
    cbn [app set_application_session app_stripeSessionId col_is]. apply String.eqb_refl. }
  exists db1, (provisioned_store env session app customer db1),
    (outcome_created (env_userId env) (app_email app) (env_tempPassword env)
       (app_firstName app) (app_lastName app)),
    (provisioned_billing env session app customer).
  split; [apply createCheckoutSession_recorded, Hfresh|].
  split; [apply provisioning_goes_through; assumption|].
  split.
  { exact (proj2 (provisioned_billing_found env session app db1 customer Hcust Hok)). }
  exact (provisioned_amounts env session applicationId (ch_sessionId handle) createDto
           customer Hplan).
Qed.

Lemma checkout_amounts_recorded_witness :
  exists db1 db2 o b,
    createCheckoutSession "app_7" (Some Scenario.handle_7) Scenario.dto_grace
      Scenario.empty_db = (inr Scenario.handle_7, db1) /\
    processPaymentAndCreateUser None Sample.env_leap "cs_7" Scenario.cs_7 db1
      = (inr o, db2) /\
    billing_of_application "app_7" db2 = Some b /\
    bill_billingType b = "monthly" /\
    bill_initialAmount b = Some 18399 /\
    option_map (fun r => [r]) (bill_recurringAmount b) = Some [2499].
Proof.
  exact (checkout_amounts_recorded Sample.env_leap "app_7" Scenario.handle_7
           Scenario.dto_grace Scenario.cs_7 "cus_7" Scenario.empty_db
           (or_introl eq_refl) eq_refl eq_refl eq_refl eq_refl).
Defined.

(** ** The billing service on a fresh account *)

(** X21 -- For an account provisioned with plan 'monthly' or 'annual',
    [getBillingInfo] of the new user succeeds and reports the amounts that
    [calculatePricing] quotes for that plan and design option: setup fee,
    design fee, recurring amount and initial amount, with status 'active'
    and the e-mail address of the Application. *)
Theorem billing_info_after_provisioning env session sessionId app customer db :
  app_paymentPlan app = "monthly" \/ app_paymentPlan app = "annual" ->
  Table.application_findFirst_session sessionId db = Some app ->
  customer_id (session_customer session) = Some customer ->
  provisionable env session app db = true ->
  exists info,
    getBillingInfo (env_userId env) (provisioned_store env session app customer db)
      = inr info /\
    bi_initialAmount info =
      pr_initialAmount (calculatePricing (app_paymentPlan app) (app_customDesign app)) /\
    bi_recurringAmount info =
      pr_recurringAmount (calculatePricing (app_paymentPlan app) (app_customDesign app)) /\
    bi_setupFee info =
      pr_setupFee (calculatePricing (app_paymentPlan app) (app_customDesign app)) /\
    bi_customDesignFee info =
      pr_customDesignFee (calculatePricing (app_paymentPlan app) (app_customDesign app)) /\
    bi_billingType info = app_paymentPlan app /\
    bi_status info = "active" /\
    bi_customerEmail info = app_email app.
Proof.
  intros Hplan Happ Hcust Hok.
  destruct (provisioned_billing_found env session app db customer Hcust Hok) as [Hbill _].
  destruct (provisionable_parts env session app db customer Hcust Hok)
    as (_ & _ & Huid & _ & _).
  unfold getBillingInfo. rewrite Hbill.
  assert (Huser : find (fun u => String.eqb (user_id u) (env_userId env))
                    (users (provisioned_store env session app customer db))
                  = Some (provisioned_user env app db)).
  { unfold provisioned_store. cbn [users].
    apply find_snoc_new;
      [apply (find_none_of_existsb _ _ _ Huid); auto | apply String.eqb_refl]. }
  assert (Hrow : exists a,
            find (fun a => String.eqb (app_id a) (app_id app))
              (applications (provisioned_store env session app customer db)) = Some a).
  { unfold provisioned_store. cbn [applications].
    destruct (find_some_of_existsb
                (fun a => String.eqb (app_id a) (app_id app))
                (update_where (fun a => String.eqb (app_id a) (app_id app))
                   (link_application (env_userId env) (env_now_processed env)
                      (Some (env_hashedPassword env))) (applications db)))
      as (a & Ha & _); [|eauto].
    rewrite (existsb_update_where_id app_id); [|reflexivity].
    apply existsb_exists. exists app.
    unfold Table.application_findFirst_session in Happ.
    split; [exact (proj1 (find_some _ _ Happ)) | apply String.eqb_refl]. }
  destruct Hrow as (a & Ha).
  unfold provisioned_billing at 1 2.
  cbn [bill_userId bill_applicationId].
  rewrite Huser, Ha. eexists. split; [reflexivity|].
  unfold provisioned_billing, calculatePricing, or_else, SETUP_FEE, MONTHLY_PRICE,
    ANNUAL_PRICE, CUSTOM_DESIGN_FEE.
  cbn [bi_initialAmount bi_recurringAmount bi_setupFee bi_customDesignFee
       bi_billingType bi_status bi_customerEmail
       bill_setupFee bill_customDesignFee bill_billingType bill_status
       bill_initialAmount bill_recurringAmount bill_amount
       provisioned_user user_email].
  destruct Hplan as [-> | ->]; destruct (app_customDesign app);
    repeat split; reflexivity.
Qed.

Lemma billing_info_after_provisioning_witness :
  exists info,
    getBillingInfo "usr_1"
      (provisioned_store Sample.env_leap Sample.cs_1 Sample.ada "cus_1" Sample.db0)
      = inr info /\
    bi_initialAmount info = 29988 /\
    bi_recurringAmount info = 23988 /\
    bi_customerEmail info = "ada@example.com".
Proof.
  destruct (billing_info_after_provisioning Sample.env_leap Sample.cs_1 "cs_1"
              Sample.ada "cus_1" Sample.db0 (or_intror eq_refl) eq_refl eq_refl eq_refl)
    as (info & Hinfo & Hi & Hr & _ & _ & _ & _ & Hmail).
  exists info. split; [exact Hinfo|]. split; [exact Hi|]. split; [exact Hr | exact Hmail].
Defined.

(** X22 -- A freshly provisioned account has access at once: whatever the
    clock reads, [getSubscriptionStatus] of the new user reports an active
    subscription with access, no end of access, and, for the plans
    'monthly' and 'annual', that it can be cancelled and not reactivated. *)
Theorem new_account_has_access now env session app customer db :
  app_paymentPlan app = "monthly" \/ app_paymentPlan app = "annual" ->
  customer_id (session_customer session) = Some customer ->
  provisionable env session app db = true ->
  exists d,
    getSubscriptionStatus now (env_userId env)
      (provisioned_store env session app customer db) = HasSubscription d /\
    ss_status d = "active" /\ ss_isActive d = true /\ ss_isCancelled d = false /\
    ss_hasAccess d = JsBoolean true /\ ss_accessUntil d = None /\
    ss_canCancel d = true /\ ss_canReactivate d = false.
Proof.
  intros Hplan Hcust Hok.
  destruct (provisioned_billing_found env session app db customer Hcust Hok) as [Hbill _].
  unfold getSubscriptionStatus. rewrite Hbill. eexists. split; [reflexivity|].
  unfold hasAccess, provisioned_billing.
  cbn [ss_status ss_isActive ss_isCancelled ss_hasAccess ss_accessUntil ss_canCancel
       ss_canReactivate bill_status bill_billingType bill_nextBillingDate].
  destruct Hplan as [-> | ->]; repeat split; reflexivity.
Qed.

Lemma new_account_has_access_witness :
  exists d,
    getSubscriptionStatus 0 "usr_1"
      (provisioned_store Sample.env_leap Sample.cs_1 Sample.ada "cus_1" Sample.db0)
      = HasSubscription d /\
    ss_hasAccess d = JsBoolean true /\ ss_canCancel d = true.
Proof.
  destruct (new_account_has_access 0 Sample.env_leap Sample.cs_1 Sample.ada "cus_1"
              Sample.db0 (or_intror eq_refl) eq_refl eq_refl)
    as (d & Hd & _ & _ & _ & Ha & _ & Hc & _).
  exists d. split; [exact Hd|]. split; [exact Ha | exact Hc].
Defined.

(** ** Deliveries of the checkout event *)

Lemma site_eta s :
  {| site_world := with_db (w_db (site_world s)) (site_world s);
     site_mails := site_mails s |} = s.
Proof. destruct s as [[db r a n] m]. reflexivity. Qed.

Lemma first_delivery_mails env response session s app customer :
  Table.application_findFirst_session (session_id session) (w_db (site_world s))
    = Some app ->
  customer_id (session_customer session) = Some customer ->
  provisionable env session app (w_db (site_world s)) = true ->
  env_tempPassword env <> "" ->
  handleCheckoutSessionCompleted None env response session s =
    {| site_world :=
         with_db (provisioned_store env session app customer (w_db (site_world s)))
                 (site_world s);
       site_mails :=
         site_mails s ++
         [PaymentReceipt (Some (app_email app)) (session_id session);
          WelcomeEmail (Some (app_email app)) (Some (env_tempPassword env))] |}.
Proof.
  intros Happ Hcust Hok Hpw. unfold handleCheckoutSessionCompleted.
  rewrite (provisioning_goes_through env _ session _ app customer Happ Hcust Hok).
  cbv beta iota zeta.
  cbn [out_success out_alreadyProcessed out_userExists out_tempPassword out_email
       outcome_created andb negb truthy].
  destruct (String.eqb_spec (env_tempPassword env) "") as [E|_]; [contradiction|].
  cbn [is_some].
  rewrite (linked_application_found env session _ app _ customer Happ).
  cbn [link_application app_id].
  rewrite (proj2 (provisioned_billing_found env session app _ customer Hcust Hok)).
  reflexivity.
Qed.

Lemma redelivery_is_silent env response session s app :
  Table.application_findFirst_session (session_id session) (w_db (site_world s))
    = Some app ->
  app_processed app = true ->
  handleCheckoutSessionCompleted None env response session s = s.
Proof.
  intros Happ Hproc. unfold handleCheckoutSessionCompleted.
  rewrite (processPayment_already env _ session _ app Happ Hproc).
  cbv beta iota zeta.
  cbn [out_success out_alreadyProcessed outcome_alreadyProcessed andb negb].
  apply site_eta.
Qed.

Lemma redeliveries_are_silent session app (rest : list (Env * option Refund)) s :
  Table.application_findFirst_session (session_id session) (w_db (site_world s))
    = Some app ->
  app_processed app = true ->
  webhook_deliveries (map (fun d => (None, fst d, snd d)) rest) session s = s.
Proof.
  intros Happ Hproc. induction rest as [|[env response] rest IH]; cbn [map webhook_deliveries];
    [reflexivity|].
  cbn [fst snd]. rewrite (redelivery_is_silent env response session s app Happ Hproc).
  exact IH.
Qed.

(** X23 -- However often a checkout event is delivered, the customer gets
    one welcome message: when the first delivery provisions a new account
    it sends the payment receipt and the welcome message with the temporary
    password, and the later deliveries (free of infrastructure faults) send
    nothing, request no refund and leave the store as it is. *)
Theorem welcome_mail_sent_once env response session s app customer
    (rest : list (Env * option Refund)) :
  Table.application_findFirst_session (session_id session) (w_db (site_world s))
    = Some app ->
  customer_id (session_customer session) = Some customer ->
  provisionable env session app (w_db (site_world s)) = true ->
  env_tempPassword env <> "" ->
  let s' := webhook_deliveries
              ((None, env, response) :: map (fun d => (None, fst d, snd d)) rest)
              session s in
  site_mails s' =
    site_mails s ++
    [PaymentReceipt (Some (app_email app)) (session_id session);
     WelcomeEmail (Some (app_email app)) (Some (env_tempPassword env))] /\
  w_db (site_world s') =
    provisioned_store env session app customer (w_db (site_world s)) /\
  w_refunds (site_world s') = w_refunds (site_world s) /\
  w_alerts (site_world s') = w_alerts (site_world s) /\
  w_notices (site_world s') = w_notices (site_world s).
Proof.
  intros Happ Hcust Hok Hpw s'. subst s'. cbn [webhook_deliveries].
  rewrite (first_delivery_mails env response session s app customer Happ Hcust Hok Hpw).
  rewrite (redeliveries_are_silent session
             (link_application (env_userId env) (env_now_processed env)
                (Some (env_hashedPassword env)) app)).
  - cbn [site_mails site_world w_db w_refunds w_alerts w_notices with_db]. auto.
  - cbn [site_world w_db with_db]. apply linked_application_found. exact Happ.
  - reflexivity.
Qed.

Lemma welcome_mail_sent_once_witness :
  let s' := webhook_deliveries
              [(None, Sample.env_leap, None); (None, Sample.env_later, None);
               (None, Sample.env_later, Some Sample.refund_1)]
              Sample.cs_1 Scenario.site0 in
  site_mails s' =
    [PaymentReceipt (Some "ada@example.com") "cs_1";
     WelcomeEmail (Some "ada@example.com") (Some "s3cr3t!Pass1")] /\
  w_refunds (site_world s') = [].
Proof.
  destruct (welcome_mail_sent_once Sample.env_leap None Sample.cs_1 Scenario.site0
              Sample.ada "cus_1"
              [(Sample.env_later, None); (Sample.env_later, Some Sample.refund_1)]
              eq_refl eq_refl eq_refl ltac:(discriminate))
    as (Hmails & _ & Hrefunds & _).
  split; [exact Hmails | exact Hrefunds].
Defined.




Lemma unknown_session_delivery fault env response session s pi :
  Table.application_findFirst_session (session_id session) (w_db (site_world s)) = None ->
  truthy (session_payment_intent session) = Some pi ->
  let s' := handleCheckoutSessionCompleted fault env response session s in
  w_db (site_world s') = w_db (site_world s) /\
  w_refunds (site_world s') =
    w_refunds (site_world s) ++
    [{| rr_payment_intent := pi; rr_sessionId := session_id session |}] /\
  w_notices (site_world s') = w_notices (site_world s) /\
  site_mails s' = site_mails s.
Proof.
  intros Hnone Hpi s'. subst s'. unfold handleCheckoutSessionCompleted.
  destruct (processPayment_unknown fault env (session_id session) session _ Hnone)
    as (e & ->).
  cbv beta iota. cbn [site_world site_mails].
  unfold handleFailedCheckout. rewrite Hpi. cbn [w_db with_db]. rewrite Hnone.
  cbv beta iota zeta. destruct response; cbn; auto.
Qed.

(** X25 -- For a session that no Application carries, every delivery of the
    checkout event requests a refund again: after N deliveries, with or
    without faults and whatever the processor answered, N refund requests
    for the payment intent have been sent, the store is unchanged, and no
    customer was written to. *)
Theorem unknown_session_refund_per_delivery session pi
    (ds : list (option nat * Env * option Refund)) s :
  Table.application_findFirst_session (session_id session) (w_db (site_world s)) = None ->
  truthy (session_payment_intent session) = Some pi ->
  let s' := webhook_deliveries ds session s in
  w_db (site_world s') = w_db (site_world s) /\
  w_refunds (site_world s') =
    w_refunds (site_world s) ++
    repeat {| rr_payment_intent := pi; rr_sessionId := session_id session |}
           (List.length ds) /\
  w_notices (site_world s') = w_notices (site_world s) /\
  site_mails s' = site_mails s.
Proof.
  intros Hnone Hpi. revert s Hnone.
  induction ds as [|[[fault env] response] ds IH]; intros s Hnone; cbn zeta.
  - cbn [webhook_deliveries List.length repeat]. rewrite app_nil_r. auto.
  - cbn [webhook_deliveries List.length repeat].
    destruct (unknown_session_delivery fault env response session s pi Hnone Hpi)
      as (Hdb & Hr & Hn & Hm).
    cbn zeta in Hdb, Hr, Hn, Hm.
    assert (Hnone' : Table.application_findFirst_session (session_id session)
                       (w_db (site_world
                          (handleCheckoutSessionCompleted fault env response session s)))
                     = None).
    { unfold Table.application_findFirst_session in *. rewrite Hdb. exact Hnone. }
    destruct (IH _ Hnone') as (Hdb' & Hr' & Hn' & Hm'). cbn zeta in Hdb', Hr', Hn', Hm'.
    rewrite Hdb', Hr', Hn', Hm', Hdb, Hr, Hn, Hm, <- app_assoc. auto.
Qed.

Lemma unknown_session_refund_per_delivery_witness :
  let s' := webhook_deliveries
              [(None, Sample.env_leap, Some Sample.refund_1);
               (Some 0%nat, Sample.env_later, None);
               (None, Sample.env_later, Some Sample.refund_1)]
              Sample.cs_unknown Scenario.site0 in
  w_db (site_world s') = Sample.db0 /\
  w_refunds (site_world s') =
    repeat {| rr_payment_intent := "pi_9"; rr_sessionId := "cs_9" |} 3 /\
  site_mails s' = [].
Proof.
  destruct (unknown_session_refund_per_delivery Sample.cs_unknown "pi_9"
              [(None, Sample.env_leap, Some Sample.refund_1);
               (Some 0%nat, Sample.env_later, None);
               (None, Sample.env_later, Some Sample.refund_1)]
              Scenario.site0 eq_refl eq_refl)
    as (Hdb & Hr & _ & Hm).
  split; [exact Hdb|]. split; [exact Hr | exact Hm].
Defined.

(** ** Payment verification *)

(** X26 -- When [verifyPayment] provisions the account before the webhook
    arrives, the credentials go out in its answer only: the delivery of the
    checkout event that follows finds the Application processed and sends
    neither the welcome message nor the payment receipt, requests no refund
    and leaves the store as it is. *)
Theorem verification_before_webhook env env2 response session s app customer :
  Table.application_findFirst_session (session_id session) (w_db (site_world s))
    = Some app ->
  customer_id (session_customer session) = Some customer ->
  provisionable env session app (w_db (site_world s)) = true ->
  exists db',
    verifyPayment None env (Some ("paid", session)) (session_id session)
      (w_db (site_world s))
    = (inr (VerifiedUserCreated app (Some (env_userId env))
              (Some {| cred_email := Some (app_email app);
                       cred_tempPassword := Some (env_tempPassword env) |})),
       db') /\
    db' = provisioned_store env session app customer (w_db (site_world s)) /\
    handleCheckoutSessionCompleted None env2 response session (on_db (fun _ => db') s)
    = on_db (fun _ => db') s.
Proof.
  intros Happ Hcust Hok.
  destruct (provisionable_parts env session app _ customer Hcust Hok) as (Hproc & _).
  eexists. split; [|split; [reflexivity|]].
  - unfold verifyPayment. cbn [String.eqb Ascii.eqb Bool.eqb negb].
    rewrite Happ, Hproc.
    rewrite (provisioning_goes_through env _ session _ app customer Happ Hcust Hok).
    reflexivity.
  - apply (redelivery_is_silent env2 response session _
             (link_application (env_userId env) (env_now_processed env)
                (Some (env_hashedPassword env)) app)).
    + unfold on_db. cbn [site_world w_db with_db].
      apply linked_application_found. exact Happ.
    + reflexivity.
Qed.

Lemma verification_before_webhook_witness :
  exists db',
    verifyPayment None Sample.env_leap (Some ("paid", Sample.cs_1)) "cs_1" Sample.db0
    = (inr (VerifiedUserCreated Sample.ada (Some "usr_1")
              (Some {| cred_email := Some "ada@example.com";
                       cred_tempPassword := Some "s3cr3t!Pass1" |})),
       db') /\
    site_mails (handleCheckoutSessionCompleted None Sample.env_later None Sample.cs_1
                  (on_db (fun _ => db') Scenario.site0)) = [].
Proof.
  destruct (verification_before_webhook Sample.env_leap Sample.env_later None
              Sample.cs_1 Scenario.site0 Sample.ada "cus_1" eq_refl eq_refl eq_refl)
    as (db' & Hrun & _ & Hsilent).
  exists db'. split; [exact Hrun|]. rewrite Hsilent. reflexivity.
Defined.

(** X27 -- [verifyPayment] changes the store only when it answers that the
    user was created; then the Application of the session, unprocessed
    before, is processed and linked to the user it names.  With every other
    answer (payment not completed, no Application, already processed) and
    with every failure, the provisioning failure included, the store is
    what it was. *)
Theorem verifyPayment_changes_store_only_on_creation
    fault env retrieved sessionId db r db' :
  verifyPayment fault env retrieved sessionId db = (r, db') ->
  db' = db \/
  exists application userId credentials application',
    r = inr (VerifiedUserCreated application userId credentials) /\
    Table.application_findFirst_session sessionId db = Some application /\
    app_processed application = false /\
    Table.application_findFirst_session sessionId db' = Some application' /\
    app_processed application' = true /\
    app_userId application' = userId.
Proof.
  unfold verifyPayment. intros H.
  destruct retrieved as [[payment_status session]|]; [|left; congruence].
  destruct (negb (String.eqb payment_status "paid")); [left; congruence|].
  destruct (Table.application_findFirst_session sessionId db) as [application|] eqn:Happ;
    [|left; congruence].
  destruct (app_processed application) eqn:Hproc; [left; congruence|].
  destruct (processPaymentAndCreateUser fault env sessionId session db) as [[e|o] d] eqn:Hrun.
  - apply processPayment_inl in Hrun as [-> _]. left. congruence.
  - right. destruct (processed_after_success _ _ _ _ _ _ _ Hrun) as (app' & Hf & Hp & Hu).
    injection H as <- <-. eauto 10.
Qed.

Lemma verifyPayment_changes_store_only_on_creation_witness :
  verifyPayment (Some 3%nat) Sample.env_leap (Some ("paid", Sample.cs_1)) "cs_1" Sample.db0
    = (inl (VerifyFailed (ProcessingFailed TransactionFault)), Sample.db0) /\
  (Sample.db0 = Sample.db0 \/
   exists application userId credentials application',
     inl (VerifyFailed (ProcessingFailed TransactionFault))
       = inr (VerifiedUserCreated application userId credentials) /\
     Table.application_findFirst_session "cs_1" Sample.db0 = Some application /\
     app_processed application = false /\
     Table.application_findFirst_session "cs_1" Sample.db0 = Some application' /\
     app_processed application' = true /\
     app_userId application' = userId).
Proof.
  split; [reflexivity|].
  apply (verifyPayment_changes_store_only_on_creation (Some 3%nat) Sample.env_leap
           (Some ("paid", Sample.cs_1)) "cs_1" Sample.db0).
  reflexivity.
Defined.
